(** * NeuroGraph RAG: the vector retrieval engine

    A shallow embedding of the retrieval core of the repository:

    - [services/vector_store.py]  (class [VectorStore]: [add_chunks],
      [search], [delete_document], [_rebuild_index], [_save_all],
      [_initialize_index], [get_document_status]);
    - [services/chunking.py]      (class [TextChunker]: [chunk_text]);
    - [services/document_processor.py], [services/embeddings.py]
      ([DocumentParser], [process_document], [embed_texts]);
    - [utils/file_handler.py], [api/routes/upload.py] ([validate_file],
      [save_upload_file], [upload_document], [analyze_document]);
    - [services/chat_service.py]  ([stream_chat_response]),
      [services/toon.py] ([ToonFormatter]) together with the client side
      of the conversation ([ChatContainer.handleSend],
      [apiClient.streamMessage]).

    Conventions.  Python exceptions are values of [exn] and a call that may
    raise returns a [result].  Mutable objects are threaded explicitly: a
    method of [VectorStore] takes the store (and the disk) and returns the
    new ones.  The [float32] arithmetic of numpy and FAISS is idealised as
    arithmetic on real numbers: a score or a distance is the real number
    the program computes up to rounding, and no statement below measures
    the rounding.  Characters are code points below 256. *)

From Stdlib Require Import Reals Lra Lia ZArith Ascii String.
From stdpp Require Import gmap strings list sorting pretty.

(** ** Python results *)

Inductive exn : Type :=
  | ValueError (msg : string)
  | AssertionError
  | IndexError
  | RuntimeError
  | OSError.

Inductive result (A : Type) : Type :=
  | Returned (a : A)
  | Raised (e : exn).
Arguments Returned {A} a.
Arguments Raised {A} e.

(** [l[i]] for a Python list: a negative index counts from the end, an index
    out of range raises [IndexError] (here [None]). *)
Definition py_getitem {A : Type} (l : list A) (i : Z) : option A :=
  if (i <? 0)%Z
  then (if (i + Z.of_nat (length l) <? 0)%Z then None
        else l !! Z.to_nat (i + Z.of_nat (length l)))
  else l !! Z.to_nat i.

(** [l[-n:]] in Python and [l.slice(-n)] in JavaScript, for [n > 0]: the
    last [n] elements, the whole list when it is shorter. *)
Definition last_n {A : Type} (n : nat) (l : list A) : list A :=
  drop (length l - n) l.

(** ** The FAISS kernel used by the store

    The routines of FAISS and numpy that the store calls, over the reals.
    They belong to the libraries, not to the repository; the store's code
    is embedded over them. *)

Module Faiss.

Local Open Scope R_scope.

(** A vector of [float32] components, each taken as the real number it
    stands for.  The sums and products below are exact: what rounding adds
    in the program (a normalized row whose norm is within rounding of one,
    not one) is not in the model. *)
Definition vec : Type := list R.

Fixpoint fvec_inner_product (x y : vec) : R :=
  match x, y with
  | a :: x', b :: y' => a * b + fvec_inner_product x' y'
  | _, _ => 0
  end.

Fixpoint fvec_norm_L2sqr (x : vec) : R :=
  match x with
  | a :: x' => a * a + fvec_norm_L2sqr x'
  | [] => 0
  end.

Fixpoint fvec_L2sqr (x y : vec) : R :=
  match x, y with
  | a :: x', b :: y' => (a - b) * (a - b) + fvec_L2sqr x' y'
  | _, _ => 0
  end.

(** Modelled from the spec: [faiss.normalize_L2] is a routine of the FAISS
    library, which the repository only calls ("vectors normalized to unit
    length at insertion and at query time").  One row is scaled by the
    inverse of its Euclidean norm; a row of norm zero is left as it is. *)
Definition fvec_renorm_L2 (x : vec) : vec :=
  let nr := fvec_norm_L2sqr x in
  if Rlt_dec 0 nr then (fun a => a * (1 / sqrt nr)) <$> x else x.

(** A two-dimensional [np.ndarray]: [shape = (length rows, shape1)]. *)
Record ndarray : Type := { shape1 : nat; rows : list vec }.

Definition shape0 (a : ndarray) : nat := length (rows a).

Definition ndarray_wf (a : ndarray) : Prop :=
  Forall (fun r => length r = shape1 a) (rows a).

Definition normalize_L2 (a : ndarray) : ndarray :=
  {| shape1 := shape1 a; rows := fvec_renorm_L2 <$> rows a |}.

(** [faiss.IndexHNSWFlat]: the dimension and the stored vectors, in
    insertion order; the label of a vector is its position. *)
Record IndexHNSWFlat : Type := { d : nat; xb : list vec }.

Definition ntotal (ix : IndexHNSWFlat) : nat := length (xb ix).

Definition new_IndexHNSWFlat (dim : nat) : IndexHNSWFlat :=
  {| d := dim; xb := [] |}.

(** [index.add(x)]: the wrapper asserts the dimension, then appends. *)
Definition index_add (ix : IndexHNSWFlat) (x : ndarray) : result IndexHNSWFlat :=
  if decide (shape1 x = d ix)
  then Returned {| d := d ix; xb := xb ix ++ rows x |}
  else Raised AssertionError.

(** The graph traversal of HNSW belongs to FAISS: it is a parameter [ann],
    giving for the stored vectors, a query and [k] the list of [k] pairs
    (distance, label), label [-1] for a missing result. *)
Definition ann : Type := list vec -> vec -> nat -> list (R * Z).

(** What every traversal guarantees: [k] pairs, and each label is either
    [-1] or the position of a stored vector, reported with its squared
    Euclidean distance to the query (the metric of [IndexHNSWFlat], "L2
    distance" in the comments of [search]). *)
Definition hit_ok (xs : list vec) (q : vec) (h : R * Z) : Prop :=
  h.2 = (-1)%Z \/
  exists v, (0 <= h.2)%Z /\ xs !! Z.to_nat h.2 = Some v /\ h.1 = fvec_L2sqr q v.

Definition ann_sound (hnsw : ann) : Prop :=
  forall xs q k, length (hnsw xs q k) = k /\ Forall (hit_ok xs q) (hnsw xs q k).

(** [index.search(x, k)] for a one-row [x]: the wrapper asserts the
    dimension and [k > 0]. *)
Definition index_search (hnsw : ann) (ix : IndexHNSWFlat) (x : vec) (k : Z)
  : result (list (R * Z)) :=
  if decide (length x = d ix)
  then (if (0 <? k)%Z then Returned (hnsw (xb ix) x (Z.to_nat k))
        else Raised AssertionError)
  else Raised AssertionError.

(** Cosine similarity of two vectors. *)
Definition cosine (x y : vec) : R :=
  fvec_inner_product x y / (sqrt (fvec_norm_L2sqr x) * sqrt (fvec_norm_L2sqr y)).

End Faiss.

(** ** Python strings *)

Module Py.

(** [c.isspace()] for a code point below 256: the ASCII controls 9-13 and
    28-31, the space, NEL (0x85) and the no-break space (0xA0). *)
Definition isspace (c : ascii) : bool :=
  let n := nat_of_ascii c in
  ((9 <=? n) && (n <=? 13)) || ((28 <=? n) && (n <=? 32))
  || (n =? 133) || (n =? 160).

(** The words of [s] after those already closed, [cur] being the word under
    construction. *)
Fixpoint split_from (cur : string) (s : string) : list string :=
  match s with
  | EmptyString => if decide (cur = EmptyString) then [] else [cur]
  | String c s' =>
      if isspace c
      then (if decide (cur = EmptyString) then split_from EmptyString s'
            else cur :: split_from EmptyString s')
      else split_from (cur +:+ String c EmptyString) s'
  end.

(** [s.split()]: the maximal runs of non-whitespace characters. *)
Definition split (s : string) : list string := split_from EmptyString s.

(** [sep.join(l)]. *)
Fixpoint join (sep : string) (l : list string) : string :=
  match l with
  | [] => EmptyString
  | [w] => w
  | w :: l' => w +:+ sep +:+ join sep l'
  end.

(** Truth value of [s.strip()]: some character of [s] is not whitespace. *)
Fixpoint strip_truthy (s : string) : bool :=
  match s with
  | EmptyString => false
  | String c s' => negb (isspace c) || strip_truthy s'
  end.

(** Truth value of a string: it is not empty. *)
Definition truthy (s : string) : bool :=
  match s with EmptyString => false | _ => true end.

Definition len (s : string) : nat := String.length s.

(** The separator of paragraphs, two line feeds. *)
Definition LF : ascii := ascii_of_nat 10.

Definition LFLF : string := String LF (String LF EmptyString).

(** [s.lstrip()], [s.rstrip()] and [s.strip()]. *)
Fixpoint lstrip (s : string) : string :=
  match s with
  | EmptyString => EmptyString
  | String c s' => if isspace c then lstrip s' else s
  end.

Fixpoint rstrip (s : string) : string :=
  match s with
  | EmptyString => EmptyString
  | String c s' =>
      match rstrip s' with
      | EmptyString => if isspace c then EmptyString else String c EmptyString
      | r => String c r
      end
  end.

Definition strip (s : string) : string := lstrip (rstrip s).

(** [s.lower()] for code points below 256: the letters A-Z and the
    capital letters of Latin-1 move 32 places up. *)
Definition lower_char (c : ascii) : ascii :=
  let n := nat_of_ascii c in
  if ((65 <=? n) && (n <=? 90))
     || ((192 <=? n) && (n <=? 222) && negb (n =? 215))
  then ascii_of_nat (n + 32)
  else c.

Fixpoint lower (s : string) : string :=
  match s with
  | EmptyString => EmptyString
  | String c s' => String (lower_char c) (lower s')
  end.

(** [c in s] for a character [c]. *)
Fixpoint contains (c : ascii) (s : string) : bool :=
  match s with
  | EmptyString => false
  | String a s' => bool_decide (a = c) || contains c s'
  end.

(** The cut of [s] at [s.rfind(c)]: the part before the last [c] and the
    part from it on; [None] when [c] is not in [s]. *)
Fixpoint rcut (c : ascii) (s : string) : option (string * string) :=
  match s with
  | EmptyString => None
  | String a s' =>
      match rcut c s' with
      | Some (pre, suf) => Some (String a pre, suf)
      | None => if decide (a = c) then Some (EmptyString, s) else None
      end
  end.

(** [s.endswith(c)] for a character [c]. *)
Fixpoint endswith (c : ascii) (s : string) : bool :=
  match s with
  | EmptyString => false
  | String a EmptyString => bool_decide (a = c)
  | String _ s' => endswith c s'
  end.

(** [os.path.basename(p)]: what follows the last slash. *)
Definition basename (p : string) : string :=
  match rcut "/" p with
  | Some (_, String _ name) => name
  | _ => p
  end.

Fixpoint all_dots (s : string) : bool :=
  match s with
  | EmptyString => true
  | String c s' => bool_decide (c = "."%char) && all_dots s'
  end.

(** [os.path.splitext(p)]: the extension starts at the last dot of the
    last component of the path, unless nothing but dots precedes it
    there. *)
Definition splitext (p : string) : string * string :=
  let '(head, name) :=
    match rcut "/" p with
    | Some (pre, String sep name) => (pre +:+ String sep EmptyString, name)
    | _ => (EmptyString, p)
    end in
  match rcut "." name with
  | Some (stem, ext) =>
      if all_dots stem then (p, EmptyString) else (head +:+ stem, ext)
  | None => (p, EmptyString)
  end.

(** What follows [prefix] in [s], when [s] starts with it
    ([s.startswith(prefix)], then [s[len(prefix):]]). *)
Fixpoint removeprefix (prefix s : string) : option string :=
  match prefix, s with
  | EmptyString, _ => Some s
  | String a prefix', String b s' =>
      if decide (a = b) then removeprefix prefix' s' else None
  | String _ _, EmptyString => None
  end.

End Py.

(** ** The chunker ([services/chunking.py]) *)

Module Chunker.

(** [RecursiveCharacterTextSplitter.split_text] belongs to langchain: the
    chunker is stated over any splitter. *)
Definition splitter : Type := string -> list string.

(** The loop of [chunk_text] over the splitter's chunks. *)
Fixpoint post_process (chunks : list string) : list string :=
  match chunks with
  | [] => []
  | chunk :: rest =>
      let chunk := Py.join " " (Py.split chunk) in
      if Py.len chunk <? 50 then post_process rest
      else chunk :: post_process rest
  end.

Definition chunk_text (split_text : splitter) (text : string) : list string :=
  if negb (Py.truthy text) || negb (Py.strip_truthy text) then []
  else post_process (split_text text).

(** What langchain's splitter does with a text that is shorter than the
    chunk size and has nothing to strip: it gives the text back as the only
    chunk. *)
Definition whole_text_splitter : splitter := fun text => [text].

(** [settings.CHUNK_SIZE], in tokens, and the chunk size in characters
    that [TextChunker.__init__] gives the splitter. *)
Definition CHUNK_SIZE : nat := 800.

Definition chunk_size_chars : nat := CHUNK_SIZE * 4.

(** A splitter that keeps to the chunk size: no chunk is longer. *)
Definition respects_chunk_size (split_text : splitter) : Prop :=
  forall text, Forall (fun c => Py.len c <= chunk_size_chars) (split_text text).

End Chunker.

(** ** The vector store ([services/vector_store.py]) *)

Module Store.

Import Faiss.

(** An entry of [self.chunks]. *)
Record Chunk : Type := {
  c_id : nat;
  c_file_id : string;
  c_content : string;
  c_chunk_index : nat;
  c_tokens : nat
}.

(** An entry of [self.metadata["documents"]]; [upload_date] is the clock's
    reading, passed to [add_chunks] by the caller. *)
Record DocMeta : Type := {
  m_filename : string;
  m_upload_date : string;
  m_num_chunks : nat;
  m_total_tokens : nat
}.

(** A result dictionary of [search]. *)
Record SearchResult : Type := {
  r_content : string;
  r_score : R;
  r_file_id : string;
  r_chunk_index : nat
}.

Record VectorStore : Type := {
  dimension : nat;
  index : IndexHNSWFlat;
  chunks : list Chunk;
  metadata : gmap string DocMeta;
  index_path : string;
  chunks_path : string;
  metadata_path : string
}.

(** *** The disk *)

(** What a file holds: a FAISS index, or the JSON of the chunks or of the
    metadata.  A file is [Intact] when its last write ran to the end, [Torn]
    when a write of the payload was begun over the file and cut short. *)
Inductive payload : Type :=
  | IndexBlob (ix : IndexHNSWFlat)
  | ChunksJson (cs : list Chunk)
  | MetadataJson (m : gmap string DocMeta).

Inductive file : Type :=
  | Intact (p : payload)
  | Torn (p : payload).

(** The operations a save may issue. *)
Inductive fs_op : Type :=
  | FsWrite (path : string) (p : payload)
  | FsRename (src dst : string).

(** The failure of the environment during one save: none, or, after [n]
    operations have completed, the next one fails on opening its file or in
    the middle of writing it. *)
Inductive fault : Type :=
  | NoFault
  | FailOpen (n : nat)
  | FailWrite (n : nat).

Definition apply_op (op : fs_op) (dsk : gmap string file) : gmap string file :=
  match op with
  | FsWrite path p => <[path := Intact p]> dsk
  | FsRename src dst =>
      match dsk !! src with
      | Some f => <[dst := f]> (delete src dsk)
      | None => dsk
      end
  end.

(** A write opens its file with mode ['w'] and writes in place: cut short,
    it leaves the file torn.  A rename is atomic.  The failure of an
    operation raises the error of its library: [RuntimeError] from
    [faiss.write_index], [OSError] from [open], [json.dump] and
    [os.replace]. *)
Definition tear_op (op : fs_op) (dsk : gmap string file) : gmap string file :=
  match op with
  | FsWrite path p => <[path := Torn p]> dsk
  | FsRename _ _ => dsk
  end.

Definition write_error (op : fs_op) : exn :=
  match op with
  | FsWrite _ (IndexBlob _) => RuntimeError
  | _ => OSError
  end.

Fixpoint run_ops (flt : fault) (ops : list fs_op) (dsk : gmap string file)
  : gmap string file * result unit :=
  match ops with
  | [] => (dsk, Returned ())
  | op :: rest =>
      match flt with
      | NoFault => run_ops NoFault rest (apply_op op dsk)
      | FailOpen 0 => (dsk, Raised (write_error op))
      | FailWrite 0 => (tear_op op dsk, Raised (write_error op))
      | FailOpen (S n) => run_ops (FailOpen n) rest (apply_op op dsk)
      | FailWrite (S n) => run_ops (FailWrite n) rest (apply_op op dsk)
      end
  end.

(** The file at the target of the [i]-th write of a save that fails at its
    [n]-th operation, [old] being the file before the save: the writes
    before the failure are complete, the failing write leaves its file torn
    if it had begun and untouched if it had not, the later writes have not
    happened. *)
Definition file_after (flt : fault) (n i : nat) (p : payload) (old : option file)
  : option file :=
  if decide (i < n) then Some (Intact p)
  else if decide (i = n)
       then match flt with FailWrite _ => Some (Torn p) | _ => old end
       else old.

(** The path an operation writes to, if it is a write. *)
Definition written_path (op : fs_op) : option string :=
  match op with
  | FsWrite path _ => Some path
  | FsRename _ _ => None
  end.

(** *** Persistence *)

(** The file operations of [_save_all], in order. *)
Definition _save_all_ops (s : VectorStore) : list fs_op :=
  [ FsWrite (index_path s) (IndexBlob (index s));
    FsWrite (chunks_path s) (ChunksJson (chunks s));
    FsWrite (metadata_path s) (MetadataJson (metadata s)) ].

Definition _save_all (s : VectorStore) (flt : fault) (dsk : gmap string file)
  : gmap string file * result unit :=
  run_ops flt (_save_all_ops s) dsk.

(** [settings.VECTOR_DB_PATH], and [os.path.join] of two components: the
    second alone when it is absolute, otherwise the first followed by the
    second, with a slash between them unless the first is empty or ends
    with one. *)
Definition VECTOR_DB_PATH : string := "./vector_store".

Definition path_join (dir name : string) : string :=
  match name with
  | String "/" _ => name
  | _ =>
      if negb (Py.truthy dir) || Py.endswith "/" dir then dir +:+ name
      else dir +:+ "/" +:+ name
  end.

(** [faiss.read_index]: a file that is not a whole index raises. *)
Definition read_index (f : file) : result IndexHNSWFlat :=
  match f with
  | Intact (IndexBlob ix) => Returned ix
  | _ => Raised RuntimeError
  end.

(** [_load_chunks] and [_load_metadata]: [json.load] raises on a file that
    is not whole JSON.  For a JSON object of the other shape
    [data.get("chunks", [])] is the empty list; [_load_metadata] would keep
    such an object as [self.metadata] and the first use of
    [self.metadata["documents"]] would raise [KeyError], which the store's
    [metadata], the dictionary of the documents, cannot express: here the
    object is read as no documents.  [_save_all] never writes the other
    shape at a path, so that no disk the program reaches holds one
    ([reachable_load_shapes] below). *)
Definition _load_chunks (path : string) (dsk : gmap string file)
  : result (list Chunk) :=
  match dsk !! path with
  | None => Returned []
  | Some (Intact (ChunksJson cs)) => Returned cs
  | Some (Intact (MetadataJson _)) => Returned []
  | Some _ => Raised (ValueError "JSONDecodeError")
  end.

Definition _load_metadata (path : string) (dsk : gmap string file)
  : result (gmap string DocMeta) :=
  match dsk !! path with
  | None => Returned ∅
  | Some (Intact (MetadataJson m)) => Returned m
  | Some (Intact (ChunksJson _)) => Returned ∅
  | Some _ => Raised (ValueError "JSONDecodeError")
  end.

(** [VectorStore()]: [__init__] followed by [_initialize_index]. *)
Definition __init__ (dsk : gmap string file) : result VectorStore :=
  let dimension := 1536 in
  let index_path := path_join VECTOR_DB_PATH "index.faiss" in
  let chunks_path := path_join VECTOR_DB_PATH "chunks.json" in
  let metadata_path := path_join VECTOR_DB_PATH "metadata.json" in
  match dsk !! index_path with
  | Some f =>
      match read_index f with
      | Raised e => Raised e
      | Returned ix =>
          match _load_chunks chunks_path dsk with
          | Raised e => Raised e
          | Returned cs =>
              match _load_metadata metadata_path dsk with
              | Raised e => Raised e
              | Returned m =>
                  Returned {| dimension := dimension; index := ix; chunks := cs;
                              metadata := m; index_path := index_path;
                              chunks_path := chunks_path;
                              metadata_path := metadata_path |}
              end
          end
      end
  | None =>
      Returned {| dimension := dimension;
                  index := new_IndexHNSWFlat dimension;
                  chunks := []; metadata := ∅; index_path := index_path;
                  chunks_path := chunks_path; metadata_path := metadata_path |}
  end.

(** *** The operations *)

(** [len(chunk_text.split())]. *)
Definition token_estimate (chunk_text : string) : nat :=
  length (Py.split chunk_text).

(** The dictionaries appended by the loop of [add_chunks]. *)
Definition new_chunks (start_idx : nat) (file_id : string) (texts : list string)
  : list Chunk :=
  imap (fun i chunk_text =>
          {| c_id := start_idx + i; c_file_id := file_id;
             c_content := chunk_text; c_chunk_index := i;
             c_tokens := token_estimate chunk_text |}) texts.

Definition with_index_chunks (s : VectorStore) (ix : IndexHNSWFlat)
    (cs : list Chunk) (m : gmap string DocMeta) : VectorStore :=
  {| dimension := dimension s; index := ix; chunks := cs; metadata := m;
     index_path := index_path s; chunks_path := chunks_path s;
     metadata_path := metadata_path s |}.

(** [add_chunks]: the two checks, the in-memory update, then [_save_all].
    An exception of [_save_all] leaves the update in place. *)
Definition add_chunks (s : VectorStore) (dsk : gmap string file) (flt : fault)
    (now : string) (file_id filename : string) (texts : list string)
    (embeddings : ndarray)
  : VectorStore * gmap string file * result unit :=
  if decide (shape0 embeddings <> length texts)
  then (s, dsk, Raised (ValueError "Number of embeddings must match number of chunks"))
  else if decide (shape1 embeddings <> dimension s)
  then (s, dsk, Raised (ValueError ("Embedding dimension must be " +:+ pretty (dimension s))))
  else
    let embeddings := normalize_L2 embeddings in
    let start_idx := length (chunks s) in
    match index_add (index s) embeddings with
    | Raised e => (s, dsk, Raised e)
    | Returned ix =>
        let s' :=
          with_index_chunks s ix
            (chunks s ++ new_chunks start_idx file_id texts)
            (<[file_id := {| m_filename := filename; m_upload_date := now;
                             m_num_chunks := length texts;
                             m_total_tokens := sum_list (token_estimate <$> texts) |}]>
               (metadata s)) in
        let '(dsk', r) := _save_all s' flt dsk in
        (s', dsk', r)
    end.

(** Truth value of the optional list [file_ids]. *)
Definition filtering (file_ids : option (list string)) : bool :=
  match file_ids with
  | Some (_ :: _) => true
  | _ => false
  end.

Definition not_in (x : string) (file_ids : option (list string)) : bool :=
  match file_ids with
  | Some l => negb (bool_decide (x ∈ l))
  | None => true
  end.

(** The loop of [search] over [zip(distances[0], indices[0])]. *)
Fixpoint search_loop (cs : list Chunk) (file_ids : option (list string))
    (top_k : Z) (hits : list (R * Z)) (results : list SearchResult)
  : result (list SearchResult) :=
  match hits with
  | [] => Returned results
  | (dist, idx) :: hits' =>
      if decide (idx = (-1)%Z) then search_loop cs file_ids top_k hits' results
      else
        match py_getitem cs idx with
        | None => Raised IndexError
        | Some chunk =>
            if filtering file_ids && not_in (c_file_id chunk) file_ids
            then search_loop cs file_ids top_k hits' results
            else
              let similarity := (1 - dist / 2)%R in
              let results :=
                results ++ [ {| r_content := c_content chunk;
                                r_score := similarity;
                                r_file_id := c_file_id chunk;
                                r_chunk_index := c_chunk_index chunk |} ] in
              if decide (top_k <= Z.of_nat (length results))%Z
              then Returned results
              else search_loop cs file_ids top_k hits' results
        end
  end.

(** [search]: the query is a one-dimensional array, which [reshape(1, -1)]
    turns into the single row that is normalized and searched for. *)
Definition search (hnsw : ann) (s : VectorStore) (query_embedding : vec)
    (top_k : Z) (file_ids : option (list string))
  : result (list SearchResult) :=
  if decide (ntotal (index s) = 0) then Returned []
  else
    let query_embedding := fvec_renorm_L2 query_embedding in
    let k := if filtering file_ids then (top_k * 10)%Z else top_k in
    let k := Z.min k (Z.of_nat (ntotal (index s))) in
    match index_search hnsw (index s) query_embedding k with
    | Raised e => Raised e
    | Returned hits => search_loop (chunks s) file_ids top_k hits []
    end.

Definition _rebuild_index (s : VectorStore) (dsk : gmap string file)
    (flt : fault) (cs : list Chunk)
  : VectorStore * gmap string file * result unit :=
  let new_index := new_IndexHNSWFlat (dimension s) in
  let s' := with_index_chunks s new_index cs (metadata s) in
  let '(dsk', r) := _save_all s' flt dsk in
  (s', dsk', r).

Definition delete_document (s : VectorStore) (dsk : gmap string file)
    (flt : fault) (file_id : string)
  : VectorStore * gmap string file * result unit :=
  let remaining_chunks := filter (fun c => c_file_id c <> file_id) (chunks s) in
  if decide (length remaining_chunks = length (chunks s))
  then (s, dsk, Returned ())
  else
    let s' := with_index_chunks s (index s) (chunks s) (delete file_id (metadata s)) in
    _rebuild_index s' dsk flt remaining_chunks.

(** The store after the in-memory update of [add_chunks], and after that of
    [delete_document] for a document that has chunks. *)
Definition added (s : VectorStore) (now file_id filename : string)
    (texts : list string) (embeddings : ndarray) : VectorStore :=
  with_index_chunks s
    {| d := d (index s);
       xb := xb (index s) ++ (fvec_renorm_L2 <$> rows embeddings) |}
    (chunks s ++ new_chunks (length (chunks s)) file_id texts)
    (<[file_id := {| m_filename := filename; m_upload_date := now;
                     m_num_chunks := length texts;
                     m_total_tokens := sum_list (token_estimate <$> texts) |}]>
       (metadata s)).

Definition deleted (s : VectorStore) (file_id : string) : VectorStore :=
  with_index_chunks s (new_IndexHNSWFlat (dimension s))
    (filter (fun c => c_file_id c <> file_id) (chunks s))
    (delete file_id (metadata s)).

(** The dictionary [search] appends for a chunk found at distance [dist],
    and the test a chunk must pass to be appended. *)
Definition hit_result (chunk : Chunk) (dist : R) : SearchResult :=
  {| r_content := c_content chunk; r_score := (1 - dist / 2)%R;
     r_file_id := c_file_id chunk; r_chunk_index := c_chunk_index chunk |}.

Definition passes (file_ids : option (list string)) (chunk : Chunk) : bool :=
  negb (filtering file_ids && not_in (c_file_id chunk) file_ids).

(** The dictionaries the loop of [search] appends when nothing stops it:
    one for each hit with a real label whose chunk passes the filter, in
    the order of the hits. *)
Definition scored_hits (cs : list Chunk) (file_ids : option (list string))
    (hits : list (R * Z)) : list SearchResult :=
  omap (fun h : R * Z =>
          if decide (h.2 = (-1)%Z) then None
          else match py_getitem cs h.2 with
               | Some chunk =>
                   if passes file_ids chunk then Some (hit_result chunk h.1)
                   else None
               | None => None
               end) hits.

(** *** An exact traversal *)

(** The traversal that HNSW approximates: all stored vectors ranked by their
    distance to the query, the [k] nearest returned, padded with label [-1]
    when fewer than [k] vectors are stored. *)
Definition hit_le (h1 h2 : R * Z) : Prop := (h1.1 <= h2.1)%R.

#[export] Instance hit_le_dec (h1 h2 : R * Z) : Decision (hit_le h1 h2) :=
  Rle_dec h1.1 h2.1.

Definition labelled (xs : list vec) (q : vec) : list (R * Z) :=
  imap (fun i v => (fvec_L2sqr q v, Z.of_nat i)) xs.

Definition knn_exact : ann := fun xs q k =>
  take k (merge_sort hit_le (labelled xs q))
  ++ replicate (k - length xs) (0%R, (-1)%Z).

(** What "the [k] globally nearest" means for the answer of a traversal:
    no label twice, as many real labels as there are vectors to report, and
    no vector left out that is nearer than a reported one. *)
Definition real_labels (hits : list (R * Z)) : list Z :=
  filter (fun l => l <> (-1)%Z) (hits.*2).

Definition ann_exact (hnsw : ann) : Prop :=
  forall xs q k,
    let hits := hnsw xs q k in
    NoDup (real_labels hits)
    /\ length (real_labels hits) = k `min` length xs
    /\ (forall h j v, h ∈ hits -> h.2 <> (-1)%Z -> xs !! j = Some v ->
                      Z.of_nat j ∉ hits.*2 -> (h.1 <= fvec_L2sqr q v)%R).

(** *** The states the store can reach *)

(** An index of the store: of dimension [dim], every stored vector being a
    row of that length as [normalize_L2] left it. *)
Definition index_ok (dim : nat) (ix : IndexHNSWFlat) : Prop :=
  d ix = dim
  /\ Forall (fun v => exists e, length e = dim /\ v = fvec_renorm_L2 e) (xb ix).

(** The store and the disk after any run of the program from an empty
    disk: the store is created, documents are added and deleted, saves may
    fail, and the process may restart from what is on the disk. *)
Inductive reachable : VectorStore -> gmap string file -> Prop :=
  | reach_start s :
      __init__ ∅ = Returned s -> reachable s ∅
  | reach_add s dsk flt now file_id filename texts embeddings :
      reachable s dsk -> ndarray_wf embeddings ->
      reachable (add_chunks s dsk flt now file_id filename texts embeddings).1.1
                (add_chunks s dsk flt now file_id filename texts embeddings).1.2
  | reach_delete s dsk flt file_id :
      reachable s dsk ->
      reachable (delete_document s dsk flt file_id).1.1
                (delete_document s dsk flt file_id).1.2
  | reach_restart s dsk s' :
      reachable s dsk -> __init__ dsk = Returned s' -> reachable s' dsk.

(** Identity of a chunk is its position: the chunk at position [i] has id
    [i], and the index holds one vector per chunk. *)
Definition positional (s : VectorStore) : Prop :=
  (forall i c, chunks s !! i = Some c -> c_id c = i)
  /\ length (chunks s) = ntotal (index s).

(** What holds of every reachable store and disk. *)
Definition disk_ok (dsk : gmap string file) : Prop :=
  forall path ix, dsk !! path = Some (Intact (IndexBlob ix)) -> index_ok 1536 ix.

Definition paths_ok (s : VectorStore) : Prop :=
  index_path s = path_join VECTOR_DB_PATH "index.faiss"
  /\ chunks_path s = path_join VECTOR_DB_PATH "chunks.json"
  /\ metadata_path s = path_join VECTOR_DB_PATH "metadata.json".

Definition store_inv (s : VectorStore) (dsk : gmap string file) : Prop :=
  dimension s = 1536 /\ index_ok 1536 (index s) /\ disk_ok dsk /\ paths_ok s.

(** A file holds what the store writes at its path: an index at
    [index.faiss], chunks at [chunks.json], metadata at [metadata.json]. *)
Definition payload_of (f : file) : payload :=
  match f with Intact p | Torn p => p end.

Definition well_placed (path : string) (p : payload) : Prop :=
  match p with
  | IndexBlob _ => path = path_join VECTOR_DB_PATH "index.faiss"
  | ChunksJson _ => path = path_join VECTOR_DB_PATH "chunks.json"
  | MetadataJson _ => path = path_join VECTOR_DB_PATH "metadata.json"
  end.

Definition files_well_placed (dsk : gmap string file) : Prop :=
  forall path f, dsk !! path = Some f -> well_placed path (payload_of f).

(** *** The save the specification describes *)

(** Write to a temporary file, then rename it over the target. *)
Definition atomic_write_ops (path : string) (p : payload) : list fs_op :=
  [ FsWrite (path +:+ ".tmp") p; FsRename (path +:+ ".tmp") path ].

Definition atomic_save_all_ops (s : VectorStore) : list fs_op :=
  atomic_write_ops (index_path s) (IndexBlob (index s))
  ++ atomic_write_ops (chunks_path s) (ChunksJson (chunks s))
  ++ atomic_write_ops (metadata_path s) (MetadataJson (metadata s)).

(** *** Status of a document *)

(** The dictionary [get_document_status] returns; [upload_date] is present
    only for a document that is found. *)
Record DocumentStatus : Type := {
  status : string;
  chunks_count : nat;
  upload_date : option string
}.

Definition get_document_status (s : VectorStore) (file_id : string)
  : DocumentStatus :=
  match metadata s !! file_id with
  | Some doc =>
      {| status := "completed"; chunks_count := m_num_chunks doc;
         upload_date := Some (m_upload_date doc) |}
  | None =>
      {| status := "not_found"; chunks_count := 0; upload_date := None |}
  end.

(** *** Ranked answers *)

(** FAISS reports the results of a traversal nearest first: the hits with a
    real label are in ascending order of distance. *)
Definition ann_sorted (hnsw : ann) : Prop :=
  forall xs q k,
    StronglySorted hit_le (filter (fun h => h.2 <> (-1)%Z) (hnsw xs q k)).

(** Results are ranked when no result has a better score than one before
    it. *)
Definition ranked (rs : list SearchResult) : Prop :=
  StronglySorted (fun a b => (r_score b <= r_score a)%R) rs.

(** *** A process that has not restarted *)

(** The store, in memory, of a process that started on an empty disk:
    documents are added and deleted, on any arguments, and saves may
    fail. *)
Inductive running : VectorStore -> Prop :=
  | running_start s :
      __init__ ∅ = Returned s -> running s
  | running_add s dsk flt now file_id filename texts embeddings :
      running s ->
      running (add_chunks s dsk flt now file_id filename texts embeddings).1.1
  | running_delete s dsk flt file_id :
      running s ->
      running (delete_document s dsk flt file_id).1.1.

End Store.

(** ** Conversation memory ([ChatContainer], [services/chat_service.py]) *)

Module Chat.

(** A message of the conversation, as the client keeps it and as an entry of
    the request's [history]: [{role, content}].  The client writes the
    roles ['user'] and ['assistant']; on the wire and for the server
    ([List[Dict[str, str]]]) a role is any string. *)
Record Message : Type := { m_role : string; m_content : string }.

(** The state of [ChatContainer]: the messages, the active document and,
    from the integration of the hybrid memory
    ([04_Frontend_Integration.md]), the summary ([historySummary], created
    empty by [useState('')]; no code calls its setter, and the component
    of the application has no such state at all). *)
Record ChatContainer : Type := {
  messages : list Message;
  activeFileId : option string;
  historySummary : string
}.

Definition initial : ChatContainer :=
  {| messages := []; activeFileId := None; historySummary := "" |}.

(** The body of the request to [/api/chat/stream]: [handleSend] posts
    [query], [history], [use_rag] and [file_ids]; [current_summary] is the
    field [apiClient.streamMessage] adds for the hybrid memory. *)
Record ChatRequest : Type := {
  query : string;
  history : list Message;
  current_summary : string;
  use_rag : bool;
  file_ids : option (list string)
}.

(** [handleSend(content)]: the request it sends.  [history] is
    [messages.slice(-10)] of the messages before this one and [file_ids]
    is [activeFileId ? [activeFileId] : null], [null] also for the empty
    string.  The component of the application posts no [current_summary];
    with the hybrid memory integrated the summary sent would be the
    client's [historySummary], which is never set: here the field holds
    that summary, the empty string in every conversation. *)
Definition handleSend (st : ChatContainer) (content : string) : ChatRequest :=
  {| query := content;
     history := last_n 10 (messages st);
     current_summary := historySummary st;
     use_rag := true;
     file_ids := match activeFileId st with
                 | Some fid => if Py.truthy fid then Some [fid] else None
                 | None => None
                 end |}.

(** The state once the answer [reply] has been streamed: the user message
    and the assistant message are appended; nothing else changes. *)
Definition after_send (st : ChatContainer) (content reply : string)
  : ChatContainer :=
  {| messages := messages st ++ [ {| m_role := "user"; m_content := content |};
                                  {| m_role := "assistant"; m_content := reply |} ];
     activeFileId := activeFileId st;
     historySummary := historySummary st |}.

(** [handleFileUploaded(fileId, filename)]: the document becomes the active
    one and an assistant message announces it.  The text of the message
    starts with the page emoji (U+1F4C4, here its four bytes in UTF-8) and
    puts the name between double quotes. *)
Definition upload_notice (filename : string) : string :=
  String (ascii_of_nat 240) (String (ascii_of_nat 159)
    (String (ascii_of_nat 147) (String (ascii_of_nat 132) EmptyString)))
  +:+ " **Document Ready!**" +:+ Py.LFLF
  +:+ "I've analyzed " +:+ String (ascii_of_nat 34) EmptyString +:+ filename
  +:+ String (ascii_of_nat 34) EmptyString
  +:+ " and I'm ready to answer questions about it. What would you like to know?".

Definition handleFileUploaded (st : ChatContainer) (fileId filename : string)
  : ChatContainer :=
  {| messages := messages st ++ [ {| m_role := "assistant";
                                     m_content := upload_notice filename |} ];
     activeFileId := Some fileId;
     historySummary := historySummary st |}.

(** What happens in a conversation: a message is sent and answered, or
    [handleFileUploaded] is called for a document.  [DocumentUpload] calls
    it from [pollStatus], and only for a file it finds in the list [files]
    of the render that started the upload, which does not hold that file
    yet: the conversations of the application are those without
    [Uploaded]. *)
Inductive event : Type :=
  | Sent (content reply : string)
  | Uploaded (fileId filename : string).

Definition step (st : ChatContainer) (ev : event) : ChatContainer :=
  match ev with
  | Sent content reply => after_send st content reply
  | Uploaded fileId filename => handleFileUploaded st fileId filename
  end.

(** The state of the client after the events, from the initial state. *)
Definition conversation (events : list event) : ChatContainer :=
  foldl step initial events.

(** [summarize_history]: the body builds the prompt and stops; the function
    returns [None] and nothing calls it. *)
Definition summarize_history (turns : list Message) (current_summary : string)
  : option string := None.

(** The messages [stream_chat_response] prepares for generation. *)
Inductive payload_part : Type :=
  | HISTORY (turns : list Message)
  | CONTENT (context_chunks : list Store.SearchResult)
  | QUERY (q : string).

Inductive prompt_message : Type :=
  | SystemPrompt
  | PreviousRecap (summary : string)
  | UserPayload (input_payload : list payload_part).

Definition stream_chat_response (query : string) (history : list Message)
    (current_summary : string) (context_chunks : list Store.SearchResult)
  : list prompt_message :=
  [SystemPrompt]
  ++ (if Py.truthy current_summary then [PreviousRecap current_summary] else [])
  ++ [ UserPayload
         ((match history with
           | [] => []
           | _ => [HISTORY (last_n 10 history)]
           end)
          ++ (match context_chunks with
              | [] => []
              | _ => [CONTENT context_chunks]
              end)
          ++ [QUERY query]) ].

(** The verbatim turns and the summary that reach generation. *)
Definition verbatim_turns (prompt : list prompt_message) : list Message :=
  flat_map (fun m => match m with
                     | UserPayload parts =>
                         flat_map (fun p => match p with
                                            | HISTORY turns => turns
                                            | _ => []
                                            end) parts
                     | _ => []
                     end) prompt.

Definition recap (prompt : list prompt_message) : list string :=
  flat_map (fun m => match m with
                     | PreviousRecap s => [s]
                     | _ => []
                     end) prompt.

(** [ToonFormatter] ([services/toon.py]): a header of the field names, the
    number of rows between brackets, then one row per entry, its fields
    separated by tabs.  The listing of the file writes its quotes and
    backslashes escaped; the separators are the line feed and the tab. *)
Definition NL : string := String (ascii_of_nat 10) EmptyString.

Definition TAB : string := String (ascii_of_nat 9) EmptyString.

Definition format_history (history : list Message) : string :=
  let toon := "{role, content}" +:+ NL in
  let toon := toon +:+ ("[" +:+ pretty (length history) +:+ "]" +:+ NL) in
  foldl (fun toon m =>
           toon +:+ (m_role m +:+ TAB +:+ m_content m +:+ NL))
    toon history.

Definition format_context (chunks : list Store.SearchResult) : string :=
  let toon := "{file_id, chunk_index, content}" +:+ NL in
  let toon := toon +:+ ("[" +:+ pretty (length chunks) +:+ "]" +:+ NL) in
  foldl (fun toon c =>
           toon +:+ (Store.r_file_id c +:+ TAB
                     +:+ pretty (Store.r_chunk_index c) +:+ TAB
                     +:+ Store.r_content c +:+ NL))
    toon chunks.

End Chat.

(** ** Scenarios *)

Module Scenario.

Import Faiss Store.

(** The row [(x, 0, ..., 0)] of dimension 1536, and the array of such rows. *)
Definition row (x : R) : vec := x :: replicate 1535 0%R.

Definition rows_of (xs : list R) : ndarray :=
  {| shape1 := 1536; rows := row <$> xs |}.

(** The store a first start creates. *)
Definition fresh : VectorStore :=
  {| dimension := 1536; index := new_IndexHNSWFlat 1536; chunks := [];
     metadata := ∅;
     index_path := "./vector_store/index.faiss";
     chunks_path := "./vector_store/chunks.json";
     metadata_path := "./vector_store/metadata.json" |}.

(** Document A (two chunks) is added, then document B (two chunks), then A
    is deleted, then document C (one chunk) is added; no save fails. *)
Definition with_A :=
  add_chunks fresh ∅ NoFault "t0" "A" "a.txt" ["a0"; "a1"] (rows_of [1; 1]%R).

Definition with_AB :=
  add_chunks with_A.1.1 with_A.1.2 NoFault "t1" "B" "b.txt" ["b0"; "b1"]
    (rows_of [-1; -1]%R).

Definition without_A :=
  delete_document with_AB.1.1 with_AB.1.2 NoFault "A".

Definition with_BC :=
  add_chunks without_A.1.1 without_A.1.2 NoFault "t3" "C" "c.txt" ["c0"]
    (rows_of [1]%R).

(** One document of one chunk, whose embedding is opposite to the query
    [row 1]. *)
Definition with_opposite :=
  add_chunks fresh ∅ NoFault "t0" "A" "a.txt" ["a0"] (rows_of [-1]%R).

(** One document of two chunks, the first at the query [row 1], the second
    opposite to it. *)
Definition with_near_far :=
  add_chunks fresh ∅ NoFault "t0" "A" "a.txt" ["a0"; "a1"] (rows_of [1; -1]%R).

(** One document of one chunk, whose embedding is the zero vector. *)
Definition with_zero :=
  add_chunks fresh ∅ NoFault "t0" "A" "a.txt" ["a0"] (rows_of [0]%R).

(** Ten chunks of document A at the query [row 1], one chunk of document B
    opposite to it. *)
Definition crowded_A :=
  add_chunks fresh ∅ NoFault "t0" "A" "a.txt"
    ["a0"; "a1"; "a2"; "a3"; "a4"; "a5"; "a6"; "a7"; "a8"; "a9"]
    (rows_of [1; 1; 1; 1; 1; 1; 1; 1; 1; 1]%R).

Definition crowded :=
  add_chunks crowded_A.1.1 crowded_A.1.2 NoFault "t1" "B" "b.txt" ["b0"]
    (rows_of [-1]%R).

(** A conversation of seven exchanges: fourteen messages. *)
Definition seven_exchanges : list Chat.event :=
  [ Chat.Sent "q1" "a1"; Chat.Sent "q2" "a2"; Chat.Sent "q3" "a3";
    Chat.Sent "q4" "a4"; Chat.Sent "q5" "a5"; Chat.Sent "q6" "a6";
    Chat.Sent "q7" "a7" ].

End Scenario.

(** ** Document processing ([services/document_processor.py],
    [services/embeddings.py]) *)

Module Processor.

Import Faiss Store.

(** What the parser reads through its libraries: the text of a file
    ([open] and [read], with the second encoding when the first fails),
    the text extracted from each page of a PDF ([PdfReader]), the text of
    each paragraph of a DOCX ([DocxDocument]). *)
Record Readers : Type := {
  read_text : string -> result string;
  PdfReader_pages : string -> result (list string);
  DocxDocument_paragraphs : string -> result (list string)
}.

Definition _parse_text (rd : Readers) (file_path : string) : result string :=
  read_text rd file_path.

(** [_parse_pdf]: the pages with some text, joined by blank lines. *)
Definition _parse_pdf (rd : Readers) (file_path : string) : result string :=
  match PdfReader_pages rd file_path with
  | Raised e => Raised e
  | Returned pages =>
      Returned (Py.join Py.LFLF (filter (fun text => Py.strip_truthy text = true) pages))
  end.

(** [_parse_docx]: the paragraphs, stripped, that are not empty, joined by
    blank lines. *)
Definition _parse_docx (rd : Readers) (file_path : string) : result string :=
  match DocxDocument_paragraphs rd file_path with
  | Raised e => Raised e
  | Returned paragraphs =>
      Returned (Py.join Py.LFLF
                  (filter (fun text => Py.truthy text = true)
                     (Py.strip <$> paragraphs)))
  end.

(** [DocumentParser.parse]: the dispatch on the extension. *)
Definition parse (rd : Readers) (file_path : string) : result string :=
  let ext := Py.lower (Py.splitext file_path).2 in
  if bool_decide (ext ∈ [".txt"; ".md"]) then _parse_text rd file_path
  else if bool_decide (ext = ".pdf") then _parse_pdf rd file_path
  else if bool_decide (ext = ".docx") then _parse_docx rd file_path
  else Raised (ValueError ("Unsupported file format: " +:+ ext)).

(** An array of numpy as [embed_texts] returns it: [np.array([])] has one
    axis, the array of the embeddings has two. *)
Inductive array : Type :=
  | Array1 (v : vec)
  | Array2 (a : ndarray).

(** [np.array(embeddings, dtype=np.float32)] for a list of lists. *)
Definition np_array (embeddings : list vec) : result array :=
  match embeddings with
  | [] => Returned (Array1 [])
  | row :: _ =>
      if decide (Forall (fun r => length r = length row) embeddings)
      then Returned (Array2 {| shape1 := length row; rows := embeddings |})
      else Raised (ValueError "inhomogeneous shape")
  end.

(** [EmbeddingService.embed_texts] over the call to the embedding service,
    [embeddings_create], which gives the embeddings of [response.data]; an
    exception is logged and raised again. *)
Definition embed_texts (embeddings_create : list string -> result (list vec))
    (texts : list string) : result array :=
  match texts with
  | [] => Returned (Array1 [])
  | _ =>
      match embeddings_create texts with
      | Raised e => Raised e
      | Returned embeddings => np_array embeddings
      end
  end.

(** [np.vstack]: every array is taken with two axes, and all must have
    rows of one length. *)
Definition atleast_2d (a : array) : ndarray :=
  match a with
  | Array1 v => {| shape1 := length v; rows := [v] |}
  | Array2 a => a
  end.

Definition vstack (arrays : list array) : result ndarray :=
  match atleast_2d <$> arrays with
  | [] => Raised (ValueError "need at least one array to concatenate")
  | a :: rest =>
      if decide (Forall (fun b => shape1 b = shape1 a) rest)
      then Returned {| shape1 := shape1 a;
                       rows := rows a ++ concat (rows <$> rest) |}
      else Raised (ValueError "all the input array dimensions must match")
  end.

Definition BATCH_SIZE : nat := 16.

(** [range(0, stop, step)] for a positive [step], and [l[i:j]] for
    [0 <= i <= j]. *)
Definition range_step (stop step : nat) : list nat :=
  (fun j => j * step) <$> seq 0 ((stop + step - 1) / step).

Definition slice {A : Type} (l : list A) (i j : nat) : list A :=
  take (j - i) (drop i l).

(** The batches the loop of [process_document] embeds. *)
Definition batches (chunks : list string) : list (list string) :=
  (fun i => slice chunks i (i + BATCH_SIZE))
    <$> range_step (length chunks) BATCH_SIZE.

(** The loop: each batch is embedded in turn, and the first exception
    ends it. *)
Fixpoint embed_batches (embed : list string -> result array)
    (bs : list (list string)) : result (list array) :=
  match bs with
  | [] => Returned []
  | batch :: rest =>
      match embed batch with
      | Raised e => Raised e
      | Returned batch_embeddings =>
          match embed_batches embed rest with
          | Raised e => Raised e
          | Returned all_embeddings => Returned (batch_embeddings :: all_embeddings)
          end
      end
  end.

(** [process_document]: parse, chunk, embed in batches, store.  Every
    exception is logged and raised again. *)
Definition process_document (rd : Readers) (split_text : Chunker.splitter)
    (embeddings_create : list string -> result (list vec))
    (s : VectorStore) (dsk : gmap string file) (flt : fault) (now : string)
    (file_path file_id : string)
  : VectorStore * gmap string file * result unit :=
  match parse rd file_path with
  | Raised e => (s, dsk, Raised e)
  | Returned text =>
      let chunks := Chunker.chunk_text split_text text in
      match chunks with
      | [] => (s, dsk, Returned ())
      | _ =>
          match embed_batches (embed_texts embeddings_create) (batches chunks) with
          | Raised e => (s, dsk, Raised e)
          | Returned all_embeddings =>
              match vstack all_embeddings with
              | Raised e => (s, dsk, Raised e)
              | Returned embeddings =>
                  let filename := Py.basename file_path in
                  add_chunks s dsk flt now file_id filename chunks embeddings
              end
          end
      end
  end.

End Processor.

(** ** Uploads ([utils/file_handler.py], [api/routes/upload.py]) *)

Module Upload.

(** The outcome of a route or of a function it calls: its answer, the
    status code of the [HTTPException] it raises, or the [NameError] that
    Python raises for a name that is not defined. *)
Inductive response (A : Type) : Type :=
  | Ok (a : A)
  | HTTPException (status_code : nat)
  | NameError (name : string).
Arguments Ok {A} a.
Arguments HTTPException {A} status_code.
Arguments NameError {A} name.

Definition ALLOWED_EXTENSIONS : list string := [".pdf"; ".txt"; ".docx"; ".md"].

Definition MAX_FILE_SIZE : Z := 10 * 1024 * 1024.

Definition UPLOAD_DIR : string := "./uploads".

(** [validate_file]; [size] is [None] for an upload without the attribute
    [size]. *)
Definition validate_file (filename : string) (size : option Z) : response unit :=
  let ext := (Py.splitext filename).2 in
  if negb (bool_decide (Py.lower ext ∈ ALLOWED_EXTENSIONS))
  then HTTPException 400
  else
    match size with
    | Some n => if (MAX_FILE_SIZE <? n)%Z then HTTPException 413 else Ok ()
    | None => Ok ()
    end.

(** The files are a map from paths, as the program writes them, to
    contents.  The paths [glob.glob(os.path.join(settings.UPLOAD_DIR, "*"))]
    finds are the entries of the directory whose name does not start with
    a dot. *)
Definition globbed (path : string) : bool :=
  match Py.removeprefix (UPLOAD_DIR +:+ "/") path with
  | Some (String c name) =>
      negb (bool_decide (c = "."%char)) && negb (Py.contains "/" (String c name))
  | _ => false
  end.

(** [glob.glob(os.path.join(settings.UPLOAD_DIR, "*"))]: the paths found.
    Their order is that of the directory listing, here that of the map;
    no statement depends on it. *)
Definition glob_uploads (files : gmap string string) : list string :=
  filter (fun path => globbed path = true) (map_to_list files).*1.

(** [save_upload_file].  [utils/file_handler.py] imports [fastapi],
    [settings], [os] and [uuid] and defines no [logger].  In the first
    round of the loop over the old uploads either [os.remove] removes the
    file and [logger.info] raises [NameError], which [except Exception]
    catches, or [os.remove] itself raises ([remove_fails]); in both cases
    the handler calls [logger.error], whose [NameError] leaves the
    function.  Without an old upload the loop does nothing: the upload is
    written under a new name, [uuid] being the value of
    [str(uuid.uuid4())], and the path is returned. *)
Definition save_upload_file (remove_fails : string -> bool) (uuid : string)
    (files : gmap string string) (filename content : string)
  : gmap string string * response string :=
  match glob_uploads files with
  | old_file :: _ =>
      (if remove_fails old_file then files else delete old_file files,
       NameError "logger")
  | [] =>
      let file_id := uuid in
      let ext := (Py.splitext filename).2 in
      let filename := file_id +:+ ext in
      let file_path := Store.path_join UPLOAD_DIR filename in
      (<[file_path := content]> files, Ok file_path)
  end.

Record UploadResponse : Type := {
  u_filename : string;
  u_file_id : string;
  u_size : nat;
  u_status : string
}.

(** [upload_document]; [size] is the size the request announces, and the
    answer gives the size of the file written.  An exception of
    [validate_file] or of [save_upload_file] leaves the route. *)
Definition upload_document (remove_fails : string -> bool) (uuid : string)
    (files : gmap string string) (filename : string) (size : option Z)
    (content : string)
  : gmap string string * response UploadResponse :=
  match validate_file filename size with
  | HTTPException code => (files, HTTPException code)
  | NameError name => (files, NameError name)
  | Ok _ =>
      match save_upload_file remove_fails uuid files filename content with
      | (files, HTTPException code) => (files, HTTPException code)
      | (files, NameError name) => (files, NameError name)
      | (files, Ok file_path) =>
          (files,
           Ok {| u_filename := filename; u_file_id := Py.basename file_path;
                 u_size := match files !! file_path with
                           | Some written => Py.len written
                           | None => 0
                           end;
                 u_status := "uploaded" |})
      end
  end.

(** [analyze_document]: the arguments of the call of [process_document]
    it schedules.  [path_exists] is [os.path.exists], the answer of the
    file system, which knows directories and the files outside the upload
    directory as well. *)
Definition analyze_document (path_exists : string -> bool) (file_id : string)
  : response (string * string) :=
  let file_path := Store.path_join UPLOAD_DIR file_id in
  if negb (path_exists file_path) then HTTPException 404
  else Ok (file_path, file_id).

End Upload.

(** ** The client of the API ([src/services/api.ts]) *)

Module ApiClient.

(** [s.split('\n')] in JavaScript: the lines of [s], the empty string
    having one empty line. *)
Fixpoint split_lines (s : string) : list string :=
  match s with
  | EmptyString => [EmptyString]
  | String c s' =>
      if decide (c = Py.LF) then EmptyString :: split_lines s'
      else match split_lines s' with
           | line :: rest => String c line :: rest
           | [] => [String c EmptyString]
           end
  end.

(** The loop of [streamMessage] over the lines of one chunk of the
    response: what it yields. *)
Definition yielded (line : string) : list string :=
  match Py.removeprefix "data: " line with
  | Some data => if decide (data = "[DONE]") then [] else [data]
  | None => []
  end.

(** [streamMessage]: the values yielded for the chunks that
    [reader.read()] delivers, each decoded and split by itself. *)
Definition streamMessage (chunks : list string) : list string :=
  flat_map (fun chunk => flat_map yielded (split_lines chunk)) chunks.

End ApiClient.

(** * Properties *)

(** ** Vectors *)

Section Vectors.

Import Faiss.
Local Open Scope R_scope.

Lemma fvec_norm_L2sqr_nonneg (x : vec) : 0 <= fvec_norm_L2sqr x.
Proof. induction x as [|a x IH]; simpl; [lra | nra]. Qed.

Lemma fvec_L2sqr_nonneg (x y : vec) : 0 <= fvec_L2sqr x y.
Proof.
  revert y; induction x as [|a x IH]; intros [|b y]; simpl; try lra.
  specialize (IH y). pose proof (Rle_0_sqr (a - b)) as Hsq. unfold Rsqr in Hsq. lra.
Qed.

(** The distance of two vectors never exceeds twice the sum of their
    squared norms. *)
Lemma fvec_L2sqr_le (x y : vec) :
  fvec_L2sqr x y <= 2 * fvec_norm_L2sqr x + 2 * fvec_norm_L2sqr y.
Proof.
  revert y; induction x as [|a x IH]; intros [|b y]; simpl.
  - lra.
  - pose proof (fvec_norm_L2sqr_nonneg y). nra.
  - pose proof (fvec_norm_L2sqr_nonneg x). nra.
  - specialize (IH y). pose proof (Rle_0_sqr (a + b)) as Hsq.
    unfold Rsqr in Hsq. lra.
Qed.

(** [|x - y|² = |x|² + |y|² - 2 x.y] for vectors of one length. *)
Lemma fvec_L2sqr_expand (x y : vec) :
  length x = length y ->
  fvec_L2sqr x y
  = fvec_norm_L2sqr x + fvec_norm_L2sqr y - 2 * fvec_inner_product x y.
Proof.
  revert y; induction x as [|a x IH]; intros [|b y] Hlen; simpl in *;
    try discriminate; [lra|].
  rewrite IH by lia. ring.
Qed.

Lemma fvec_norm_L2sqr_scale (c : R) (x : vec) :
  fvec_norm_L2sqr ((fun a => a * c) <$> x) = c * c * fvec_norm_L2sqr x.
Proof.
  induction x as [|a x IH]; [simpl; ring|].
  rewrite fmap_cons. cbn [fvec_norm_L2sqr]. rewrite IH. ring.
Qed.

Lemma fvec_inner_product_scale_l (c : R) (x y : vec) :
  fvec_inner_product ((fun a => a * c) <$> x) y = c * fvec_inner_product x y.
Proof.
  revert y; induction x as [|a x IH]; intros [|b y]; try (simpl; ring).
  rewrite fmap_cons. cbn [fvec_inner_product]. rewrite IH. ring.
Qed.

Lemma fvec_renorm_L2_length (x : vec) : length (fvec_renorm_L2 x) = length x.
Proof.
  unfold fvec_renorm_L2. destruct (Rlt_dec _ _); [apply length_fmap | done].
Qed.

(** A row that is not zero has norm one after [normalize_L2]. *)
Lemma fvec_renorm_L2_unit (x : vec) :
  0 < fvec_norm_L2sqr x -> fvec_norm_L2sqr (fvec_renorm_L2 x) = 1.
Proof.
  intros Hpos. unfold fvec_renorm_L2. destruct (Rlt_dec _ _) as [_|]; [|done].
  rewrite fvec_norm_L2sqr_scale.
  pose proof (sqrt_lt_R0 _ Hpos) as Hs.
  pose proof (sqrt_sqrt (fvec_norm_L2sqr x) (Rlt_le _ _ Hpos)) as Hss.
  rewrite <- Hss at 3. field. lra.
Qed.

(** A zero row stays as it is. *)
Lemma fvec_renorm_L2_zero (x : vec) :
  ~ 0 < fvec_norm_L2sqr x -> fvec_renorm_L2 x = x.
Proof. intros Hz. unfold fvec_renorm_L2. by destruct (Rlt_dec _ _). Qed.

Lemma fvec_renorm_L2_norm_cases (x : vec) :
  fvec_norm_L2sqr (fvec_renorm_L2 x) = 1
  \/ fvec_norm_L2sqr (fvec_renorm_L2 x) = 0.
Proof.
  destruct (Rlt_dec 0 (fvec_norm_L2sqr x)) as [Hpos|Hz].
  - left. by apply fvec_renorm_L2_unit.
  - right. rewrite fvec_renorm_L2_zero by done.
    pose proof (fvec_norm_L2sqr_nonneg x). lra.
Qed.

(** A row of norm one is left unchanged. *)
Lemma fvec_renorm_L2_id (x : vec) :
  fvec_norm_L2sqr x = 1 -> fvec_renorm_L2 x = x.
Proof.
  intros H1. unfold fvec_renorm_L2. destruct (Rlt_dec _ _); [|done].
  rewrite H1, sqrt_1. clear.
  induction x as [|a x IH]; [done|].
  rewrite fmap_cons, IH. f_equal. field.
Qed.

Lemma fvec_inner_product_renorm_l (x y : vec) :
  0 < fvec_norm_L2sqr x ->
  fvec_inner_product (fvec_renorm_L2 x) y
  = fvec_inner_product x y / sqrt (fvec_norm_L2sqr x).
Proof.
  intros Hpos. unfold fvec_renorm_L2. destruct (Rlt_dec _ _) as [_|]; [|done].
  rewrite fvec_inner_product_scale_l. pose proof (sqrt_lt_R0 _ Hpos). field. lra.
Qed.

(** On unit vectors of one length, [1 - d²/2] is the inner product. *)
Lemma unit_distance_inner_product (x y : vec) :
  length x = length y ->
  fvec_norm_L2sqr x = 1 -> fvec_norm_L2sqr y = 1 ->
  1 - fvec_L2sqr x y / 2 = fvec_inner_product x y.
Proof. intros Hl Hx Hy. rewrite fvec_L2sqr_expand, Hx, Hy by done. field. Qed.

(** The cosine of a query and a unit vector is the inner product of the
    normalized query with it. *)
Lemma cosine_renorm_l (x y : vec) :
  0 < fvec_norm_L2sqr x -> fvec_norm_L2sqr y = 1 ->
  cosine x y = fvec_inner_product (fvec_renorm_L2 x) y.
Proof.
  intros Hpos Hy. rewrite fvec_inner_product_renorm_l by done.
  unfold cosine. rewrite Hy, sqrt_1. pose proof (sqrt_lt_R0 _ Hpos). field. lra.
Qed.

Lemma cosine_unit (x y : vec) :
  fvec_norm_L2sqr x = 1 -> fvec_norm_L2sqr y = 1 ->
  cosine x y = fvec_inner_product x y.
Proof. intros Hx Hy. unfold cosine. rewrite Hx, Hy, sqrt_1. field. Qed.

Lemma fvec_inner_product_comm (x y : vec) :
  fvec_inner_product x y = fvec_inner_product y x.
Proof.
  revert y; induction x as [|a x IH]; intros [|b y]; simpl; try done.
  rewrite IH. ring.
Qed.

(** The score of two rows that are not zero, once both are normalized, is
    the cosine of the rows as they were given. *)
Lemma normalized_score_cosine (x y : vec) :
  length x = length y ->
  0 < fvec_norm_L2sqr x -> 0 < fvec_norm_L2sqr y ->
  1 - fvec_L2sqr (fvec_renorm_L2 x) (fvec_renorm_L2 y) / 2 = cosine x y.
Proof.
  intros Hl Hx Hy.
  rewrite unit_distance_inner_product
    by (rewrite ?fvec_renorm_L2_length; done || by apply fvec_renorm_L2_unit).
  rewrite fvec_inner_product_renorm_l, fvec_inner_product_comm by done.
  rewrite fvec_inner_product_renorm_l, fvec_inner_product_comm by done.
  unfold cosine. pose proof (sqrt_lt_R0 _ Hx). pose proof (sqrt_lt_R0 _ Hy).
  field. lra.
Qed.

(** A vector of norm zero has inner product zero with every vector. *)
Lemma fvec_inner_product_zero_r (x y : vec) :
  fvec_norm_L2sqr y = 0 -> fvec_inner_product x y = 0.
Proof.
  revert x; induction y as [|b y IH]; intros [|a x] Hy; simpl in *; try done.
  pose proof (fvec_norm_L2sqr_nonneg y). pose proof (Rle_0_sqr b) as Hb.
  unfold Rsqr in Hb. assert (b * b = 0) as Hbb by lra.
  apply Rmult_integral in Hbb as Hb0. rewrite IH by lra.
  destruct Hb0 as [-> | ->]; ring.
Qed.

(** The score of a unit query against a zero row is one half. *)
Lemma zero_row_score (x y : vec) :
  length x = length y ->
  fvec_norm_L2sqr x = 1 -> fvec_norm_L2sqr y = 0 ->
  1 - fvec_L2sqr x y / 2 = 1 / 2.
Proof.
  intros Hl Hx Hy.
  rewrite fvec_L2sqr_expand, Hx, Hy, fvec_inner_product_zero_r by done. field.
Qed.

End Vectors.

(** ** The store: persistence and reachable states *)

Section StoreFacts.

Import Faiss Store.

Lemma py_getitem_nonneg {A} (l : list A) (i : Z) :
  (0 <= i)%Z -> py_getitem l i = l !! Z.to_nat i.
Proof. intros Hi. unfold py_getitem. by destruct (Z.ltb_spec i 0); [lia|]. Qed.

(** A save returns, or raises the error of the failed write. *)
Lemma run_ops_result flt ops dsk :
  (run_ops flt ops dsk).2 = Returned ()
  \/ (run_ops flt ops dsk).2 = Raised OSError
  \/ (run_ops flt ops dsk).2 = Raised RuntimeError.
Proof.
  revert flt dsk; induction ops as [|op ops IH]; intros flt dsk; simpl; [by left|].
  assert (Herr : write_error op = OSError \/ write_error op = RuntimeError).
  { destruct op as [path [| |]|]; simpl; auto. }
  destruct flt as [|[|n]|[|n]]; simpl; auto;
    destruct Herr as [-> | ->]; auto.
Qed.

Lemma run_ops_NoFault ops dsk :
  run_ops NoFault ops dsk = (foldl (fun m op => apply_op op m) dsk ops, Returned ()).
Proof. revert dsk; induction ops as [|op ops IH]; intros dsk; simpl; auto. Qed.

Lemma _save_all_NoFault s dsk :
  _save_all s NoFault dsk
  = (<[metadata_path s := Intact (MetadataJson (metadata s))]>
       (<[chunks_path s := Intact (ChunksJson (chunks s))]>
          (<[index_path s := Intact (IndexBlob (index s))]> dsk)),
     Returned ()).
Proof. unfold _save_all. by rewrite run_ops_NoFault. Qed.

(** The in-memory effect of [add_chunks] on valid arguments, whatever the
    save does. *)
Lemma add_chunks_valid s dsk flt now file_id filename texts embeddings :
  shape0 embeddings = length texts ->
  shape1 embeddings = dimension s ->
  d (index s) = dimension s ->
  add_chunks s dsk flt now file_id filename texts embeddings
  = (added s now file_id filename texts embeddings,
     (_save_all (added s now file_id filename texts embeddings) flt dsk).1,
     (_save_all (added s now file_id filename texts embeddings) flt dsk).2).
Proof.
  intros H0 H1 Hd. unfold add_chunks.
  destruct (decide (shape0 embeddings <> length texts)) as [|_]; [done|].
  destruct (decide (shape1 embeddings <> dimension s)) as [|_]; [done|].
  unfold index_add. simpl.
  destruct (decide (shape1 embeddings = d (index s))) as [_|]; [|congruence].
  fold (added s now file_id filename texts embeddings).
  by destruct (_save_all _ flt dsk).
Qed.

Lemma add_chunks_invalid s dsk flt now file_id filename texts embeddings :
  shape0 embeddings <> length texts \/ shape1 embeddings <> dimension s ->
  exists msg,
    add_chunks s dsk flt now file_id filename texts embeddings
    = (s, dsk, Raised (ValueError msg)).
Proof.
  intros H. unfold add_chunks.
  destruct (decide (shape0 embeddings <> length texts)); [eauto|].
  destruct (decide (shape1 embeddings <> dimension s)); [eauto|].
  tauto.
Qed.

Lemma filter_all_id {A} (P : A -> Prop) `{!forall x, Decision (P x)} (l : list A) :
  Forall P l -> filter P l = l.
Proof.
  induction 1 as [|x l Hx _ IH]; [done|]. by rewrite filter_cons_True, IH.
Qed.

Lemma delete_document_absent s dsk flt file_id :
  (forall c, c ∈ chunks s -> c_file_id c <> file_id) ->
  delete_document s dsk flt file_id = (s, dsk, Returned ()).
Proof.
  intros Habs. unfold delete_document.
  rewrite filter_all_id by (by apply Forall_forall).
  by destruct (decide _).
Qed.

Lemma delete_document_present s dsk flt file_id :
  (exists c, c ∈ chunks s /\ c_file_id c = file_id) ->
  delete_document s dsk flt file_id
  = (deleted s file_id,
     (_save_all (deleted s file_id) flt dsk).1,
     (_save_all (deleted s file_id) flt dsk).2).
Proof.
  intros (c & Hin & Hc). unfold delete_document.
  destruct (decide _) as [Heq|_].
  - exfalso.
    pose proof (length_filter_lt (fun c => c_file_id c <> file_id) _ c Hin) as Hlt.
    rewrite Heq in Hlt. apply (Nat.lt_irrefl (length (chunks s))), Hlt. tauto.
  - unfold _rebuild_index. simpl. fold (deleted s file_id).
    by destruct (_save_all _ flt dsk).
Qed.

Lemma delete_document_cases s dsk flt file_id :
  delete_document s dsk flt file_id = (s, dsk, Returned ())
  \/ delete_document s dsk flt file_id
     = (deleted s file_id,
        (_save_all (deleted s file_id) flt dsk).1,
        (_save_all (deleted s file_id) flt dsk).2).
Proof.
  destruct (decide (Exists (fun c => c_file_id c = file_id) (chunks s))) as [He|Hn].
  - right. apply delete_document_present. apply Exists_exists in He. naive_solver.
  - left. apply delete_document_absent. intros c Hin Hc. apply Hn.
    apply Exists_exists. eauto.
Qed.

End StoreFacts.

Section Reachable.

Import Faiss Store.

Lemma apply_op_disk_ok op dsk :
  disk_ok dsk ->
  (forall path ix, op = FsWrite path (IndexBlob ix) -> index_ok 1536 ix) ->
  disk_ok (apply_op op dsk).
Proof.
  intros Hd Hop path ix. destruct op as [path' p|src dst]; simpl.
  - rewrite lookup_insert. case_decide as Hp.
    + intros [= ->]. eauto.
    + apply Hd.
  - destruct (dsk !! src) as [f|] eqn:Hsrc; [|apply Hd].
    rewrite lookup_insert. case_decide as Hp.
    + intros [= ->]. eauto.
    + rewrite lookup_delete. case_decide; [done | apply Hd].
Qed.

Lemma tear_op_disk_ok op dsk : disk_ok dsk -> disk_ok (tear_op op dsk).
Proof.
  intros Hd path ix. destruct op as [path' p|src dst]; simpl; [|apply Hd].
  rewrite lookup_insert. case_decide; [done | apply Hd].
Qed.

Lemma run_ops_disk_ok flt ops dsk :
  disk_ok dsk ->
  (forall path ix, FsWrite path (IndexBlob ix) ∈ ops -> index_ok 1536 ix) ->
  disk_ok (run_ops flt ops dsk).1.
Proof.
  revert flt dsk; induction ops as [|op ops IH]; intros flt dsk Hd Hops; [done|].
  assert (Hnext : disk_ok (apply_op op dsk)).
  { apply apply_op_disk_ok; [done|]. intros path ix ->. eapply Hops. left. }
  assert (Hrest : forall path ix,
             FsWrite path (IndexBlob ix) ∈ ops -> index_ok 1536 ix).
  { intros path ix Hin. eapply Hops. right. done. }
  destruct flt as [|[|n]|[|n]]; simpl; auto using tear_op_disk_ok.
Qed.

Lemma _save_all_disk_ok s flt dsk :
  disk_ok dsk -> index_ok 1536 (index s) -> disk_ok (_save_all s flt dsk).1.
Proof.
  intros Hd Hix. apply run_ops_disk_ok; [done|].
  intros path ix Hin. unfold _save_all_ops in Hin.
  repeat (apply elem_of_cons in Hin as [Hin|Hin]; [by simplify_eq|]).
  by apply elem_of_nil in Hin.
Qed.

Lemma added_index_ok s now file_id filename texts embeddings :
  index_ok (dimension s) (index s) -> ndarray_wf embeddings ->
  shape1 embeddings = dimension s ->
  index_ok (dimension s) (index (added s now file_id filename texts embeddings)).
Proof.
  intros [Hd Hxb] Hwf H1. split; [done|]. simpl.
  apply Forall_app. split; [done|].
  apply Forall_fmap. eapply Forall_impl; [exact Hwf|].
  intros e He. simpl. exists e. split; [congruence | done].
Qed.

Lemma new_index_ok dim : index_ok dim (new_IndexHNSWFlat dim).
Proof. split; [done | constructor]. Qed.

(** The first start, on an empty disk, creates the empty store. *)
Lemma fresh_init : __init__ ∅ = Returned Scenario.fresh.
Proof. reflexivity. Qed.

Lemma __init___inv dsk s : disk_ok dsk -> __init__ dsk = Returned s -> store_inv s dsk.
Proof.
  intros Hd. unfold __init__.
  destruct (dsk !! path_join VECTOR_DB_PATH "index.faiss") as [f|] eqn:Hf.
  - destruct f as [[ix| |]|]; simpl; try done.
    destruct (_load_chunks _ _); [|done]. destruct (_load_metadata _ _); [|done].
    intros [= <-]. unfold store_inv, paths_ok.
    split_and!; simpl; [done | by eapply Hd | done | done | done | done].
  - intros [= <-]. unfold store_inv, paths_ok.
    split_and!; simpl; [done | apply new_index_ok | done | done | done | done].
Qed.

(** Every reachable store has dimension 1536 and an index of that dimension
    whose vectors are normalized rows; so has every index on the disk. *)
Lemma reachable_inv s dsk : reachable s dsk -> store_inv s dsk.
Proof.
  induction 1 as [s Hs|s dsk flt now fid fn texts emb _ IH Hwf
                 |s dsk flt fid _ IH|s dsk s' _ IH Hs].
  - by apply __init___inv.
  - destruct IH as (Hdim & Hix & Hd & Hp).
    destruct (decide (shape0 emb = length texts /\ shape1 emb = dimension s))
      as [[H0 H1]|Hbad].
    + assert (Hdd : d (index s) = dimension s) by (destruct Hix; congruence).
      rewrite add_chunks_valid by done. simpl.
      assert (Hix' : index_ok 1536 (index (added s now fid fn texts emb))).
      { rewrite <- Hdim. apply added_index_ok; [by rewrite Hdim | done | done]. }
      split_and!; [done | done | | done]. by apply _save_all_disk_ok.
    + destruct (add_chunks_invalid s dsk flt now fid fn texts emb) as [msg ->];
        [|done].
      destruct (decide (shape0 emb = length texts)),
               (decide (shape1 emb = dimension s)); tauto.
  - destruct IH as (Hdim & Hix & Hd & Hp).
    destruct (delete_document_cases s dsk flt fid) as [-> | ->]; [done|]. simpl.
    assert (Hix' : index_ok 1536 (index (deleted s fid))).
    { simpl. rewrite Hdim. apply new_index_ok. }
    split_and!; [done | done | | done]. by apply _save_all_disk_ok.
  - destruct IH as (_ & _ & Hd & _). by apply __init___inv.
Qed.

(** Every file of a reachable disk holds what the store writes at its
    path; in particular the chunks file never holds metadata and the
    metadata file never holds chunks, the case in which [_load_metadata]
    would keep an object without ["documents"]. *)
Lemma run_ops_well_placed flt ops dsk :
  files_well_placed dsk ->
  Forall (fun op => exists path p, op = FsWrite path p /\ well_placed path p) ops ->
  files_well_placed (run_ops flt ops dsk).1.
Proof.
  intros Hd Hops. revert flt dsk Hd.
  induction Hops as [|op ops (path & p & -> & Hp) _ IH]; intros flt dsk Hd; [done|].
  assert (Hnext : files_well_placed (apply_op (FsWrite path p) dsk)).
  { intros path' f. simpl. rewrite lookup_insert. case_decide as Hpath.
    - intros [= <-]. by subst.
    - apply Hd. }
  assert (Htorn : files_well_placed (tear_op (FsWrite path p) dsk)).
  { intros path' f. simpl. rewrite lookup_insert. case_decide as Hpath.
    - intros [= <-]. by subst.
    - apply Hd. }
  destruct flt as [|[|n]|[|n]]; simpl; auto.
Qed.

Lemma _save_all_well_placed s flt dsk :
  paths_ok s -> files_well_placed dsk -> files_well_placed (_save_all s flt dsk).1.
Proof.
  intros (Hi & Hc & Hm) Hd. apply run_ops_well_placed; [done|].
  unfold _save_all_ops. repeat constructor; eexists _, _; (split; [done|]); done.
Qed.

Lemma reachable_well_placed s dsk : reachable s dsk -> files_well_placed dsk.
Proof.
  induction 1 as [s Hs|s dsk flt now fid fn texts emb Hreach IH Hwf
                 |s dsk flt fid Hreach IH|s dsk s' _ IH Hs]; [done| | |done].
  - destruct (reachable_inv _ _ Hreach) as (Hdim & Hix & _ & Hp).
    destruct (decide (shape0 emb = length texts /\ shape1 emb = dimension s))
      as [[H0 H1]|Hbad].
    + assert (Hdd : d (index s) = dimension s) by (destruct Hix; congruence).
      rewrite add_chunks_valid by done. cbn [fst snd].
      by apply _save_all_well_placed.
    + destruct (add_chunks_invalid s dsk flt now fid fn texts emb) as [msg ->];
        [|done].
      destruct (decide (shape0 emb = length texts)),
               (decide (shape1 emb = dimension s)); tauto.
  - destruct (reachable_inv _ _ Hreach) as (_ & _ & _ & Hp).
    destruct (delete_document_cases s dsk flt fid) as [-> | ->]; [done|].
    cbn [fst snd]. by apply _save_all_well_placed.
Qed.

Lemma reachable_load_shapes s dsk :
  reachable s dsk ->
  (forall cs, dsk !! metadata_path s <> Some (Intact (ChunksJson cs)))
  /\ (forall m, dsk !! chunks_path s <> Some (Intact (MetadataJson m))).
Proof.
  intros Hreach. destruct (reachable_inv _ _ Hreach) as (_ & _ & _ & _ & Hc & Hm).
  pose proof (reachable_well_placed _ _ Hreach) as Hd.
  split; [intros cs Hf | intros m Hf]; apply Hd in Hf; simpl in Hf;
    rewrite ?Hc, ?Hm in Hf; discriminate.
Qed.

(** Persistence round trip: a restart after a save that succeeded gives the
    store back, index, chunks and metadata. *)
Lemma restart_after_save s dsk :
  reachable s dsk -> __init__ (_save_all s NoFault dsk).1 = Returned s.
Proof.
  intros Hreach. destruct (reachable_inv _ _ Hreach) as (Hdim & _ & _ & Hi & Hc & Hm).
  rewrite _save_all_NoFault. cbn [fst]. unfold __init__. rewrite Hi, Hc, Hm.
  rewrite lookup_insert_ne, lookup_insert_ne, lookup_insert_eq by done.
  cbn [read_index]. unfold _load_chunks, _load_metadata.
  rewrite lookup_insert_ne, lookup_insert_eq, lookup_insert_eq by done.
  destruct s; simpl in *. by subst.
Qed.

End Reachable.

(** ** Search *)

Section SearchFacts.

Import Faiss Store.
Local Open Scope R_scope.

(** Every result of the loop is an earlier result or comes from a hit with
    a real label whose chunk passes the filter. *)
Lemma search_loop_results (P : SearchResult -> Prop) cs file_ids top_k hits acc rs :
  Forall P acc ->
  (forall dist idx chunk,
      (dist, idx) ∈ hits -> idx <> (-1)%Z -> py_getitem cs idx = Some chunk ->
      passes file_ids chunk = true -> P (hit_result chunk dist)) ->
  search_loop cs file_ids top_k hits acc = Returned rs ->
  Forall P rs.
Proof.
  revert acc; induction hits as [|[dist idx] hits IH]; intros acc Hacc Hhit; simpl.
  - by intros [= <-].
  - assert (Hrest : forall dist' idx' chunk,
               (dist', idx') ∈ hits -> idx' <> (-1)%Z ->
               py_getitem cs idx' = Some chunk ->
               passes file_ids chunk = true -> P (hit_result chunk dist')).
    { intros ??? Hin. apply Hhit. by right. }
    destruct (decide (idx = (-1)%Z)) as [|Hidx]; [by apply IH|].
    destruct (py_getitem cs idx) as [chunk|] eqn:Hget; [|done].
    destruct (filtering file_ids && not_in (c_file_id chunk) file_ids) eqn:Hf;
      [by apply IH|].
    assert (Hacc' : Forall P (acc ++ [hit_result chunk dist])).
    { apply Forall_app. split; [done|]. constructor; [|constructor].
      eapply Hhit; [by left | done | done |]. unfold passes. by rewrite Hf. }
    destruct (decide _); [by intros [= <-] | by apply IH].
Qed.

(** A loop in which every hit is skipped returns what it started with. *)
Lemma search_loop_skip cs file_ids top_k hits acc :
  Forall (fun h => h.2 = (-1)%Z
                   \/ exists chunk, py_getitem cs h.2 = Some chunk
                                    /\ passes file_ids chunk = false) hits ->
  search_loop cs file_ids top_k hits acc = Returned acc.
Proof.
  induction 1 as [|[dist idx] hits Hh _ IH]; simpl; [done|].
  destruct (decide (idx = (-1)%Z)) as [|Hidx]; [done|].
  destruct Hh as [|(chunk & Hget & Hp)]; [done|]. simpl in Hget. rewrite Hget.
  unfold passes in Hp. apply negb_false_iff in Hp. by rewrite Hp.
Qed.

(** [search] on an index that is not empty. *)
Lemma search_nonempty hnsw s q top_k file_ids :
  ntotal (index s) <> 0%nat ->
  search hnsw s q top_k file_ids
  = match index_search hnsw (index s) (fvec_renorm_L2 q)
            (Z.min (if filtering file_ids then top_k * 10 else top_k)
                   (Z.of_nat (ntotal (index s)))) with
    | Raised e => Raised e
    | Returned hits => search_loop (chunks s) file_ids top_k hits []
    end.
Proof. intros Hn. unfold search. by destruct (decide _). Qed.

Lemma index_search_Returned hnsw ix x k hits :
  index_search hnsw ix x k = Returned hits ->
  length x = d ix /\ (0 < k)%Z /\ hits = hnsw (xb ix) x (Z.to_nat k).
Proof.
  unfold index_search. destruct (decide _); [|done].
  destruct (Z.ltb_spec 0 k); [|done]. by intros [= <-].
Qed.

(** The hits a successful search loops over. *)
Lemma search_Returned hnsw s q top_k file_ids rs :
  ntotal (index s) <> 0%nat ->
  search hnsw s q top_k file_ids = Returned rs ->
  let k := Z.min (if filtering file_ids then top_k * 10 else top_k)
                 (Z.of_nat (ntotal (index s))) in
  length (fvec_renorm_L2 q) = d (index s) /\ (0 < k)%Z
  /\ search_loop (chunks s) file_ids top_k
       (hnsw (xb (index s)) (fvec_renorm_L2 q) (Z.to_nat k)) [] = Returned rs.
Proof.
  intros Hn Hs. rewrite search_nonempty in Hs by done.
  destruct (index_search _ _ _ _) as [hits|] eqn:Hi; [|done].
  apply index_search_Returned in Hi as (? & ? & ->). done.
Qed.

(** The loop of [search] over hits that all have a chunk: the first [top_k]
    of the dictionaries of the hits that pass. *)
Lemma search_loop_exact cs file_ids top_k hits acc :
  Forall (fun h => h.2 = (-1)%Z \/ is_Some (py_getitem cs h.2)) hits ->
  (Z.of_nat (length acc) < top_k)%Z ->
  search_loop cs file_ids top_k hits acc
  = Returned (take (Z.to_nat top_k) (acc ++ scored_hits cs file_ids hits)).
Proof.
  intros Hhits. revert acc.
  induction Hhits as [|[dist idx] hits Hh _ IH]; intros acc Hacc.
  - simpl. rewrite app_nil_r, take_ge by lia. done.
  - unfold scored_hits. cbn [search_loop omap list_omap snd fst] in *.
    fold (scored_hits cs file_ids hits).
    destruct (decide (idx = (-1)%Z)) as [|Hidx]; [by apply IH|].
    destruct Hh as [|[chunk Hget]]; [done|]. rewrite Hget.
    unfold passes.
    destruct (filtering file_ids && not_in (c_file_id chunk) file_ids);
      cbn [negb]; [by apply IH|].
    fold (hit_result chunk dist).
    assert (Hlen : length (acc ++ [hit_result chunk dist]) = S (length acc))
      by (rewrite length_app; cbn [length]; lia).
    rewrite (cons_middle _ acc (scored_hits cs file_ids hits)), app_assoc.
    destruct (decide (top_k <= Z.of_nat (length (acc ++ [hit_result chunk dist])))%Z)
      as [Hfull|Hmore].
    + rewrite take_app_length'; [done | lia].
    + apply IH. lia.
Qed.

(** In a store with a chunk for every vector, [search] on a query of the
    index's dimension returns the first [top_k] of the scored hits of the
    traversal from the normalized query. *)
Lemma search_exact hnsw s q top_k file_ids :
  ann_sound hnsw ->
  ntotal (index s) <> 0%nat -> (0 < top_k)%Z -> length q = d (index s) ->
  (ntotal (index s) <= length (chunks s))%nat ->
  search hnsw s q top_k file_ids
  = Returned
      (take (Z.to_nat top_k)
         (scored_hits (chunks s) file_ids
            (hnsw (xb (index s)) (fvec_renorm_L2 q)
               (Z.to_nat (Z.min (if filtering file_ids then top_k * 10 else top_k)
                                (Z.of_nat (ntotal (index s)))))))).
Proof.
  intros Hsound Hn Hk Hq Hcs. rewrite search_nonempty by done.
  unfold index_search. rewrite fvec_renorm_L2_length.
  destruct (decide (length q = d (index s))); [|done].
  destruct (Z.ltb_spec 0 (Z.min (if filtering file_ids then top_k * 10 else top_k)
                                (Z.of_nat (ntotal (index s)))));
    [|destruct (filtering file_ids); lia].
  rewrite search_loop_exact; [done | | simpl; lia].
  destruct (Hsound (xb (index s)) (fvec_renorm_L2 q)
              (Z.to_nat (Z.min (if filtering file_ids then top_k * 10 else top_k)
                               (Z.of_nat (ntotal (index s)))))) as [_ Hok].
  eapply Forall_impl; [exact Hok|].
  intros [dist idx] [Hm1|(v & Hpos & Hv & _)]; [by left|]. right.
  cbn [snd] in *. rewrite py_getitem_nonneg by done.
  apply lookup_lt_is_Some. apply lookup_lt_Some in Hv. unfold ntotal in Hcs. lia.
Qed.

Lemma stored_norm_le_1 dim ix v :
  index_ok dim ix -> v ∈ xb ix -> fvec_norm_L2sqr v <= 1.
Proof.
  intros [_ Hxb] Hv. eapply Forall_forall in Hxb as (e & _ & ->); [|done].
  destruct (fvec_renorm_L2_norm_cases e) as [-> | ->]; lra.
Qed.

End SearchFacts.

(** ** The exact traversal *)

Section ExactTraversal.

Import Faiss Store.
Local Open Scope R_scope.

#[local] Instance hit_le_total : Total hit_le.
Proof. intros h1 h2. unfold hit_le. destruct (Rle_dec h1.1 h2.1); [by left | right; lra]. Qed.

#[local] Instance hit_le_trans : Transitive hit_le.
Proof. intros h1 h2 h3. unfold hit_le. lra. Qed.

Lemma elem_of_labelled xs q h :
  h ∈ labelled xs q
  <-> exists i v, xs !! i = Some v /\ h = (fvec_L2sqr q v, Z.of_nat i).
Proof.
  unfold labelled. rewrite elem_of_lookup_imap.
  split; intros (i & v & H1 & H2); eauto.
Qed.

Lemma labelled_labels xs q : (labelled xs q).*2 = Z.of_nat <$> seq 0 (length xs).
Proof.
  unfold labelled. rewrite fmap_imap, <- (imap_seq_0 xs Z.of_nat). done.
Qed.

Lemma NoDup_labelled_labels xs q : NoDup ((labelled xs q).*2).
Proof. rewrite labelled_labels. apply NoDup_fmap_2; [apply _ | apply NoDup_seq]. Qed.

Lemma sorted_labelled_perm xs q : merge_sort hit_le (labelled xs q) ≡ₚ labelled xs q.
Proof. apply merge_sort_Permutation. Qed.

Lemma elem_of_nearest xs q k h :
  h ∈ take k (merge_sort hit_le (labelled xs q)) ->
  exists i v, xs !! i = Some v /\ h = (fvec_L2sqr q v, Z.of_nat i).
Proof.
  intros Hin. apply elem_of_labelled. rewrite <- sorted_labelled_perm.
  by apply (subseteq_take k).
Qed.

Lemma real_labels_knn_exact xs q k :
  real_labels (knn_exact xs q k)
  = (take k (merge_sort hit_le (labelled xs q))).*2.
Proof.
  unfold real_labels, knn_exact. rewrite fmap_app, filter_app.
  rewrite fmap_replicate. simpl.
  assert (Hpad : forall n, filter (fun l : Z => l <> (-1)%Z) (replicate n (-1)%Z) = []).
  { induction n as [|n IH]; [done|]. simpl. by rewrite filter_cons_False by tauto. }
  rewrite Hpad, app_nil_r. apply filter_all_id.
  apply Forall_fmap, Forall_forall. intros h Hh.
  apply elem_of_nearest in Hh as (i & v & _ & ->). simpl. lia.
Qed.

Lemma knn_exact_sound : ann_sound knn_exact.
Proof.
  intros xs q k. unfold knn_exact. split.
  - rewrite length_app, length_take, length_replicate.
    rewrite (Permutation_length (sorted_labelled_perm xs q)).
    unfold labelled. rewrite length_imap. lia.
  - apply Forall_app. split.
    + apply Forall_forall. intros h Hh.
      apply elem_of_nearest in Hh as (i & v & Hv & ->). right. exists v. simpl.
      split; [lia|]. by rewrite Nat2Z.id.
    + apply Forall_replicate. by left.
Qed.

Lemma knn_exact_exact : ann_exact knn_exact.
Proof.
  intros xs q k hits. subst hits. rewrite real_labels_knn_exact. split_and!.
  - apply (sublist_NoDup _ ((merge_sort hit_le (labelled xs q)).*2)).
    + rewrite (sorted_labelled_perm xs q). apply NoDup_labelled_labels.
    + apply (fmap_sublist snd), sublist_take.
  - rewrite length_fmap, length_take.
    rewrite (Permutation_length (sorted_labelled_perm xs q)).
    unfold labelled. by rewrite length_imap.
  - intros h j v Hh Hreal Hj Hout.
    pose proof (StronglySorted_merge_sort hit_le (labelled xs q)) as Hsorted.
    rewrite <- (take_drop k (merge_sort hit_le (labelled xs q))) in Hsorted.
    assert (Hh' : h ∈ take k (merge_sort hit_le (labelled xs q))).
    { unfold knn_exact in Hh. apply elem_of_app in Hh as [|Hpad]; [done|].
      apply elem_of_replicate in Hpad as [-> _]. done. }
    assert (Hj' : (fvec_L2sqr q v, Z.of_nat j) ∈ drop k (merge_sort hit_le (labelled xs q))).
    { assert (Hall : (fvec_L2sqr q v, Z.of_nat j) ∈ merge_sort hit_le (labelled xs q)).
      { rewrite sorted_labelled_perm. apply elem_of_labelled. eauto. }
      rewrite <- (take_drop k (merge_sort hit_le (labelled xs q))) in Hall.
      apply elem_of_app in Hall as [Hin|]; [|done].
      exfalso. apply Hout. unfold knn_exact. rewrite fmap_app. apply elem_of_app. left.
      apply (list_elem_of_fmap_2 snd) in Hin. done. }
    apply (StronglySorted_app_1_elem_of hit_le _ _ _ _ Hsorted Hh' Hj').
Qed.

End ExactTraversal.

(** ** The scenarios *)

Section ScenarioFacts.

Import Faiss Store Scenario.
Local Open Scope R_scope.

Lemma zeros_norm n : fvec_norm_L2sqr (replicate n 0) = 0.
Proof. induction n as [|n IH]; simpl; [done | rewrite IH; ring]. Qed.

Lemma zeros_distance n : fvec_L2sqr (replicate n 0) (replicate n 0) = 0.
Proof. induction n as [|n IH]; simpl; [done | rewrite IH; ring]. Qed.

Lemma row_norm x : fvec_norm_L2sqr (row x) = x * x.
Proof. unfold row. cbn [fvec_norm_L2sqr]. rewrite zeros_norm. ring. Qed.

Lemma row_distance x y : fvec_L2sqr (row x) (row y) = (x - y) * (x - y).
Proof. unfold row. cbn [fvec_L2sqr]. rewrite zeros_distance. ring. Qed.

Lemma row_length x : length (row x) = 1536%nat.
Proof. reflexivity. Qed.

Lemma row_renorm_1 : fvec_renorm_L2 (row 1) = row 1.
Proof. apply fvec_renorm_L2_id. rewrite row_norm. ring. Qed.

Lemma row_renorm_m1 : fvec_renorm_L2 (row (-1)) = row (-1).
Proof. apply fvec_renorm_L2_id. rewrite row_norm. ring. Qed.

Lemma rows_of_wf xs : ndarray_wf (rows_of xs).
Proof. apply Forall_fmap, Forall_forall. intros x _. apply row_length. Qed.

Lemma reachable_fresh : reachable fresh ∅.
Proof. apply reach_start, fresh_init. Qed.

Lemma reachable_with_opposite : reachable with_opposite.1.1 with_opposite.1.2.
Proof. apply reach_add; [apply reachable_fresh | apply rows_of_wf]. Qed.

Lemma reachable_with_AB : reachable with_AB.1.1 with_AB.1.2.
Proof.
  apply reach_add; [|apply rows_of_wf].
  apply reach_add; [apply reachable_fresh | apply rows_of_wf].
Qed.

Lemma reachable_crowded : reachable crowded.1.1 crowded.1.2.
Proof.
  apply reach_add; [|apply rows_of_wf].
  apply reach_add; [apply reachable_fresh | apply rows_of_wf].
Qed.

Lemma zeros_inner_product n :
  fvec_inner_product (replicate n 0) (replicate n 0) = 0.
Proof. induction n as [|n IH]; simpl; [done | rewrite IH; ring]. Qed.

Lemma row_inner_product x y : fvec_inner_product (row x) (row y) = x * y.
Proof. unfold row. cbn [fvec_inner_product]. rewrite zeros_inner_product. ring. Qed.

Lemma row_renorm_0 : fvec_renorm_L2 (row 0) = row 0.
Proof. apply fvec_renorm_L2_zero. rewrite row_norm. lra. Qed.

Lemma reachable_with_near_far : reachable with_near_far.1.1 with_near_far.1.2.
Proof. apply reach_add; [apply reachable_fresh | apply rows_of_wf]. Qed.

Lemma reachable_with_zero : reachable with_zero.1.1 with_zero.1.2.
Proof. apply reach_add; [apply reachable_fresh | apply rows_of_wf]. Qed.

(** The exact traversal of two stored vectors, the first nearer to the
    query than the second. *)
Lemma knn_exact_pair v w q :
  fvec_L2sqr q v <= fvec_L2sqr q w ->
  knn_exact [v; w] q 2%nat = [(fvec_L2sqr q v, 0%Z); (fvec_L2sqr q w, 1%Z)].
Proof.
  intros Hle. unfold knn_exact, labelled. cbn [imap length Nat.sub replicate].
  rewrite app_nil_r. unfold merge_sort.
  cbn [merge_sort_aux merge_list_to_stack merge_stack_flatten compose].
  change (Z.of_nat 0) with 0%Z. change (Z.of_nat 1) with 1%Z.
  cbn [list_merge]. unfold decide_rel. rewrite decide_True by exact Hle.
  reflexivity.
Qed.

(** The exact traversal of a single stored vector. *)
Lemma knn_exact_single v q : knn_exact [v] q 1%nat = [(fvec_L2sqr q v, 0%Z)].
Proof. reflexivity. Qed.

End ScenarioFacts.

(** ** Scores *)

Section Scores.

Import Faiss Store Scenario.
Local Open Scope R_scope.

(** The search of the one-chunk store whose vector is opposite to the
    query. *)
Lemma search_with_opposite :
  search knn_exact with_opposite.1.1 (row 1) 1 None
  = Returned [ {| r_content := "a0"; r_score := -1; r_file_id := "A";
                  r_chunk_index := 0 |} ].
Proof.
  rewrite search_nonempty by (by compute).
  assert (Hxb : xb (index with_opposite.1.1) = [row (-1)]).
  { change (xb (index with_opposite.1.1)) with [fvec_renorm_L2 (row (-1))].
    by rewrite row_renorm_m1. }
  unfold index_search. rewrite row_renorm_1, Hxb.
  destruct (decide (length (row 1) = d (index with_opposite.1.1))) as [_|Hd];
    [|by destruct Hd].
  change (Z.min _ _) with 1%Z. simpl Z.ltb. cbv iota.
  change (Z.to_nat 1) with 1%nat. rewrite knn_exact_single, row_distance.
  simpl. do 2 f_equal. f_equal. field.
Qed.


(** The search of the two-chunk store, the first vector at the query and
    the second opposite to it. *)
Lemma search_with_near_far :
  search knn_exact with_near_far.1.1 (row 1) 2 None
  = Returned [ {| r_content := "a0"; r_score := 1; r_file_id := "A";
                  r_chunk_index := 0 |};
               {| r_content := "a1"; r_score := -1; r_file_id := "A";
                  r_chunk_index := 1 |} ].
Proof.
  rewrite search_nonempty by (by compute).
  assert (Hxb : xb (index with_near_far.1.1) = [row 1; row (-1)]).
  { change (xb (index with_near_far.1.1))
      with [fvec_renorm_L2 (row 1); fvec_renorm_L2 (row (-1))].
    by rewrite row_renorm_1, row_renorm_m1. }
  unfold index_search. rewrite row_renorm_1, Hxb.
  destruct (decide (length (row 1) = d (index with_near_far.1.1))) as [_|Hd];
    [|by destruct Hd].
  change (Z.min _ _) with 2%Z. simpl Z.ltb. cbv iota.
  change (Z.to_nat 2) with 2%nat.
  rewrite knn_exact_pair by (rewrite !row_distance; lra).
  rewrite !row_distance. simpl. do 2 f_equal.
  - f_equal. field.
  - do 2 f_equal. field.
Qed.

(** The search of the one-chunk store whose vector is zero. *)
Lemma search_with_zero :
  search knn_exact with_zero.1.1 (row 1) 1 None
  = Returned [ {| r_content := "a0"; r_score := 1 / 2; r_file_id := "A";
                  r_chunk_index := 0 |} ].
Proof.
  rewrite search_nonempty by (by compute).
  assert (Hxb : xb (index with_zero.1.1) = [row 0]).
  { change (xb (index with_zero.1.1)) with [fvec_renorm_L2 (row 0)].
    by rewrite row_renorm_0. }
  unfold index_search. rewrite row_renorm_1, Hxb.
  destruct (decide (length (row 1) = d (index with_zero.1.1))) as [_|Hd];
    [|by destruct Hd].
  change (Z.min _ _) with 1%Z. simpl Z.ltb. cbv iota.
  change (Z.to_nat 1) with 1%nat. rewrite knn_exact_single, row_distance.
  simpl. do 2 f_equal. f_equal. field.
Qed.

(** What [search] reports of a hit: the chunk at the label of a stored
    vector, scored from the squared distance between the normalized query
    and that vector. *)
Lemma search_results_scored hnsw s q top_k file_ids rs :
  ann_sound hnsw ->
  search hnsw s q top_k file_ids = Returned rs ->
  Forall (fun r =>
            exists idx v chunk,
              xb (index s) !! idx = Some v /\ chunks s !! idx = Some chunk
              /\ length q = d (index s)
              /\ r = hit_result chunk (fvec_L2sqr (fvec_renorm_L2 q) v)) rs.
Proof.
  intros Hsound Hs.
  destruct (decide (ntotal (index s) = 0%nat)) as [Hz|Hnz].
  { unfold search in Hs. destruct (decide _); [|done]. injection Hs as <-.
    constructor. }
  apply search_Returned in Hs as (Hlen & _ & Hloop); [|done].
  eapply search_loop_results; [constructor | | exact Hloop].
  intros dist idx chunk Hin Hidx Hget _.
  destruct (Hsound (xb (index s)) (fvec_renorm_L2 q)
              (Z.to_nat (Z.min (if filtering file_ids then top_k * 10 else top_k)
                               (Z.of_nat (ntotal (index s)))))) as [_ Hok].
  eapply Forall_forall in Hok as [Hm1|(v & Hpos & Hv & Hdist)]; [| |exact Hin];
    [done|].
  simpl in Hpos, Hv, Hdist. subst dist. rewrite py_getitem_nonneg in Hget by done.
  exists (Z.to_nat idx), v, chunk. split_and!; try done.
  by rewrite <- (fvec_renorm_L2_length q).
Qed.

(** C5, as the code has it.  Every result of [search], in every store, is
    scored [1 - d/2] from the squared distance [d] reported for a stored
    vector, which is not negative: the score is at most 1, it is negative
    as soon as [d] exceeds 2, and it is at least -1 exactly when [d] is at
    most 4. *)
Theorem search_score_range hnsw s q top_k file_ids rs :
  ann_sound hnsw ->
  search hnsw s q top_k file_ids = Returned rs ->
  Forall (fun r =>
            exists idx v,
              xb (index s) !! idx = Some v
              /\ r_score r = 1 - fvec_L2sqr (fvec_renorm_L2 q) v / 2
              /\ 0 <= fvec_L2sqr (fvec_renorm_L2 q) v
              /\ r_score r <= 1
              /\ (0 <= r_score r <-> fvec_L2sqr (fvec_renorm_L2 q) v <= 2)
              /\ (-1 <= r_score r <-> fvec_L2sqr (fvec_renorm_L2 q) v <= 4)) rs.
Proof.
  intros Hsound Hs.
  eapply Forall_impl; [exact (search_results_scored _ _ _ _ _ _ Hsound Hs)|].
  intros r (idx & v & chunk & Hv & _ & _ & ->). exists idx, v.
  pose proof (fvec_L2sqr_nonneg (fvec_renorm_L2 q) v).
  cbn [hit_result r_score]. split_and!; [done | done | done | lra | lra | lra].
Qed.

Lemma search_score_range_witness :
  Forall (fun r =>
            exists idx v,
              xb (index with_near_far.1.1) !! idx = Some v
              /\ r_score r = 1 - fvec_L2sqr (fvec_renorm_L2 (row 1)) v / 2
              /\ 0 <= fvec_L2sqr (fvec_renorm_L2 (row 1)) v
              /\ r_score r <= 1
              /\ (0 <= r_score r <-> fvec_L2sqr (fvec_renorm_L2 (row 1)) v <= 2)
              /\ (-1 <= r_score r <-> fvec_L2sqr (fvec_renorm_L2 (row 1)) v <= 4))
    [ {| r_content := "a0"; r_score := 1; r_file_id := "A";
         r_chunk_index := 0 |};
      {| r_content := "a1"; r_score := -1; r_file_id := "A";
         r_chunk_index := 1 |} ].
Proof.
  exact (search_score_range knn_exact with_near_far.1.1 (row 1) 2 None _
           knn_exact_sound search_with_near_far).
Defined.

(** C5, as the specification states it, fails: in a store holding one
    chunk whose embedding is opposite to the query, the only result has
    score -1, outside [0, 1]. *)
Lemma search_score_negative :
  exists rs r,
    reachable with_opposite.1.1 with_opposite.1.2
    /\ search knn_exact with_opposite.1.1 (row 1) 1 None = Returned rs
    /\ r ∈ rs /\ r_score r = -1 /\ ~ (0 <= r_score r <= 1).
Proof.
  eexists _, _. split; [apply reachable_with_opposite|].
  split; [apply search_with_opposite|].
  split; [by left|]. simpl. split; [done | lra].
Qed.

(** C8, as the code has it.  [add_chunks] appends the rows as
    [normalize_L2] leaves them, of norm one when the row is not zero and
    unchanged when it is, and every vector of a reachable store is such a
    row; [search] hands the traversal the query so normalized and, in a
    store that has a chunk for every vector, returns the first [top_k] of
    the hits that have a real label and pass the filter, in the order of
    the traversal; every result is the chunk at the label of a stored
    vector with score [1 - d/2], [d] being the squared distance between
    the normalized query and that vector; over the reals this score is
    the cosine of the query and of the row the vector was normalized from
    when neither is zero, and it is one half for a stored zero row. *)
Theorem search_score_cosine hnsw s dsk q top_k file_ids :
  reachable s dsk -> ann_sound hnsw ->
  (forall dsk' flt now file_id filename texts embeddings,
      shape0 embeddings = length texts -> shape1 embeddings = dimension s ->
      xb (index (add_chunks s dsk' flt now file_id filename texts embeddings).1.1)
      = xb (index s) ++ (fvec_renorm_L2 <$> rows embeddings))
  /\ (forall e : vec,
        (0 < fvec_norm_L2sqr e -> fvec_norm_L2sqr (fvec_renorm_L2 e) = 1)
        /\ (fvec_norm_L2sqr e = 0 -> fvec_renorm_L2 e = e))
  /\ Forall (fun v => exists e, length e = 1536%nat /\ v = fvec_renorm_L2 e)
       (xb (index s))
  /\ (ntotal (index s) <> 0%nat -> (0 < top_k)%Z -> length q = 1536%nat ->
      (ntotal (index s) <= length (chunks s))%nat ->
      search hnsw s q top_k file_ids
      = Returned
          (take (Z.to_nat top_k)
             (scored_hits (chunks s) file_ids
                (hnsw (xb (index s)) (fvec_renorm_L2 q)
                   (Z.to_nat (Z.min (if filtering file_ids then top_k * 10
                                     else top_k)
                                    (Z.of_nat (ntotal (index s)))))))))
  /\ (forall rs,
        search hnsw s q top_k file_ids = Returned rs ->
        Forall (fun r =>
                  exists idx v chunk,
                    xb (index s) !! idx = Some v /\ chunks s !! idx = Some chunk
                    /\ r = hit_result chunk (fvec_L2sqr (fvec_renorm_L2 q) v)
                    /\ r_score r = 1 - fvec_L2sqr (fvec_renorm_L2 q) v / 2
                    /\ (forall e, v = fvec_renorm_L2 e ->
                                  0 < fvec_norm_L2sqr q -> 0 < fvec_norm_L2sqr e ->
                                  r_score r = cosine q e)
                    /\ (0 < fvec_norm_L2sqr q -> fvec_norm_L2sqr v = 0 ->
                        r_score r = 1 / 2)) rs).
Proof.
  intros Hreach Hsound.
  destruct (reachable_inv _ _ Hreach) as (Hdim & Hix & _ & _).
  assert (Hdd : d (index s) = dimension s) by (destruct Hix; congruence).
  split_and!.
  - intros dsk' flt now fid fn texts emb H0 H1. by rewrite add_chunks_valid.
  - intros e. split; [apply fvec_renorm_L2_unit|].
    intros He. apply fvec_renorm_L2_zero. lra.
  - by destruct Hix.
  - intros Hn Hk Hq Hcs. apply search_exact; try done. congruence.
  - intros rs Hs.
    eapply Forall_impl; [exact (search_results_scored _ _ _ _ _ _ Hsound Hs)|].
    intros r (idx & v & chunk & Hv & Hc & Hq & ->). exists idx, v, chunk.
    assert (Hlv : length v = d (index s)).
    { destruct Hix as [Hd Hxb].
      eapply Forall_forall in Hxb as (e & He & ->);
        [|by eapply list_elem_of_lookup_2].
      rewrite fvec_renorm_L2_length. congruence. }
    split_and!; [done | done | done | done | |].
    + intros e -> Hqpos Hepos. cbn [hit_result r_score].
      apply normalized_score_cosine; [|done|done].
      rewrite fvec_renorm_L2_length in Hlv. congruence.
    + intros Hqpos Hv0. cbn [hit_result r_score].
      apply zero_row_score; [|by apply fvec_renorm_L2_unit|done].
      rewrite fvec_renorm_L2_length. congruence.
Qed.

Lemma search_score_cosine_witness :
  search knn_exact with_near_far.1.1 (row 1) 2 None
  = Returned
      (take 2%nat
         (scored_hits (chunks with_near_far.1.1) None
            (knn_exact (xb (index with_near_far.1.1)) (fvec_renorm_L2 (row 1))
               2%nat)))
  /\ Forall (fun r =>
               exists idx v chunk,
                 xb (index with_near_far.1.1) !! idx = Some v
                 /\ chunks with_near_far.1.1 !! idx = Some chunk
                 /\ r = hit_result chunk (fvec_L2sqr (fvec_renorm_L2 (row 1)) v)
                 /\ r_score r = 1 - fvec_L2sqr (fvec_renorm_L2 (row 1)) v / 2
                 /\ (forall e, v = fvec_renorm_L2 e ->
                               0 < fvec_norm_L2sqr (row 1) ->
                               0 < fvec_norm_L2sqr e ->
                               r_score r = cosine (row 1) e)
                 /\ (0 < fvec_norm_L2sqr (row 1) -> fvec_norm_L2sqr v = 0 ->
                     r_score r = 1 / 2))
       [ {| r_content := "a0"; r_score := 1; r_file_id := "A";
            r_chunk_index := 0 |};
         {| r_content := "a1"; r_score := -1; r_file_id := "A";
            r_chunk_index := 1 |} ].
Proof.
  destruct (search_score_cosine knn_exact with_near_far.1.1 with_near_far.1.2
              (row 1) 2 None reachable_with_near_far knn_exact_sound)
    as (_ & _ & _ & Hexact & Hscored).
  split.
  - apply Hexact; [by compute | done | apply row_length | by compute].
  - apply Hscored, search_with_near_far.
Defined.

(** C8, as the specification states it, fails for a row that is zero:
    [add_chunks] stores it as it is, of norm zero and not one, and the
    search for [row 1] scores it one half, although its inner product with
    the normalized query is zero and a zero vector has no cosine. *)
Lemma search_score_zero_row :
  exists v r,
    reachable with_zero.1.1 with_zero.1.2
    /\ xb (index with_zero.1.1) = [v]
    /\ fvec_norm_L2sqr v = 0 /\ fvec_norm_L2sqr v <> 1
    /\ search knn_exact with_zero.1.1 (row 1) 1 None = Returned [r]
    /\ r_score r = 1 / 2
    /\ fvec_inner_product (fvec_renorm_L2 (row 1)) v = 0
    /\ r_score r <> fvec_inner_product (fvec_renorm_L2 (row 1)) v.
Proof.
  exists (row 0), {| r_content := "a0"; r_score := 1 / 2; r_file_id := "A";
                     r_chunk_index := 0 |}.
  assert (Hip : fvec_inner_product (fvec_renorm_L2 (row 1)) (row 0) = 0).
  { rewrite row_renorm_1, row_inner_product. ring. }
  split_and!.
  - apply reachable_with_zero.
  - change (xb (index with_zero.1.1)) with [fvec_renorm_L2 (row 0)].
    by rewrite row_renorm_0.
  - rewrite row_norm. ring.
  - rewrite row_norm. lra.
  - apply search_with_zero.
  - done.
  - exact Hip.
  - rewrite Hip. cbn [r_score]. lra.
Qed.

(** C9.  On an empty index [search] returns the empty list, whatever the
    query, [top_k] and the filter, and raises nothing. *)
Theorem search_empty_index hnsw s q top_k file_ids :
  ntotal (index s) = 0%nat ->
  search hnsw s q top_k file_ids = Returned [].
Proof. intros Hz. unfold search. by destruct (decide _). Qed.

Lemma search_empty_index_witness :
  ntotal (index fresh) = 0%nat
  /\ search knn_exact fresh (row 1) 3 (Some ["A"]) = Returned [].
Proof.
  split; [reflexivity|].
  apply (search_empty_index knn_exact fresh (row 1) 3 (Some ["A"])). reflexivity.
Defined.

End Scores.

(** ** The filtered search window *)

Section Window.

Import Faiss Store Scenario.

(** An exact traversal never reports a vector when [k] stored vectors are
    strictly nearer to the query. *)
Lemma exact_excludes_far hnsw xs q k far vfar (near : list nat) :
  ann_sound hnsw -> ann_exact hnsw ->
  xs !! far = Some vfar ->
  NoDup near -> length near = k ->
  (forall j, j ∈ near ->
     exists v, xs !! j = Some v /\ (fvec_L2sqr q v < fvec_L2sqr q vfar)%R) ->
  Z.of_nat far ∉ (hnsw xs q k).*2.
Proof.
  intros Hsound Hexact Hfar Hnd Hlen Hnear Hin.
  destruct (Hexact xs q k) as (Hndl & Hcount & Hbest).
  destruct (Hsound xs q k) as [_ Hok].
  apply list_elem_of_fmap in Hin as ([dist l] & Hl & Hh). simpl in Hl. subst l.
  assert (Hdist : dist = fvec_L2sqr q vfar).
  { eapply Forall_forall in Hok as [Hm1|(v & _ & Hv & Hd)]; [| |exact Hh];
      simpl in *; [lia|].
    rewrite Nat2Z.id, Hfar in Hv. by simplify_eq. }
  destruct (decide (Forall (fun j => Z.of_nat j ∈ (hnsw xs q k).*2) near))
    as [Hall|Hout].
  - assert (Hfresh : far ∉ near).
    { intros Hfn. destruct (Hnear _ Hfn) as (v & Hv & Hlt).
      rewrite Hfar in Hv. simplify_eq. lra. }
    assert (Hsub : Z.of_nat <$> (far :: near) ⊆+ real_labels (hnsw xs q k)).
    { apply NoDup_submseteq.
      - apply NoDup_fmap_2; [apply _|]. by constructor.
      - intros l Hl. apply list_elem_of_fmap in Hl as (j & -> & Hj).
        apply list_elem_of_filter. split; [lia|].
        apply elem_of_cons in Hj as [->|Hj].
        + by apply (list_elem_of_fmap_2 snd) in Hh.
        + by eapply Forall_forall in Hall. }
    apply submseteq_length in Hsub.
    rewrite length_fmap, Hcount in Hsub. simpl in Hsub. lia.
  - apply not_Forall_Exists in Hout; [|apply _].
    apply Exists_exists in Hout as (j & Hj & Hnot).
    destruct (Hnear _ Hj) as (v & Hv & Hlt).
    specialize (Hbest (dist, Z.of_nat far) j v Hh). simpl in Hbest.
    specialize (Hbest ltac:(lia) Hv Hnot). lra.
Qed.

Lemma crowded_vectors :
  xb (index crowded.1.1) = replicate 10 (row 1) ++ [row (-1)].
Proof.
  change (xb (index crowded.1.1))
    with (replicate 10 (fvec_renorm_L2 (row 1)) ++ [fvec_renorm_L2 (row (-1))]).
  by rewrite row_renorm_1, row_renorm_m1.
Qed.

(** In the crowded store a filtered search for document B inspects the ten
    chunks of document A and returns nothing. *)
Lemma search_crowded hnsw :
  ann_sound hnsw -> ann_exact hnsw ->
  search hnsw crowded.1.1 (row 1) 1 (Some ["B"]) = Returned [].
Proof.
  intros Hsound Hexact.
  rewrite search_nonempty by (by compute).
  unfold index_search. rewrite row_renorm_1, crowded_vectors.
  destruct (decide (length (row 1) = d (index crowded.1.1))) as [_|Hd];
    [|by destruct Hd].
  change (Z.min _ _) with 10%Z. simpl Z.ltb. cbv iota.
  change (Z.to_nat 10) with 10.
  apply search_loop_skip.
  pose proof (exact_excludes_far hnsw (replicate 10 (row 1) ++ [row (-1)])
                (row 1) 10 10 (row (-1)) (seq 0 10) Hsound Hexact) as Hfar.
  assert (Hout : Z.of_nat 10 ∉ (hnsw (replicate 10 (row 1) ++ [row (-1)]) (row 1) 10).*2).
  { apply Hfar; [done | apply NoDup_seq | done |].
    intros j Hj. apply elem_of_seq in Hj. exists (row 1). split.
    - rewrite lookup_app_l by (rewrite length_replicate; lia).
      apply lookup_replicate_2. lia.
    - rewrite !row_distance. lra. }
  destruct (Hsound (replicate 10 (row 1) ++ [row (-1)]) (row 1) 10) as [_ Hok].
  apply Forall_forall. intros [dist l] Hin.
  destruct (proj1 (Forall_forall _ _) Hok _ Hin) as [Hm1|(v & Hl & Hv & _)];
    [by left|]. right. cbn [fst snd] in *.
  assert (Hlt : Z.to_nat l < 11).
  { apply lookup_lt_Some in Hv. by rewrite length_app, length_replicate in Hv. }
  assert (Hne : l <> 10%Z).
  { intros ->. apply Hout. by apply (list_elem_of_fmap_2 snd) in Hin. }
  rewrite py_getitem_nonneg by done.
  assert (Hcase : Z.to_nat l < 10) by lia.
  generalize dependent (Z.to_nat l). clear. intros i _ _ Hcase.
  do 10 (destruct i as [|i]; [eexists; split; reflexivity|]). lia.
Qed.

(** C10.  With a non-empty [file_ids], [search] loops over the
    [min (top_k * 10) ntotal] hits of one traversal and keeps those whose
    chunk belongs to a requested document; and there is a reachable store
    holding a chunk of document B in which the filtered search for B with
    [top_k = 1] returns nothing, for every exact traversal. *)
Theorem search_filter_window :
  (forall hnsw s q top_k fids rs,
      ann_sound hnsw -> fids <> [] -> ntotal (index s) <> 0 ->
      search hnsw s q top_k (Some fids) = Returned rs ->
      let k := Z.min (top_k * 10) (Z.of_nat (ntotal (index s))) in
      let hits := hnsw (xb (index s)) (fvec_renorm_L2 q) (Z.to_nat k) in
      (0 < k)%Z /\ Z.of_nat (length hits) = k
      /\ Forall (fun r =>
           exists dist idx chunk,
             (dist, idx) ∈ hits /\ py_getitem (chunks s) idx = Some chunk
             /\ c_file_id chunk ∈ fids /\ r = hit_result chunk dist) rs)
  /\ (exists s dsk q top_k fids,
        reachable s dsk /\ fids <> []
        /\ (top_k <= Z.of_nat (length (filter (fun c => c_file_id c ∈ fids) (chunks s))))%Z
        /\ (0 < top_k)%Z
        /\ (forall hnsw, ann_sound hnsw -> ann_exact hnsw ->
              search hnsw s q top_k (Some fids) = Returned [])
        /\ search knn_exact s q top_k (Some fids) = Returned []).
Proof.
  split.
  - intros hnsw s q top_k fids rs Hsound Hf Hn Hs k hits.
    assert (Hfilt : filtering (Some fids) = true) by (by destruct fids).
    apply search_Returned in Hs as (_ & Hk & Hloop); [|done].
    rewrite Hfilt in Hk, Hloop. fold k in Hk, Hloop. fold hits in Hloop.
    split; [done|]. split.
    { subst hits. destruct (Hsound (xb (index s)) (fvec_renorm_L2 q) (Z.to_nat k))
        as [-> _]. lia. }
    eapply search_loop_results; [constructor | | exact Hloop].
    intros dist idx chunk Hin _ Hget Hpass. exists dist, idx, chunk.
    split_and!; try done.
    unfold passes, not_in in Hpass. rewrite Hfilt in Hpass. simpl in Hpass.
    apply negb_true_iff, negb_false_iff in Hpass. by apply bool_decide_eq_true in Hpass.
  - exists crowded.1.1, crowded.1.2, (row 1), 1%Z, ["B"].
    split_and!; try done.
    + apply reachable_crowded.
    + apply search_crowded.
    + apply search_crowded; [apply knn_exact_sound | apply knn_exact_exact].
Qed.

End Window.

(** ** Deleting a document *)

Section Delete.

Import Faiss Store Scenario.

Lemma search_no_vectors hnsw s q top_k file_ids :
  ntotal (index s) = 0 -> search hnsw s q top_k file_ids = Returned [].
Proof. intros Hz. unfold search. by destruct (decide _). Qed.

(** After the deletion of a document that has chunks, every search returns
    the empty list, and the chunks of the other documents are kept. *)
Lemma search_after_delete hnsw s dsk flt file_id q top_k file_ids :
  (exists c, c ∈ chunks s /\ c_file_id c = file_id) ->
  search hnsw (delete_document s dsk flt file_id).1.1 q top_k file_ids = Returned []
  /\ chunks (delete_document s dsk flt file_id).1.1
     = filter (fun c => c_file_id c <> file_id) (chunks s).
Proof.
  intros Hin. rewrite delete_document_present by done. simpl.
  split; [by apply search_no_vectors | done].
Qed.

(** The invariant that [add_chunks] keeps. *)
Lemma add_chunks_positional s dsk flt now file_id filename texts embeddings :
  positional s -> d (index s) = dimension s ->
  positional (add_chunks s dsk flt now file_id filename texts embeddings).1.1.
Proof.
  intros [Hid Hlen] Hd.
  destruct (decide (shape0 embeddings = length texts /\ shape1 embeddings = dimension s))
    as [[H0 H1]|Hbad].
  - rewrite add_chunks_valid by done. simpl. split.
    + intros i c Hc. apply lookup_app_Some in Hc as [Hc|[Hge Hc]]; [by apply Hid|].
      unfold new_chunks in Hc. rewrite list_lookup_imap in Hc.
      destruct (texts !! (i - length (chunks s))) as [t|]; [|done].
      simpl in Hc. injection Hc as <-. simpl. lia.
    + unfold ntotal in *. simpl. rewrite !length_app, length_fmap.
      unfold new_chunks. rewrite length_imap. unfold shape0 in H0. lia.
  - destruct (add_chunks_invalid s dsk flt now file_id filename texts embeddings)
      as [msg ->]; [|done].
    destruct (decide (shape0 embeddings = length texts)),
             (decide (shape1 embeddings = dimension s)); tauto.
Qed.

Lemma with_AB_vectors :
  xb (index with_AB.1.1) = [row 1; row 1; row (-1); row (-1)].
Proof.
  change (xb (index with_AB.1.1))
    with [fvec_renorm_L2 (row 1); fvec_renorm_L2 (row 1);
          fvec_renorm_L2 (row (-1)); fvec_renorm_L2 (row (-1))].
  by rewrite row_renorm_1, row_renorm_m1.
Qed.

(** Before the deletion, the nearest chunk to B's embedding is a chunk of
    document B, at distance zero. *)
Lemma search_with_AB hnsw :
  ann_sound hnsw -> ann_exact hnsw ->
  exists r, search hnsw with_AB.1.1 (row (-1)) 1 None = Returned [r]
            /\ r_file_id r = "B" /\ r_score r = 1%R.
Proof.
  intros Hsound Hexact.
  rewrite search_nonempty by (by compute).
  unfold index_search. rewrite row_renorm_m1, with_AB_vectors.
  destruct (decide (length (row (-1)) = d (index with_AB.1.1))) as [_|Hd];
    [|by destruct Hd].
  change (Z.min _ _) with 1%Z. simpl Z.ltb. cbv iota.
  change (Z.to_nat 1) with 1.
  set (xs := [row 1; row 1; row (-1); row (-1)]).
  assert (Hfar : forall far, far < 2 -> Z.of_nat far ∉ (hnsw xs (row (-1)) 1).*2).
  { intros far Hlt.
    apply (exact_excludes_far hnsw xs (row (-1)) 1 far (row 1) [2] Hsound Hexact).
    - by do 2 (destruct far as [|far]; [done|]); lia.
    - apply NoDup_singleton.
    - done.
    - intros j ->%list_elem_of_singleton. exists (row (-1)). split; [done|].
      rewrite !row_distance. lra. }
  destruct (Hsound xs (row (-1)) 1) as [Hlen Hok].
  destruct (Hexact xs (row (-1)) 1) as (_ & Hcount & _).
  destruct (hnsw xs (row (-1)) 1) as [|[dist l] [|]] eqn:Hhits; try done.
  apply Forall_singleton in Hok as [Hm1|(v & Hl & Hv & Hdist)]; cbn [fst snd] in *.
  { subst l. by compute in Hcount. }
  assert (Hlt : Z.to_nat l < 4) by (by apply lookup_lt_Some in Hv).
  assert (Hge : 2 <= Z.to_nat l).
  { destruct (decide (Z.to_nat l < 2)) as [Hsmall|]; [|lia].
    exfalso. apply (Hfar _ Hsmall). rewrite Z2Nat.id by done. simpl. by left. }
  assert (Hv' : v = row (-1)).
  { subst xs. destruct (Z.to_nat l) as [|[|[|[|n]]]]; try lia;
      change (Some (row (-1)) = Some v) in Hv; congruence. }
  subst v. rewrite row_distance in Hdist.
  change (0 <? 1)%Z with true. cbv iota.
  cbn [search_loop]. destruct (decide (l = (-1)%Z)) as [|_]; [lia|].
  rewrite py_getitem_nonneg by done.
  destruct (Z.to_nat l) as [|[|[|[|n]]]]; try lia.
  - eexists. split; [reflexivity|]. split; [done|]. simpl. subst dist. field.
  - eexists. split; [reflexivity|]. split; [done|]. simpl. subst dist. field.
Qed.

(** C1, evaluated.  Documents A and B are stored; a query at B's embedding
    finds a chunk of B.  After [delete_document("A")] the same search, and
    every other, returns nothing although B's chunks are still listed:
    the rebuilt index is empty.  So it is after the deletion of any document
    that has chunks. *)
Theorem delete_document_loses_other_documents :
  (exists r, search knn_exact with_AB.1.1 (row (-1)) 1 None = Returned [r]
             /\ r_file_id r = "B")
  /\ without_A.2 = Returned ()
  /\ c_file_id <$> chunks without_A.1.1 = ["B"; "B"]
  /\ ntotal (index without_A.1.1) = 0
  /\ (forall hnsw q top_k file_ids,
        search hnsw without_A.1.1 q top_k file_ids = Returned [])
  /\ (forall hnsw s dsk flt doc q top_k file_ids,
        (exists c, c ∈ chunks s /\ c_file_id c = doc) ->
        search hnsw (delete_document s dsk flt doc).1.1 q top_k file_ids
        = Returned []).
Proof.
  split_and!; [| reflexivity | reflexivity | reflexivity | |].
  - destruct (search_with_AB knn_exact knn_exact_sound knn_exact_exact)
      as (r & Hr & Hf & _). eauto.
  - intros hnsw q top_k file_ids.
    apply (search_after_delete hnsw with_AB.1.1 with_AB.1.2 NoFault "A").
    eexists. split; [apply list_elem_of_here | reflexivity].
  - intros hnsw s dsk flt doc q top_k file_ids Hdoc.
    by apply search_after_delete.
Qed.

(** C2, evaluated.  After A and B are added the ids are the positions.
    After [delete_document("A")] the chunks at positions 0 and 1 have ids 2
    and 3 and the index holds no vector; the chunk of C added next gets id
    2 again, and its vector, at label 0, is answered with B's first
    chunk. *)
Theorem delete_document_breaks_positions :
  positional with_AB.1.1
  /\ c_id <$> chunks without_A.1.1 = [2; 3]
  /\ ntotal (index without_A.1.1) = 0
  /\ ~ positional without_A.1.1
  /\ c_id <$> chunks with_BC.1.1 = [2; 3; 2]
  /\ ntotal (index with_BC.1.1) = 1
  /\ ~ NoDup (c_id <$> chunks with_BC.1.1)
  /\ ~ positional with_BC.1.1
  /\ c_content <$> py_getitem (chunks with_BC.1.1) 0 = Some "b0".
Proof.
  split_and!;
    [| reflexivity | reflexivity | | reflexivity | reflexivity | | | reflexivity].
  - do 2 (apply add_chunks_positional; [|reflexivity]).
    split; [|reflexivity]. by intros i c Hc.
  - intros [_ Hlen]. by compute in Hlen.
  - intros Hnd. apply NoDup_cons in Hnd as [Hnot _]. apply Hnot.
    apply list_elem_of_further, list_elem_of_here.
  - intros [_ Hlen]. by compute in Hlen.
Qed.

End Delete.

(** ** Persistence and validation *)

Section Persistence.

Import Faiss Store Scenario.

(** A save that fails raises the error of the write that failed. *)
Lemma _save_all_raises s flt dsk n :
  flt = FailOpen n \/ flt = FailWrite n -> n < 3 ->
  (_save_all s flt dsk).2 = Raised (if decide (n = 0) then RuntimeError else OSError).
Proof.
  intros [-> | ->] Hn; destruct n as [|[|[|n]]]; try lia; reflexivity.
Qed.

(** The disk after a save that fails at its [n]-th write. *)
Lemma _save_all_files s flt n dsk i path p :
  paths_ok s -> flt = FailOpen n \/ flt = FailWrite n -> n < 3 ->
  _save_all_ops s !! i = Some (FsWrite path p) ->
  (_save_all s flt dsk).1 !! path = file_after flt n i p (dsk !! path).
Proof.
  intros (Hi & Hc & Hm) Hflt Hn Hop. unfold _save_all, _save_all_ops in *.
  rewrite Hi, Hc, Hm in *.
  destruct Hflt as [-> | ->]; destruct n as [|[|[|n]]]; try lia;
    destruct i as [|[|[|i]]]; simpl in Hop; simplify_eq;
    unfold file_after; simpl; by simplify_map_eq.
Qed.

(** C3, as the code has it.  On valid arguments the in-memory result of
    [add_chunks], and for a document that has chunks that of
    [delete_document], is the same whether or not the save fails; a failing
    save raises its error to the caller (a [RuntimeError] from the write of
    the index, an [OSError] from the other two); a save writes the index,
    the chunks and the metadata in place, in that order, with no temporary
    file and no rename; and after a failure the files written before it
    hold the new data, the file of the failing write is torn if the write
    had begun, and the other files are as they were.  On other arguments
    nothing is saved: [add_chunks] leaves the store and the disk as they
    were, and so does [delete_document], which returns. *)
Theorem save_failure_in_place s dsk flt n now file_id filename texts embeddings doc :
  reachable s dsk ->
  flt = FailOpen n \/ flt = FailWrite n -> n < 3 ->
  let add := add_chunks s dsk flt now file_id filename texts embeddings in
  let del := delete_document s dsk flt doc in
  (shape0 embeddings = length texts -> shape1 embeddings = dimension s ->
   add.1.1 = (add_chunks s dsk NoFault now file_id filename texts embeddings).1.1
   /\ add.2 = Raised (if decide (n = 0) then RuntimeError else OSError)
   /\ written_path <$> _save_all_ops add.1.1
      = [Some (index_path s); Some (chunks_path s); Some (metadata_path s)]
   /\ (forall i path p,
         _save_all_ops add.1.1 !! i = Some (FsWrite path p) ->
         add.1.2 !! path = file_after flt n i p (dsk !! path)))
  /\ ((exists c, c ∈ chunks s /\ c_file_id c = doc) ->
      del.1.1 = (delete_document s dsk NoFault doc).1.1
      /\ del.2 = Raised (if decide (n = 0) then RuntimeError else OSError)
      /\ written_path <$> _save_all_ops del.1.1
         = [Some (index_path s); Some (chunks_path s); Some (metadata_path s)]
      /\ (forall i path p,
            _save_all_ops del.1.1 !! i = Some (FsWrite path p) ->
            del.1.2 !! path = file_after flt n i p (dsk !! path)))
  /\ (shape0 embeddings <> length texts \/ shape1 embeddings <> dimension s ->
      add.1.1 = s /\ add.1.2 = dsk)
  /\ ((forall c, c ∈ chunks s -> c_file_id c <> doc) ->
      del = (s, dsk, Returned ())).
Proof.
  intros Hreach Hflt Hn add del. subst add del.
  destruct (reachable_inv _ _ Hreach) as (Hdim & Hix & _ & Hp).
  assert (Hdd : d (index s) = dimension s) by (destruct Hix; congruence).
  split_and!.
  - intros H0 H1. rewrite !add_chunks_valid by done. cbn [fst snd].
    split_and!; try done.
    + by eapply _save_all_raises.
    + intros i path p Hop. by apply _save_all_files.
  - intros Hdoc. rewrite !delete_document_present by done. cbn [fst snd].
    split_and!; try done.
    + by eapply _save_all_raises.
    + intros i path p Hop. by apply _save_all_files.
  - intros Hbad.
    destruct (add_chunks_invalid s dsk flt now file_id filename texts embeddings
                Hbad) as (msg & ->). done.
  - intros Habsent. by apply delete_document_absent.
Qed.

Lemma with_A_chunk : exists c, c ∈ chunks with_A.1.1 /\ c_file_id c = "A".
Proof. eexists. split; [apply list_elem_of_here | reflexivity]. Qed.

Lemma reachable_with_A : reachable with_A.1.1 with_A.1.2.
Proof. apply reach_add; [apply reachable_fresh | apply rows_of_wf]. Qed.

Lemma save_failure_in_place_witness :
  (let add := add_chunks fresh ∅ (FailWrite 1) "t0" "A" "a.txt" ["a0"]
                (rows_of [1]%R) in
   add.1.1 = (add_chunks fresh ∅ NoFault "t0" "A" "a.txt" ["a0"]
                (rows_of [1]%R)).1.1
   /\ add.2 = Raised OSError
   /\ add.1.2 !! chunks_path fresh = Some (Torn (ChunksJson (chunks add.1.1))))
  /\ (let del := delete_document with_A.1.1 with_A.1.2 (FailOpen 0) "A" in
      del.1.1 = (delete_document with_A.1.1 with_A.1.2 NoFault "A").1.1
      /\ del.2 = Raised RuntimeError
      /\ del.1.2 !! index_path with_A.1.1 = with_A.1.2 !! index_path with_A.1.1).
Proof.
  split.
  - destruct (save_failure_in_place fresh ∅ (FailWrite 1) 1
                "t0" "A" "a.txt" ["a0"] (rows_of [1]%R) "A"
                reachable_fresh (or_intror eq_refl) ltac:(lia))
      as (Hadd & _).
    destruct (Hadd eq_refl eq_refl) as (Hmem & Hraise & _ & Hfiles).
    split_and!; [exact Hmem | exact Hraise |].
    apply (Hfiles 1%nat). reflexivity.
  - destruct (save_failure_in_place with_A.1.1 with_A.1.2 (FailOpen 0) 0
                "t1" "B" "b.txt" ["b0"; "b1"] (rows_of [-1; -1]%R) "A"
                reachable_with_A (or_introl eq_refl) ltac:(lia))
      as (_ & Hdel & _).
    destruct (Hdel with_A_chunk) as (Hmem & Hraise & _ & Hfiles).
    split_and!; [exact Hmem | exact Hraise |].
    apply (Hfiles 0%nat _ (IndexBlob (index (delete_document with_A.1.1 with_A.1.2
                                              (FailOpen 0) "A").1.1))).
    reflexivity.
Defined.

(** C3, as the specification states it, fails.  The save of [add_chunks]
    is cut short while it writes the chunks file: the error is raised and
    [chunks.json] is left torn on the disk, after [index.faiss] has already
    been replaced.  Under the protocol the specification describes the same
    failure, in the write of the temporary chunks file, leaves no file at
    [chunks.json] torn. *)
Lemma save_failure_tears_chunks_file :
  let add := add_chunks fresh ∅ (FailWrite 1) "t0" "A" "a.txt" ["a0"]
               (rows_of [1]%R) in
  add.2 = Raised OSError
  /\ add.1.2 !! "./vector_store/chunks.json"
     = Some (Torn (ChunksJson (chunks add.1.1)))
  /\ add.1.2 !! "./vector_store/index.faiss"
     = Some (Intact (IndexBlob (index add.1.1)))
  /\ add.1.2 !! "./vector_store/metadata.json" = None
  /\ (run_ops (FailWrite 2) (atomic_save_all_ops add.1.1) ∅).1
       !! "./vector_store/chunks.json" = None.
Proof. split_and!; reflexivity. Qed.

(** C4, as the code has it.  [add_chunks] raises a [ValueError] exactly
    when the number of embeddings differs from the number of chunks or
    their dimension differs from the store's; on every other input it
    returns, unless the save fails and raises its own error ([OSError] or
    [RuntimeError]). *)
Theorem add_chunks_raises_iff s dsk flt now file_id filename texts embeddings :
  reachable s dsk ->
  let r := (add_chunks s dsk flt now file_id filename texts embeddings).2 in
  ((exists msg, r = Raised (ValueError msg))
   <-> shape0 embeddings <> length texts \/ shape1 embeddings <> dimension s)
  /\ (shape0 embeddings = length texts -> shape1 embeddings = dimension s ->
      r = (_save_all (added s now file_id filename texts embeddings) flt dsk).2
      /\ (flt = NoFault -> r = Returned ())
      /\ (r = Returned () \/ r = Raised OSError \/ r = Raised RuntimeError)).
Proof.
  intros Hreach r. subst r.
  destruct (reachable_inv _ _ Hreach) as (Hdim & Hix & _ & _).
  assert (Hdd : d (index s) = dimension s) by (destruct Hix; congruence).
  destruct (decide (shape0 embeddings = length texts /\ shape1 embeddings = dimension s))
    as [[H0 H1]|Hbad].
  - rewrite add_chunks_valid by done. simpl.
    pose proof (run_ops_result flt
                  (_save_all_ops (added s now file_id filename texts embeddings)) dsk)
      as Hres.
    fold (_save_all (added s now file_id filename texts embeddings) flt dsk) in Hres.
    split.
    + split; [|tauto]. intros [msg Hmsg]. destruct Hres as [Hr|[Hr|Hr]]; congruence.
    + intros _ _. split_and!; [done | | done]. intros ->. by rewrite _save_all_NoFault.
  - assert (Hor : shape0 embeddings <> length texts
                  \/ shape1 embeddings <> dimension s).
    { destruct (decide (shape0 embeddings = length texts)),
               (decide (shape1 embeddings = dimension s)); tauto. }
    destruct (add_chunks_invalid s dsk flt now file_id filename texts embeddings Hor)
      as [msg ->]. simpl. split; [|tauto]. split; [done | eauto].
Qed.

Lemma add_chunks_raises_iff_witness :
  (add_chunks fresh ∅ NoFault "t0" "A" "a.txt" ["a0"] (rows_of [1]%R)).2
  = Returned ().
Proof.
  apply (add_chunks_raises_iff fresh ∅ NoFault "t0" "A" "a.txt" ["a0"]
           (rows_of [1]%R) reachable_fresh); reflexivity.
Defined.

(** C4, as the specification states it, fails: two embeddings of the
    store's dimension supplied with one chunk raise a [ValueError]. *)
Lemma add_chunks_count_mismatch :
  shape1 (rows_of [1; 1]%R) = dimension fresh
  /\ add_chunks fresh ∅ NoFault "t0" "A" "a.txt" ["a0"] (rows_of [1; 1]%R)
     = (fresh, ∅,
        Raised (ValueError "Number of embeddings must match number of chunks")).
Proof. split; reflexivity. Qed.

End Persistence.

(** ** The chunker *)

Section ChunkerFacts.

Import Chunker.

Lemma len_append (a b : string) : Py.len (a +:+ b) = Py.len a + Py.len b.
Proof. induction a as [|c a IH]; simpl; [done | by rewrite IH]. Qed.

(** Collapsing the whitespace of a string never makes it longer. *)
Lemma split_from_join_len (cur s : string) :
  Py.len (Py.join " " (Py.split_from cur s)) <= Py.len cur + Py.len s.
Proof.
  revert cur; induction s as [|c s IH]; intros cur; simpl.
  - destruct (decide (cur = EmptyString)); simpl; lia.
  - destruct (Py.isspace c).
    + destruct (decide (cur = EmptyString)) as [->|_].
      * specialize (IH EmptyString). simpl in *. lia.
      * specialize (IH EmptyString). simpl in IH.
        destruct (Py.split_from EmptyString s) as [|w ws] eqn:Hws.
        -- simpl. lia.
        -- change (Py.join " " (cur :: w :: ws))
             with (cur +:+ " " +:+ Py.join " " (w :: ws)).
           rewrite !len_append. simpl Py.len at 2. lia.
    + specialize (IH (cur +:+ String c EmptyString)).
      rewrite len_append in IH. simpl in IH. lia.
Qed.

Lemma collapse_len (s : string) :
  Py.len (Py.join " " (Py.split s)) <= Py.len s.
Proof. apply (split_from_join_len EmptyString s). Qed.

Lemma post_process_filter (chunks : list string) :
  post_process chunks
  = filter (fun c => 50 <= Py.len c)
      ((fun c => Py.join " " (Py.split c)) <$> chunks).
Proof.
  induction chunks as [|c chunks IH]; [done|]. rewrite fmap_cons. simpl.
  destruct (Nat.ltb_spec (Py.len (Py.join " " (Py.split c))) 50).
  - by rewrite filter_cons_False by lia.
  - by rewrite filter_cons_True, IH by lia.
Qed.

Lemma post_process_short (chunks : list string) :
  Forall (fun c => Py.len c < 50) chunks -> post_process chunks = [].
Proof.
  induction 1 as [|c cs Hc _ IH]; [done|]. simpl.
  pose proof (collapse_len c).
  destruct (Nat.ltb_spec (Py.len (Py.join " " (Py.split c))) 50); [done | lia].
Qed.

(** C7, as the code has it.  [chunk_text] returns, for a text that is not
    blank, the whitespace-collapsed chunks of the splitter that have at
    least 50 characters, in order, and nothing else: a shorter chunk is
    dropped even when it is the only one, and a text whose chunks are all
    shorter than 50 characters gives no chunk. *)
Theorem chunk_text_drops_short (split_text : splitter) (text : string) :
  chunk_text split_text text
  = (if Py.truthy text && Py.strip_truthy text
     then filter (fun c => 50 <= Py.len c)
            ((fun c => Py.join " " (Py.split c)) <$> split_text text)
     else [])
  /\ Forall (fun c => 50 <= Py.len c) (chunk_text split_text text)
  /\ (Forall (fun c => Py.len c < 50) (split_text text) ->
      chunk_text split_text text = []).
Proof.
  split_and!.
  - unfold chunk_text. rewrite post_process_filter.
    by destruct (Py.truthy text), (Py.strip_truthy text).
  - unfold chunk_text. rewrite post_process_filter.
    destruct (Py.truthy text), (Py.strip_truthy text); simpl; try done.
    apply Forall_forall. intros c Hc. by apply list_elem_of_filter in Hc as [? _].
  - intros Hshort. unfold chunk_text.
    destruct (negb (Py.truthy text) || negb (Py.strip_truthy text)); [done|].
    by apply post_process_short.
Qed.

(** C7, as the specification states it, fails: the text "hello" is not
    blank, the splitter gives it back as its only chunk, and [chunk_text]
    returns no chunk; so it does for every splitter whose chunks of "hello"
    are shorter than 50 characters. *)
Lemma chunk_text_loses_short_document :
  Py.truthy "hello" = true /\ Py.strip_truthy "hello" = true
  /\ chunk_text whole_text_splitter "hello" = []
  /\ (forall split_text : splitter,
        Forall (fun c => Py.len c < 50) (split_text "hello") ->
        chunk_text split_text "hello" = []).
Proof.
  split_and!; try reflexivity.
  intros split_text Hshort. unfold chunk_text. simpl.
  by apply post_process_short.
Qed.

End ChunkerFacts.

(** ** Conversation memory *)

Section ChatFacts.

Import Chat Scenario.

Lemma length_last_n {A} (n : nat) (l : list A) :
  length (last_n n l) = length l `min` n.
Proof. unfold last_n. rewrite length_drop. lia. Qed.

Lemma last_n_idemp {A} (n : nat) (l : list A) :
  last_n n (last_n n l) = last_n n l.
Proof.
  unfold last_n at 1. rewrite length_last_n.
  replace (length l `min` n - n) with 0 by lia. done.
Qed.

(** No step of the client changes the summary. *)
Lemma step_summary st ev : historySummary (step st ev) = historySummary st.
Proof. by destruct ev. Qed.

Lemma conversation_summary events : historySummary (conversation events) = "".
Proof.
  unfold conversation.
  assert (H : forall st, historySummary (foldl step st events) = historySummary st).
  { induction events as [|ev evs IH]; intros st; simpl; [done|].
    by rewrite IH, step_summary. }
  by rewrite H.
Qed.

Lemma verbatim_turns_prompt q h summary context_chunks :
  verbatim_turns (stream_chat_response q h summary context_chunks) = last_n 10 h.
Proof.
  unfold stream_chat_response, verbatim_turns.
  destruct (Py.truthy summary), h as [|m h], context_chunks as [|c cs];
    simpl; by rewrite ?app_nil_r.
Qed.

Lemma recap_prompt q h summary context_chunks :
  recap (stream_chat_response q h summary context_chunks)
  = if Py.truthy summary then [summary] else [].
Proof. unfold stream_chat_response, recap. by destruct (Py.truthy summary). Qed.

(** The verbatim turns that reach generation are the last ten messages,
    and no recap accompanies them, however long the conversation. *)
Lemma chat_memory events content context_chunks :
  let st := conversation events in
  let req := handleSend st content in
  let prompt := stream_chat_response (query req) (history req)
                  (current_summary req) context_chunks in
  verbatim_turns prompt = last_n 10 (messages st)
  /\ length (verbatim_turns prompt) = length (messages st) `min` 10
  /\ current_summary req = ""
  /\ recap prompt = [].
Proof.
  intros st req prompt. subst prompt req st.
  rewrite verbatim_turns_prompt, recap_prompt. simpl.
  rewrite last_n_idemp, length_last_n, conversation_summary. done.
Qed.

(** C6, evaluated.  After seven exchanges the conversation has fourteen
    messages; the next request carries the last ten verbatim, drops the
    four oldest, and carries an empty summary: generation receives no
    recap, and nothing has summarized the dropped messages.  So it is after
    every conversation: the verbatim turns are the last ten messages and
    the summary is empty. *)
Theorem chat_memory_after_fourteen_messages :
  (let st := conversation seven_exchanges in
   let req := handleSend st "q8" in
   let prompt := stream_chat_response (query req) (history req)
                   (current_summary req) [] in
   length (messages st) = 14
   /\ length (verbatim_turns prompt) = 10
   /\ m_content <$> verbatim_turns prompt
      = ["q3"; "a3"; "q4"; "a4"; "q5"; "a5"; "q6"; "a6"; "q7"; "a7"]
   /\ historySummary st = ""
   /\ current_summary req = ""
   /\ recap prompt = []
   /\ summarize_history (take 4 (messages st)) (historySummary st) = None)
  /\ (forall events content context_chunks,
        let st := conversation events in
        let req := handleSend st content in
        let prompt := stream_chat_response (query req) (history req)
                        (current_summary req) context_chunks in
        length (verbatim_turns prompt) = length (messages st) `min` 10
        /\ current_summary req = ""
        /\ recap prompt = []).
Proof.
  split; [split_and!; reflexivity|].
  intros events content context_chunks.
  destruct (chat_memory events content context_chunks) as (_ & Hlen & Hsum & Hrecap).
  done.
Qed.

End ChatFacts.
(** * Further properties of the code *)

(** ** Status of a document *)

Section Status.

Import Faiss Store Scenario.

Lemma status_lookup s file_id :
  status (get_document_status s file_id) = "not_found"
  <-> metadata s !! file_id = None.
Proof.
  unfold get_document_status. destruct (metadata s !! file_id); simpl; split; done.
Qed.

(** X1.  [get_document_status] after [add_chunks].  On valid arguments the
    document is reported completed with the number of chunks just added and
    the date of this call, whether or not the save fails, and the status of
    every other document is as before; on invalid arguments no status
    changes. *)
Theorem get_document_status_add_chunks
    s dsk flt now file_id filename texts embeddings other :
  reachable s dsk ->
  let s' := (add_chunks s dsk flt now file_id filename texts embeddings).1.1 in
  (shape0 embeddings = length texts -> shape1 embeddings = dimension s ->
   get_document_status s' file_id
   = {| status := "completed"; chunks_count := length texts;
        upload_date := Some now |}
   /\ (other <> file_id ->
       get_document_status s' other = get_document_status s other))
  /\ (shape0 embeddings <> length texts \/ shape1 embeddings <> dimension s ->
      get_document_status s' other = get_document_status s other).
Proof.
  intros Hreach s'. subst s'.
  destruct (reachable_inv _ _ Hreach) as (Hdim & [Hd _] & _ & _).
  split.
  - intros H0 H1. rewrite add_chunks_valid by congruence. cbn [fst snd].
    unfold get_document_status, added, with_index_chunks. cbn [metadata].
    split.
    + by rewrite lookup_insert_eq.
    + intros Hne. by rewrite lookup_insert_ne.
  - intros Hbad.
    destruct (add_chunks_invalid s dsk flt now file_id filename texts embeddings Hbad)
      as [msg ->].
    reflexivity.
Qed.

Lemma get_document_status_add_chunks_witness :
  get_document_status with_A.1.1 "A"
  = {| status := "completed"; chunks_count := 2; upload_date := Some "t0" |}.
Proof.
  pose proof (get_document_status_add_chunks fresh ∅ NoFault "t0" "A" "a.txt"
                ["a0"; "a1"] (rows_of [1; 1]%R) "B" reachable_fresh) as [H _].
  destruct (H eq_refl eq_refl) as [HA _]. exact HA.
Defined.

(** X2.  [get_document_status] after [delete_document].  The document is
    reported not found exactly when it had a chunk or was not recorded
    before: a recorded document without chunks stays completed.  The status
    of every other document is as before. *)
Theorem get_document_status_delete_document s dsk flt file_id other :
  let s' := (delete_document s dsk flt file_id).1.1 in
  (status (get_document_status s' file_id) = "not_found"
   <-> (exists c, c ∈ chunks s /\ c_file_id c = file_id)
       \/ metadata s !! file_id = None)
  /\ (other <> file_id ->
      get_document_status s' other = get_document_status s other).
Proof.
  intros s'. subst s'.
  destruct (decide (Forall (fun c => c_file_id c <> file_id) (chunks s)))
    as [Hno|Hsome].
  - rewrite delete_document_absent
      by (intros c Hc; exact (proj1 (Forall_forall _ _) Hno c Hc)).
    cbn [fst]. split; [|done]. rewrite status_lookup. split; [tauto|].
    intros [(c & Hc & Hf)|Hm]; [|done].
    by destruct (proj1 (Forall_forall _ _) Hno c Hc).
  - apply not_Forall_Exists in Hsome; [|solve_decision].
    apply Exists_exists in Hsome as (c & Hc & Hf).
    assert (Hex : exists c, c ∈ chunks s /\ c_file_id c = file_id).
    { exists c. split; [done|]. by destruct (decide (c_file_id c = file_id)). }
    rewrite delete_document_present by done. cbn [fst].
    split.
    + rewrite status_lookup. unfold deleted, with_index_chunks. cbn [metadata].
      rewrite lookup_delete_eq. tauto.
    + intros Hne. unfold get_document_status, deleted, with_index_chunks.
      cbn [metadata]. by rewrite lookup_delete_ne.
Qed.

Lemma filter_none {A} (P : A -> Prop) `{!forall x, Decision (P x)} (l : list A) :
  Forall (fun x => ~ P x) l -> filter P l = [].
Proof.
  induction 1 as [|x l Hx _ IH]; [done|]. by rewrite filter_cons_False.
Qed.

Lemma new_chunks_file_id start file_id texts :
  Forall (fun c => c_file_id c = file_id) (new_chunks start file_id texts).
Proof.
  apply Forall_lookup. intros i c Hc. unfold new_chunks in Hc.
  rewrite list_lookup_imap in Hc.
  destruct (texts !! i); simpl in Hc; [|done]. by injection Hc as <-.
Qed.

Lemma imap_id {A} (f : nat -> A -> A) (l : list A) :
  (forall i x, f i x = x) -> imap f l = l.
Proof.
  revert f. induction l as [|x l IH]; intros f Hf; [done|]. simpl.
  rewrite Hf. f_equal. apply IH. intros i y. apply Hf.
Qed.

Lemma new_chunks_content start file_id texts :
  c_content <$> new_chunks start file_id texts = texts.
Proof. unfold new_chunks. rewrite fmap_imap. by apply imap_id. Qed.

(** X3.  The chunks of a new document.  After [add_chunks] on valid
    arguments for a document of which the store holds no chunk, the chunks
    the store holds for the document are the texts given, in their order,
    and the number of chunks that [get_document_status] reports is their
    number. *)
Theorem get_document_status_counts_chunks
    s dsk flt now file_id filename texts embeddings :
  reachable s dsk ->
  shape0 embeddings = length texts -> shape1 embeddings = dimension s ->
  (forall c, c ∈ chunks s -> c_file_id c <> file_id) ->
  let s' := (add_chunks s dsk flt now file_id filename texts embeddings).1.1 in
  c_content <$> filter (fun c => c_file_id c = file_id) (chunks s') = texts
  /\ chunks_count (get_document_status s' file_id)
     = length (filter (fun c => c_file_id c = file_id) (chunks s')).
Proof.
  intros Hreach H0 H1 Hnew s'. subst s'.
  destruct (reachable_inv _ _ Hreach) as (Hdim & [Hd _] & _ & _).
  rewrite add_chunks_valid by congruence. cbn [fst snd].
  assert (Hmine : filter (fun c => c_file_id c = file_id)
                    (chunks (added s now file_id filename texts embeddings))
                  = new_chunks (length (chunks s)) file_id texts).
  { unfold added, with_index_chunks. cbn [chunks]. rewrite filter_app.
    rewrite filter_none by (by apply Forall_forall).
    rewrite filter_all_id by apply new_chunks_file_id. done. }
  rewrite Hmine. split; [apply new_chunks_content|].
  unfold get_document_status, added, with_index_chunks. cbn [metadata].
  rewrite lookup_insert_eq. cbn [chunks_count m_num_chunks].
  unfold new_chunks. by rewrite length_imap.
Qed.

Lemma get_document_status_counts_chunks_witness :
  c_content <$> filter (fun c => c_file_id c = "B") (chunks with_AB.1.1)
  = ["b0"; "b1"].
Proof.
  refine (proj1 (get_document_status_counts_chunks with_A.1.1 with_A.1.2 NoFault
                   "t1" "B" "b.txt" ["b0"; "b1"] (rows_of [-1; -1]%R)
                   reachable_with_A eq_refl eq_refl _)).
  intros c Hc.
  repeat (apply elem_of_cons in Hc as [->|Hc]; [discriminate|]).
  by apply elem_of_nil in Hc.
Defined.

End Status.
(** ** Restarting from the disk *)

Section Restart.

Import Faiss Store Scenario.

(** A run of operations that returns has met no failure. *)
Lemma run_ops_Returned flt ops dsk :
  (run_ops flt ops dsk).2 = Returned () ->
  run_ops flt ops dsk = run_ops NoFault ops dsk.
Proof.
  revert flt dsk. induction ops as [|op ops IH]; intros flt dsk; [by destruct flt|].
  destruct flt as [|[|n]|[|n]]; cbn [run_ops snd]; try done; apply IH.
Qed.

Lemma paths_ok_with_index_chunks s ix cs m :
  paths_ok s -> paths_ok (with_index_chunks s ix cs m).
Proof. done. Qed.

(** What a restart finds after a save that ran to the end. *)
Lemma restart_saved s dsk :
  dimension s = 1536 -> paths_ok s ->
  __init__ (_save_all s NoFault dsk).1 = Returned s.
Proof.
  intros Hdim (Hi & Hc & Hm).
  rewrite _save_all_NoFault. cbn [fst]. unfold __init__. rewrite Hi, Hc, Hm.
  rewrite lookup_insert_ne, lookup_insert_ne, lookup_insert_eq by done.
  cbn [read_index]. unfold _load_chunks, _load_metadata.
  rewrite lookup_insert_ne, lookup_insert_eq, lookup_insert_eq by done.
  destruct s; simpl in *. by subst.
Qed.

(** What a restart finds after a save that was cut short in a write. *)
Lemma restart_torn s dsk n :
  paths_ok s -> n < 3 ->
  __init__ (_save_all s (FailWrite n) dsk).1
  = Raised (if decide (n = 0) then RuntimeError else ValueError "JSONDecodeError").
Proof.
  intros (Hi & Hc & Hm) Hn.
  unfold _save_all, _save_all_ops, __init__. rewrite Hi, Hc, Hm.
  destruct n as [|[|[|n]]]; [| | |lia];
    cbn [run_ops apply_op tear_op fst].
  - by rewrite lookup_insert_eq.
  - rewrite lookup_insert_ne, lookup_insert_eq by done. cbn [read_index].
    unfold _load_chunks. by rewrite lookup_insert_eq.
  - rewrite lookup_insert_ne, lookup_insert_ne, lookup_insert_eq by done.
    cbn [read_index]. unfold _load_chunks, _load_metadata.
    by rewrite lookup_insert_ne, lookup_insert_eq, lookup_insert_eq by done.
Qed.

(** What a restart finds after a save that failed on opening its second or
    third file: the files written before, and the old ones for the rest. *)
Lemma restart_partial s0 s dsk n :
  paths_ok s0 -> paths_ok s -> dimension s = 1536 ->
  is_Some (dsk !! index_path s0) -> __init__ dsk = Returned s0 ->
  n = 1 \/ n = 2 ->
  __init__ (_save_all s (FailOpen n) dsk).1
  = Returned (with_index_chunks s (index s)
                (if decide (n = 1) then chunks s0 else chunks s) (metadata s0)).
Proof.
  intros (Hi0 & Hc0 & Hm0) (Hi & Hc & Hm) Hdim [f Hf] Hinit Hn.
  unfold __init__ in Hinit. rewrite <- Hi0, Hf in Hinit.
  destruct (read_index f) as [ix|]; [|done].
  destruct (_load_chunks _ dsk) as [cs|] eqn:Hcs; [|done].
  destruct (_load_metadata _ dsk) as [m|] eqn:Hms; [|done].
  injection Hinit as <-. cbn [chunks metadata].
  unfold _save_all, _save_all_ops, __init__. rewrite Hi, Hc, Hm.
  destruct Hn as [-> | ->]; cbn [run_ops apply_op tear_op fst].
  - rewrite lookup_insert_eq. cbn [read_index].
    assert (Hcs' : _load_chunks (path_join VECTOR_DB_PATH "chunks.json")
                     (<[path_join VECTOR_DB_PATH "index.faiss"
                        := Intact (IndexBlob (index s))]> dsk) = Returned cs).
    { unfold _load_chunks in *. by rewrite lookup_insert_ne. }
    assert (Hms' : _load_metadata (path_join VECTOR_DB_PATH "metadata.json")
                     (<[path_join VECTOR_DB_PATH "index.faiss"
                        := Intact (IndexBlob (index s))]> dsk) = Returned m).
    { unfold _load_metadata in *. by rewrite lookup_insert_ne. }
    rewrite Hcs', Hms'. unfold with_index_chunks.
    by rewrite Hdim, Hi, Hc, Hm.
  - rewrite lookup_insert_ne, lookup_insert_eq by done. cbn [read_index].
    unfold _load_chunks at 1. rewrite lookup_insert_eq.
    assert (Hms' : _load_metadata (path_join VECTOR_DB_PATH "metadata.json")
                     (<[path_join VECTOR_DB_PATH "chunks.json"
                        := Intact (ChunksJson (chunks s))]>
                        (<[path_join VECTOR_DB_PATH "index.faiss"
                           := Intact (IndexBlob (index s))]> dsk)) = Returned m).
    { unfold _load_metadata in *. by rewrite !lookup_insert_ne. }
    rewrite Hms'. unfold with_index_chunks.
    by rewrite Hdim, Hi, Hc, Hm.
Qed.

(** X4.  Persistence round trip.  When [add_chunks] returns, a restart from
    the disk it leaves rebuilds the store it leaves in memory: index, chunks
    and metadata; so it is when [delete_document] returns for a document
    that has chunks. *)
Theorem restart_after_success
    s dsk flt now file_id filename texts embeddings doc :
  reachable s dsk ->
  let add := add_chunks s dsk flt now file_id filename texts embeddings in
  let del := delete_document s dsk flt doc in
  (add.2 = Returned () -> __init__ add.1.2 = Returned add.1.1)
  /\ ((exists c, c ∈ chunks s /\ c_file_id c = doc) ->
      del.2 = Returned () -> __init__ del.1.2 = Returned del.1.1).
Proof.
  intros Hreach add del. subst add del.
  destruct (reachable_inv _ _ Hreach) as (Hdim & [Hd _] & _ & Hp).
  split.
  - destruct (decide (shape0 embeddings = length texts
                      /\ shape1 embeddings = dimension s)) as [[H0 H1]|Hbad].
    + rewrite add_chunks_valid by congruence. cbn [fst snd]. intros Hr.
      unfold _save_all in *. rewrite (run_ops_Returned _ _ _ Hr).
      by apply restart_saved.
    + destruct (add_chunks_invalid s dsk flt now file_id filename texts embeddings)
        as [msg ->]; [|done].
      destruct (decide (shape0 embeddings = length texts)),
               (decide (shape1 embeddings = dimension s)); tauto.
  - intros Hex. rewrite delete_document_present by done. cbn [fst snd].
    intros Hr. unfold _save_all in *. rewrite (run_ops_Returned _ _ _ Hr).
    by apply restart_saved.
Qed.

Lemma restart_after_success_witness :
  __init__ with_A.1.2 = Returned with_A.1.1.
Proof.
  exact (proj1 (restart_after_success fresh ∅ NoFault "t0" "A" "a.txt"
                  ["a0"; "a1"] (rows_of [1; 1]%R) "A" reachable_fresh)
           eq_refl).
Defined.

(** X5.  A save cut short in the middle of a write leaves a disk from which
    the store cannot start: after such a failure of [add_chunks] on valid
    arguments, or of [delete_document] for a document that has chunks,
    [VectorStore()] raises, a [RuntimeError] of [faiss.read_index] when the
    index file is the torn one, the error of [json.load] otherwise. *)
Theorem restart_after_torn_save
    s dsk n now file_id filename texts embeddings doc :
  reachable s dsk -> n < 3 ->
  let e := if decide (n = 0) then RuntimeError else ValueError "JSONDecodeError" in
  (shape0 embeddings = length texts -> shape1 embeddings = dimension s ->
   __init__ (add_chunks s dsk (FailWrite n) now file_id filename texts embeddings).1.2
   = Raised e)
  /\ ((exists c, c ∈ chunks s /\ c_file_id c = doc) ->
      __init__ (delete_document s dsk (FailWrite n) doc).1.2 = Raised e).
Proof.
  intros Hreach Hn e. subst e.
  destruct (reachable_inv _ _ Hreach) as (Hdim & [Hd _] & _ & Hp).
  split.
  - intros H0 H1. rewrite add_chunks_valid by congruence. cbn [fst snd].
    by apply restart_torn.
  - intros Hex. rewrite delete_document_present by done. cbn [fst snd].
    by apply restart_torn.
Qed.

Lemma restart_after_torn_save_witness :
  __init__ (add_chunks fresh ∅ (FailWrite 1) "t0" "A" "a.txt" ["a0"; "a1"]
              (rows_of [1; 1]%R)).1.2
  = Raised (ValueError "JSONDecodeError").
Proof.
  exact (proj1 (restart_after_torn_save fresh ∅ 1 "t0" "A" "a.txt"
                  ["a0"; "a1"] (rows_of [1; 1]%R) "A" reachable_fresh
                  ltac:(lia))
           eq_refl eq_refl).
Defined.

(** X6.  A save that fails between two files leaves them out of step.  The
    disk holds the store [s]; [add_chunks] on valid arguments fails on
    opening the chunks file ([n = 1]) or the metadata file ([n = 2]).  A
    restart then succeeds and loads the new index, holding the vectors just
    added; with the old chunks in the first case, so that the index has more
    vectors than there are chunks; with the new chunks and the old metadata
    in the second, so that the status of the document is what it was before
    the call. *)
Theorem restart_after_partial_save
    s dsk n now file_id filename texts embeddings :
  reachable s dsk ->
  is_Some (dsk !! index_path s) -> __init__ dsk = Returned s ->
  shape0 embeddings = length texts -> shape1 embeddings = dimension s ->
  n = 1 \/ n = 2 ->
  let add := add_chunks s dsk (FailOpen n) now file_id filename texts embeddings in
  exists s',
    __init__ add.1.2 = Returned s'
    /\ xb (index s') = xb (index s) ++ (fvec_renorm_L2 <$> rows embeddings)
    /\ chunks s' = (if decide (n = 1) then chunks s else chunks add.1.1)
    /\ ntotal (index s') = ntotal (index s) + length texts
    /\ get_document_status s' file_id = get_document_status s file_id.
Proof.
  intros Hreach Hf Hinit H0 H1 Hn add. subst add.
  destruct (reachable_inv _ _ Hreach) as (Hdim & [Hd _] & _ & Hp).
  rewrite add_chunks_valid by congruence. cbn [fst snd].
  eexists. split.
  - apply (restart_partial s); try done.
  - unfold get_document_status, added, with_index_chunks.
    cbn [index chunks metadata xb]. split_and!; try done.
    unfold ntotal. cbn [xb]. rewrite length_app, length_fmap.
    unfold shape0 in H0. lia.
Qed.

Lemma restart_after_partial_save_witness :
  exists s',
    __init__ (add_chunks with_A.1.1 with_A.1.2 (FailOpen 1) "t1" "B" "b.txt"
                ["b0"; "b1"] (rows_of [-1; -1]%R)).1.2 = Returned s'
    /\ ntotal (index s') = 4 /\ length (chunks s') = 2.
Proof.
  destruct (restart_after_partial_save with_A.1.1 with_A.1.2 1 "t1" "B" "b.txt"
              ["b0"; "b1"] (rows_of [-1; -1]%R) reachable_with_A
              ltac:(by eexists) eq_refl eq_refl eq_refl ltac:(by left))
    as (s' & Hs' & Hxb & Hcs & _).
  exists s'. split; [exact Hs'|]. split.
  - unfold ntotal. rewrite Hxb. reflexivity.
  - rewrite Hcs. reflexivity.
Defined.

End Restart.
(** ** What a search returns, and when it raises *)

Section SearchMore.

Import Faiss Store Scenario.

#[local] Existing Instance hit_le_total.
#[local] Existing Instance hit_le_trans.

(** The loop returns when every label it meets is [-1] or the position of
    a chunk. *)
Lemma search_loop_returns cs file_ids top_k hits acc :
  Forall (fun h => h.2 = (-1)%Z \/ (0 <= h.2 < Z.of_nat (length cs))%Z) hits ->
  exists rs, search_loop cs file_ids top_k hits acc = Returned rs.
Proof.
  revert acc. induction hits as [|[dist idx] hits IH]; intros acc Hok;
    [by eexists|].
  apply Forall_cons in Hok as [Hh Hok]. cbn [search_loop snd] in *.
  destruct (decide (idx = (-1)%Z)) as [|Hreal]; [by apply IH|].
  destruct Hh as [|Hrange]; [done|].
  rewrite py_getitem_nonneg by lia.
  destruct (lookup_lt_is_Some_2 cs (Z.to_nat idx) ltac:(lia)) as [chunk ->].
  destruct (filtering file_ids && not_in (c_file_id chunk) file_ids);
    [by apply IH|].
  destruct (decide _); [by eexists | by apply IH].
Qed.

(** The loop stops at [top_k] results and appends at most one per hit. *)
Lemma search_loop_length cs file_ids top_k hits acc rs :
  (Z.of_nat (length acc) < top_k)%Z ->
  search_loop cs file_ids top_k hits acc = Returned rs ->
  (Z.of_nat (length rs) <= top_k)%Z
  /\ length rs <= length acc + length hits.
Proof.
  revert acc. induction hits as [|[dist idx] hits IH]; intros acc Hacc Hrs.
  - injection Hrs as <-. simpl. lia.
  - cbn [search_loop] in Hrs. cbn [length].
    destruct (decide (idx = (-1)%Z)) as [|Hreal].
    { destruct (IH _ Hacc Hrs). lia. }
    destruct (py_getitem cs idx) as [chunk|]; [|done].
    destruct (filtering file_ids && not_in (c_file_id chunk) file_ids).
    { destruct (IH _ Hacc Hrs). lia. }
    destruct (decide _) as [Hfull|Hmore].
    + injection Hrs as <-. rewrite length_app in *. simpl in *. lia.
    + apply IH in Hrs; [|lia]. rewrite length_app in Hrs. simpl in Hrs. lia.
Qed.

(** The loop keeps the order of the hits. *)
Lemma search_loop_ranked cs file_ids top_k hits acc rs :
  StronglySorted hit_le (filter (fun h => h.2 <> (-1)%Z) hits) ->
  ranked acc ->
  (forall a h, a ∈ acc -> h ∈ hits -> h.2 <> (-1)%Z ->
               (1 - h.1 / 2 <= r_score a)%R) ->
  search_loop cs file_ids top_k hits acc = Returned rs ->
  ranked rs.
Proof.
  revert acc. induction hits as [|[dist idx] hits IH]; intros acc Hs Hacc Hle Hrs.
  - by injection Hrs as <-.
  - cbn [search_loop] in Hrs.
    assert (Hle' : forall a h, a ∈ acc -> h ∈ hits -> h.2 <> (-1)%Z ->
                               (1 - h.1 / 2 <= r_score a)%R).
    { intros a h Ha Hh. apply Hle; [done|]. by apply list_elem_of_further. }
    destruct (decide (idx = (-1)%Z)) as [->|Hreal].
    { rewrite filter_cons_False in Hs by (simpl; tauto). by apply (IH acc). }
    rewrite filter_cons_True in Hs by done.
    apply StronglySorted_inv in Hs as [Hs Hfirst].
    destruct (py_getitem cs idx) as [chunk|]; [|done].
    destruct (filtering file_ids && not_in (c_file_id chunk) file_ids);
      [by apply (IH acc)|].
    assert (Hacc' : ranked (acc ++ [hit_result chunk dist])).
    { apply StronglySorted_app_2; [|done|repeat constructor].
      intros a x Ha ->%list_elem_of_singleton. cbn [hit_result r_score].
      apply (Hle a (dist, idx)); [done|apply list_elem_of_here|done]. }
    destruct (decide _); [by injection Hrs as <-|].
    apply (IH (acc ++ [hit_result chunk dist])); [done|done| |done].
    intros a h [Ha| ->%list_elem_of_singleton]%elem_of_app Hh Hhreal;
      [by apply Hle'|].
    cbn [hit_result r_score].
    assert (Hd : hit_le (dist, idx) h).
    { eapply Forall_forall in Hfirst; [done|]. by apply list_elem_of_filter. }
    unfold hit_le in Hd. simpl in Hd. lra.
Qed.

(** The loop raises [IndexError] when a label beyond the chunks is among
    the hits and [top_k] results cannot be reached before it. *)
Lemma search_loop_index_error cs file_ids top_k hits acc :
  Forall (fun h => h.2 = (-1)%Z \/ (0 <= h.2)%Z) hits ->
  Exists (fun h => h.2 <> (-1)%Z /\ (Z.of_nat (length cs) <= h.2)%Z) hits ->
  (Z.of_nat (length acc + length hits) <= top_k)%Z ->
  search_loop cs file_ids top_k hits acc = Raised IndexError.
Proof.
  revert acc. induction hits as [|[dist idx] hits IH]; intros acc Hok Hbad Hk.
  - by apply Exists_nil in Hbad.
  - apply Forall_cons in Hok as [Hh Hok]. cbn [search_loop snd length] in *.
    destruct (decide (idx = (-1)%Z)) as [->|Hreal].
    { apply IH; [done| |lia]. apply Exists_cons in Hbad as [[? _]|]; done. }
    destruct Hh as [|Hpos]; [done|]. rewrite py_getitem_nonneg by done.
    destruct (cs !! Z.to_nat idx) as [chunk|] eqn:Hc; [|done].
    apply lookup_lt_Some in Hc.
    apply Exists_cons in Hbad as [[_ Hfar]|Hbad]; [simpl in Hfar; lia|].
    assert (0 < length hits) by (destruct hits; [by apply Exists_nil in Hbad|simpl; lia]).
    destruct (filtering file_ids && not_in (c_file_id chunk) file_ids);
      [apply IH; [done|done|lia]|].
    rewrite decide_False by (rewrite length_app; simpl; lia).
    apply IH; [done|done|]. rewrite length_app. simpl. lia.
Qed.

Lemma ann_sound_in_range hnsw xs q k :
  ann_sound hnsw ->
  Forall (fun h => h.2 = (-1)%Z \/ (0 <= h.2 < Z.of_nat (length xs))%Z)
    (hnsw xs q k).
Proof.
  intros Hsound. destruct (Hsound xs q k) as [_ Hok].
  eapply Forall_impl; [exact Hok|]. intros h [Hm|(v & Hpos & Hv & _)]; [by left|].
  right. apply lookup_lt_Some in Hv. lia.
Qed.

(** The exact traversal reports its hits nearest first. *)
Lemma knn_exact_sorted : ann_sorted knn_exact.
Proof.
  intros xs q k. unfold knn_exact. rewrite filter_app.
  assert (Hpad : forall n, filter (fun h : R * Z => h.2 <> (-1)%Z)
                             (replicate n (0%R, (-1)%Z)) = []).
  { induction n as [|n IH]; [done|]. simpl.
    by rewrite filter_cons_False by (simpl; tauto). }
  rewrite Hpad, app_nil_r, filter_all_id.
  - pose proof (StronglySorted_merge_sort hit_le (labelled xs q)) as Hsorted.
    rewrite <- (take_drop k (merge_sort hit_le (labelled xs q))) in Hsorted.
    by apply StronglySorted_app_1_l in Hsorted.
  - apply Forall_forall. intros h Hh.
    apply elem_of_nearest in Hh as (i & v & _ & ->). simpl. lia.
Qed.

(** X7.  When [search] returns and when it raises.  In a store with at least
    as many chunks as vectors, [search] returns a list exactly when the
    index is empty or [top_k] is positive and the query has the dimension of
    the index; on every other call it raises the [AssertionError] of
    [index.search]. *)
Theorem search_returns_iff hnsw s q top_k file_ids :
  ann_sound hnsw -> ntotal (index s) <= length (chunks s) ->
  ((exists rs, search hnsw s q top_k file_ids = Returned rs)
   <-> ntotal (index s) = 0 \/ ((0 < top_k)%Z /\ length q = d (index s)))
  /\ (search hnsw s q top_k file_ids = Raised AssertionError
      <-> ntotal (index s) <> 0
          /\ ((top_k <= 0)%Z \/ length q <> d (index s))).
Proof.
  intros Hsound Hlen.
  destruct (decide (ntotal (index s) = 0)) as [H0|Hn0].
  { rewrite search_no_vectors by done. split; split; try tauto; try done.
    intros _. by eexists. }
  rewrite search_nonempty by done. unfold index_search.
  rewrite fvec_renorm_L2_length.
  destruct (decide (length q = d (index s))) as [Hq|Hq].
  - destruct (Z.ltb_spec 0 (Z.min (if filtering file_ids then top_k * 10 else top_k)
                                  (Z.of_nat (ntotal (index s))))) as [Hk|Hk].
    + assert (0 < top_k)%Z by (destruct (filtering file_ids); lia).
      destruct (search_loop_returns (chunks s) file_ids top_k
                  (hnsw (xb (index s)) (fvec_renorm_L2 q)
                     (Z.to_nat (Z.min (if filtering file_ids then top_k * 10 else top_k)
                                      (Z.of_nat (ntotal (index s))))))
                  []) as [rs Hrs].
      { eapply Forall_impl; [by apply ann_sound_in_range|].
        intros h [?|?]; [by left|right]. unfold ntotal in Hlen. lia. }
      rewrite Hrs. split; split; try tauto; try done; try lia.
      intros _. by eexists.
    + assert (top_k <= 0)%Z by (destruct (filtering file_ids); lia).
      split; split; try tauto; try lia. by intros [rs ?].
  - split; split; try tauto. by intros [rs ?].
Qed.

Lemma search_returns_iff_witness :
  exists rs, search knn_exact with_AB.1.1 (row 1) 3 (Some ["A"]) = Returned rs.
Proof.
  apply (proj1 (search_returns_iff knn_exact with_AB.1.1 (row 1) 3 (Some ["A"])
                  knn_exact_sound ltac:(vm_compute; lia))).
  right. split; [lia|reflexivity].
Defined.

(** X8.  The number of results.  [search] never returns more than [top_k]
    results, nor more results than the index has vectors. *)
Theorem search_length_le hnsw s q top_k file_ids rs :
  ann_sound hnsw ->
  search hnsw s q top_k file_ids = Returned rs ->
  (Z.of_nat (length rs) <= Z.max 0 top_k)%Z /\ length rs <= ntotal (index s).
Proof.
  intros Hsound Hrs.
  destruct (decide (ntotal (index s) = 0)) as [H0|Hn0].
  { rewrite search_no_vectors in Hrs by done. injection Hrs as <-. simpl. lia. }
  apply search_Returned in Hrs as (_ & Hk & Hrs); [|done].
  destruct (Hsound (xb (index s)) (fvec_renorm_L2 q)
              (Z.to_nat (Z.min (if filtering file_ids then top_k * 10 else top_k)
                               (Z.of_nat (ntotal (index s)))))) as [Hhits _].
  assert (0 < top_k)%Z by (destruct (filtering file_ids); lia).
  apply search_loop_length in Hrs as [Hle Hle']; [|simpl; lia].
  rewrite Hhits in Hle'. simpl in Hle'. lia.
Qed.

Lemma search_length_le_witness :
  exists rs,
    search knn_exact with_opposite.1.1 (row 1) 1 None = Returned rs
    /\ length rs <= 1.
Proof.
  eexists. split; [apply search_with_opposite|].
  exact (proj2 (search_length_le knn_exact with_opposite.1.1 (row 1) 1 None _
                  knn_exact_sound search_with_opposite)).
Defined.

(** X9.  The order of the results.  When the traversal reports its hits
    nearest first, as the exact traversal does, the results of [search] are
    ranked: no result has a better score than one before it. *)
Theorem search_ranked hnsw s q top_k file_ids rs :
  ann_sorted hnsw ->
  search hnsw s q top_k file_ids = Returned rs ->
  ranked rs.
Proof.
  intros Hsorted Hrs.
  destruct (decide (ntotal (index s) = 0)) as [H0|Hn0].
  { rewrite search_no_vectors in Hrs by done. injection Hrs as <-. constructor. }
  apply search_Returned in Hrs as (_ & _ & Hrs); [|done].
  eapply search_loop_ranked; [apply Hsorted|constructor| |exact Hrs].
  intros a h Ha. by apply elem_of_nil in Ha.
Qed.

Lemma search_ranked_witness :
  search knn_exact with_near_far.1.1 (row 1) 2 None
  = Returned [ {| r_content := "a0"; r_score := 1; r_file_id := "A";
                  r_chunk_index := 0 |};
               {| r_content := "a1"; r_score := -1; r_file_id := "A";
                  r_chunk_index := 1 |} ]
  /\ ranked [ {| r_content := "a0"; r_score := 1; r_file_id := "A";
                 r_chunk_index := 0 |};
              {| r_content := "a1"; r_score := -1; r_file_id := "A";
                 r_chunk_index := 1 |} ].
Proof.
  split; [apply search_with_near_far|].
  exact (search_ranked knn_exact with_near_far.1.1 (row 1) 2 None _
           knn_exact_sorted search_with_near_far).
Defined.

(** X10.  A store with more vectors than chunks.  When the index holds more
    vectors than the store has chunks, a search with [top_k] at least the
    number of vectors, under an exact traversal, raises [IndexError],
    whatever the query and the filter: the traversal reports every label,
    and the label beyond the chunks is looked up before [top_k] results are
    collected. *)
Theorem search_exhaustive_index_error hnsw s q top_k file_ids :
  ann_sound hnsw -> ann_exact hnsw ->
  length (chunks s) < ntotal (index s) -> length q = d (index s) ->
  (Z.of_nat (ntotal (index s)) <= top_k)%Z ->
  search hnsw s q top_k file_ids = Raised IndexError.
Proof.
  intros Hsound Hexact Hlen Hq Hk.
  rewrite search_nonempty by lia. unfold index_search.
  rewrite fvec_renorm_L2_length, decide_True by done.
  assert (Hkk : Z.min (if filtering file_ids then top_k * 10 else top_k)
                      (Z.of_nat (ntotal (index s)))
                = Z.of_nat (ntotal (index s)))
    by (destruct (filtering file_ids); lia).
  rewrite Hkk, Nat2Z.id.
  destruct (Z.ltb_spec 0 (Z.of_nat (ntotal (index s)))) as [_|]; [|lia].
  set (hits := hnsw (xb (index s)) (fvec_renorm_L2 q) (ntotal (index s))).
  destruct (Hsound (xb (index s)) (fvec_renorm_L2 q) (ntotal (index s)))
    as [Hhits _].
  pose proof (ann_sound_in_range hnsw (xb (index s)) (fvec_renorm_L2 q)
                (ntotal (index s)) Hsound) as Hrange.
  destruct (Hexact (xb (index s)) (fvec_renorm_L2 q) (ntotal (index s)))
    as (Hnd & Hcount & _).
  fold hits in Hhits, Hrange, Hnd, Hcount.
  apply search_loop_index_error.
  - eapply Forall_impl; [exact Hrange|]. intros h [?|?]; [by left|right; lia].
  - destruct (Forall_Exists_dec
                (fun h : R * Z => h.2 = (-1)%Z \/ (h.2 < Z.of_nat (length (chunks s)))%Z)
                (fun h : R * Z => h.2 <> (-1)%Z /\ (Z.of_nat (length (chunks s)) <= h.2)%Z)
                (fun h => match decide (h.2 = (-1)%Z) with
                          | left e => left (or_introl e)
                          | right n =>
                              match Z_lt_le_dec h.2 (Z.of_nat (length (chunks s))) with
                              | left l => left (or_intror l)
                              | right g => right (conj n g)
                              end
                          end) hits) as [Hall|Hex]; [|done].
    exfalso.
    assert (Hsub : real_labels hits ⊆+ Z.of_nat <$> seq 0 (length (chunks s))).
    { apply NoDup_submseteq; [done|]. intros l Hl.
      apply list_elem_of_filter in Hl as [Hreal Hl].
      apply list_elem_of_fmap in Hl as (h & -> & Hh).
      pose proof (proj1 (Forall_forall _ _) Hall h Hh) as Hsmall.
      pose proof (proj1 (Forall_forall _ _) Hrange h Hh) as Hpos.
      cbv beta in Hsmall, Hpos.
      apply list_elem_of_fmap. exists (Z.to_nat h.2). split; [lia|].
      apply elem_of_seq. lia. }
    apply submseteq_length in Hsub.
    rewrite length_fmap, length_seq, Hcount in Hsub. unfold ntotal in *. lia.
  - simpl. rewrite Hhits. lia.
Qed.

Lemma search_exhaustive_index_error_witness :
  exists s,
    __init__ (add_chunks fresh ∅ (FailOpen 1) "t0" "A" "a.txt" ["a0"]
                (rows_of [1]%R)).1.2 = Returned s
    /\ search knn_exact s (row 1) 1 None = Raised IndexError.
Proof.
  eexists. split; [reflexivity|].
  apply search_exhaustive_index_error;
    [apply knn_exact_sound | apply knn_exact_exact | | apply row_length | ].
  - change (0 < 1). lia.
  - change (1 <= 1)%Z. lia.
Defined.

(** X11.  Labels and chunks after [add_chunks].  In a store with as many
    chunks as vectors, [add_chunks] on valid arguments puts the [i]-th new
    vector, normalized, at the label that is the position and the id of the
    [i]-th new chunk, and leaves the vectors and chunks already stored where
    they were. *)
Theorem add_chunks_alignment
    s dsk flt now file_id filename texts embeddings i text :
  reachable s dsk -> length (chunks s) = ntotal (index s) ->
  shape0 embeddings = length texts -> shape1 embeddings = dimension s ->
  texts !! i = Some text ->
  let s' := (add_chunks s dsk flt now file_id filename texts embeddings).1.1 in
  let label := ntotal (index s) + i in
  (exists row, rows embeddings !! i = Some row
               /\ xb (index s') !! label = Some (fvec_renorm_L2 row))
  /\ chunks s' !! label
     = Some {| c_id := label; c_file_id := file_id; c_content := text;
               c_chunk_index := i; c_tokens := token_estimate text |}
  /\ (forall j, j < ntotal (index s) ->
        xb (index s') !! j = xb (index s) !! j
        /\ chunks s' !! j = chunks s !! j).
Proof.
  intros Hreach Hal H0 H1 Hi s' label. subst s' label.
  destruct (reachable_inv _ _ Hreach) as (Hdim & [Hd _] & _ & _).
  rewrite add_chunks_valid by congruence. cbn [fst snd].
  unfold added, with_index_chunks, ntotal in *. cbn [index chunks xb].
  split_and!.
  - destruct (lookup_lt_is_Some_2 (rows embeddings) i) as [row Hrow].
    { apply lookup_lt_Some in Hi. unfold shape0 in H0. lia. }
    exists row. split; [done|].
    rewrite lookup_app_r by lia.
    replace (length (xb (index s)) + i - length (xb (index s))) with i by lia.
    by rewrite list_lookup_fmap, Hrow.
  - rewrite <- Hal. rewrite lookup_app_r by lia.
    replace (length (chunks s) + i - length (chunks s)) with i by lia.
    unfold new_chunks. by rewrite list_lookup_imap, Hi.
  - intros j Hj. split; rewrite lookup_app_l; (done || lia).
Qed.

Lemma add_chunks_alignment_witness :
  chunks with_AB.1.1 !! 3
  = Some {| c_id := 3; c_file_id := "B"; c_content := "b1";
            c_chunk_index := 1; c_tokens := 1 |}.
Proof.
  exact (proj1 (proj2 (add_chunks_alignment with_A.1.1 with_A.1.2 NoFault "t1"
                         "B" "b.txt" ["b0"; "b1"] (rows_of [-1; -1]%R) 1 "b1"
                         reachable_with_A eq_refl eq_refl eq_refl eq_refl))).
Defined.

End SearchMore.
(** ** Finding what was stored *)

Section SelfRetrieval.

Import Faiss Store Scenario.
Local Open Scope R_scope.

Lemma fvec_L2sqr_self (x : vec) : fvec_L2sqr x x = 0.
Proof. induction x as [|a x IH]; simpl; [done|]. rewrite IH. lra. Qed.

Lemma fvec_L2sqr_zero_eq (x y : vec) :
  length x = length y -> fvec_L2sqr x y = 0 -> x = y.
Proof.
  revert y. induction x as [|a x IH]; intros [|b y] Hlen H0; try done.
  simpl in *. pose proof (fvec_L2sqr_nonneg x y) as Hxy.
  pose proof (Rle_0_sqr (a - b)) as Hsq. unfold Rsqr in Hsq.
  assert (Hab : (a - b) * (a - b) = 0) by lra.
  assert (Hxy0 : fvec_L2sqr x y = 0) by lra.
  apply Rmult_integral in Hab.
  f_equal; [lra | apply IH; [lia | done]].
Qed.

(** X12.  Searching for a stored chunk by its own embedding.  After
    [add_chunks] on valid arguments, in a store with as many chunks as
    vectors, a search with [top_k = 1] and no filter for the embedding of a
    new chunk, when it is not the zero vector, returns under an exact
    traversal one result of score 1, taken from a chunk whose stored vector
    is the normalized query. *)
Theorem search_finds_stored_vector
    hnsw s dsk flt now file_id filename texts embeddings i row :
  ann_sound hnsw -> ann_exact hnsw ->
  reachable s dsk -> length (chunks s) = ntotal (index s) ->
  shape0 embeddings = length texts -> shape1 embeddings = dimension s ->
  ndarray_wf embeddings ->
  rows embeddings !! i = Some row -> 0 < fvec_norm_L2sqr row ->
  let s' := (add_chunks s dsk flt now file_id filename texts embeddings).1.1 in
  exists label chunk,
    search hnsw s' row 1 None = Returned [hit_result chunk 0]
    /\ r_score (hit_result chunk 0) = 1
    /\ chunks s' !! label = Some chunk
    /\ xb (index s') !! label = Some (fvec_renorm_L2 row).
Proof.
  intros Hsound Hexact Hreach Hal H0 H1 Hwf Hrow Hnz s'. subst s'.
  destruct (reachable_inv _ _ Hreach) as (Hdim & Hix & _ & _).
  assert (Hd : d (index s) = dimension s) by (destruct Hix; congruence).
  rewrite add_chunks_valid by done. cbn [fst snd].
  set (s' := added s now file_id filename texts embeddings).
  set (q := fvec_renorm_L2 row).
  assert (Hix' : index_ok (dimension s) (index s')).
  { apply added_index_ok; [by rewrite Hdim | done | done]. }
  assert (Hlen' : length (chunks s') = length (xb (index s'))).
  { unfold s', added, with_index_chunks, new_chunks, ntotal, shape0 in *.
    cbn [chunks index xb].
    rewrite !length_app, length_imap, length_fmap. lia. }
  assert (Hmine : xb (index s') !! (ntotal (index s) + i)%nat = Some q).
  { unfold s', added, with_index_chunks, ntotal. cbn [index xb].
    rewrite lookup_app_r by lia.
    replace (length (xb (index s)) + i - length (xb (index s)))%nat with i by lia.
    by rewrite list_lookup_fmap, Hrow. }
  assert (Hqlen : length q = dimension s).
  { unfold q. rewrite fvec_renorm_L2_length.
    rewrite <- H1. exact (proj1 (Forall_forall _ _) Hwf row
                            (list_elem_of_lookup_2 _ _ _ Hrow)). }
  assert (Hnt : ntotal (index s') <> 0%nat).
  { unfold ntotal. apply lookup_lt_Some in Hmine. lia. }
  rewrite search_nonempty by done. fold q. unfold index_search.
  rewrite decide_True by (rewrite Hqlen; by destruct Hix').
  assert (Hk : Z.min 1 (Z.of_nat (ntotal (index s'))) = 1%Z) by lia.
  cbn [filtering]. rewrite Hk. change (0 <? 1)%Z with true. cbv iota.
  change (Z.to_nat 1) with 1%nat.
  destruct (Hsound (xb (index s')) q 1%nat) as [Hhits Hok].
  destruct (Hexact (xb (index s')) q 1%nat) as (_ & Hcount & Hbest).
  destruct (hnsw (xb (index s')) q 1%nat) as [|[dist idx] [|? ?]] eqn:Hh;
    try done.
  assert (Hreal : idx <> (-1)%Z).
  { intros ->. unfold real_labels in Hcount.
    rewrite fmap_cons, fmap_nil in Hcount. cbn [snd] in Hcount.
    rewrite filter_cons_False, filter_nil in Hcount by tauto.
    unfold ntotal in Hnt. cbn [length] in Hcount. lia. }
  apply Forall_cons in Hok as [[Hm|(v & Hpos & Hv & Hdist)] _]; [done|].
  cbn [fst snd] in *.
  assert (Hvlen : length v = dimension s).
  { destruct Hix' as [_ Hall].
    destruct (proj1 (Forall_forall _ _) Hall v (list_elem_of_lookup_2 _ _ _ Hv))
      as (e & He & ->).
    by rewrite fvec_renorm_L2_length. }
  assert (Hzero : dist = 0).
  { destruct (decide (idx = Z.of_nat (ntotal (index s) + i))) as [->|Hother].
    - rewrite Nat2Z.id, Hmine in Hv. injection Hv as <-.
      by rewrite Hdist, fvec_L2sqr_self.
    - pose proof (Hbest (dist, idx) (ntotal (index s) + i)%nat q) as Hb.
      cbn [fst snd] in Hb.
      assert (dist <= fvec_L2sqr q q).
      { apply Hb; [apply list_elem_of_here | done | done |].
        simpl. intros Hin%list_elem_of_singleton. congruence. }
      rewrite fvec_L2sqr_self in *.
      pose proof (fvec_L2sqr_nonneg q v). lra. }
  assert (Hvq : v = q).
  { symmetry. apply fvec_L2sqr_zero_eq; [congruence | by rewrite <- Hdist]. }
  clear Hdist. subst dist v.
  destruct (lookup_lt_is_Some_2 (chunks s') (Z.to_nat idx)) as [chunk Hchunk].
  { rewrite Hlen'. by apply lookup_lt_Some in Hv. }
  exists (Z.to_nat idx), chunk. split_and!; [|simpl; lra|done|done].
  cbn [search_loop]. rewrite decide_False by done.
  rewrite py_getitem_nonneg, Hchunk by done. cbn [filtering andb].
  rewrite decide_True by (simpl; lia). reflexivity.
Qed.

Lemma search_finds_stored_vector_witness :
  exists label chunk,
    search knn_exact with_opposite.1.1 (row (-1)) 1 None
    = Returned [hit_result chunk 0]
    /\ r_score (hit_result chunk 0) = 1
    /\ chunks with_opposite.1.1 !! label = Some chunk
    /\ xb (index with_opposite.1.1) !! label = Some (fvec_renorm_L2 (row (-1))).
Proof.
  apply (search_finds_stored_vector knn_exact fresh ∅ NoFault "t0" "A" "a.txt"
           ["a0"] (rows_of [-1]) 0 (row (-1)));
    [apply knn_exact_sound | apply knn_exact_exact | apply reachable_fresh
    | reflexivity | reflexivity | reflexivity | apply rows_of_wf
    | reflexivity | rewrite row_norm; lra].
Defined.

End SelfRetrieval.
(** ** Searching a store that has its chunks *)

Section SearchComplete.

Import Faiss Store Scenario.

(** [search] on a store with at least as many chunks as vectors. *)
Lemma search_returns hnsw s q top_k file_ids :
  ann_sound hnsw -> ntotal (index s) <= length (chunks s) ->
  (0 < top_k)%Z -> length q = d (index s) ->
  exists rs, search hnsw s q top_k file_ids = Returned rs.
Proof.
  intros Hsound Hlen Hk Hq.
  destruct (decide (ntotal (index s) = 0)) as [H0|Hn0].
  { rewrite search_no_vectors by done. by eexists. }
  rewrite search_nonempty by done. unfold index_search.
  rewrite fvec_renorm_L2_length, decide_True by done.
  destruct (Z.ltb_spec 0 (Z.min (if filtering file_ids then top_k * 10 else top_k)
                                (Z.of_nat (ntotal (index s))))) as [_|Hbad];
    [|destruct (filtering file_ids); lia].
  apply search_loop_returns.
  eapply Forall_impl; [by apply ann_sound_in_range|].
  intros h [?|?]; [by left|right]. unfold ntotal in Hlen. lia.
Qed.

Lemma running_inv s :
  running s ->
  d (index s) = dimension s /\ ntotal (index s) <= length (chunks s).
Proof.
  induction 1 as [s Hs|s dsk flt now fid fn texts emb _ [Hd Hle]
                 |s dsk flt fid _ [Hd Hle]].
  - rewrite fresh_init in Hs. by injection Hs as <-.
  - destruct (decide (shape0 emb = length texts /\ shape1 emb = dimension s))
      as [[H0 H1]|Hbad].
    + rewrite add_chunks_valid by done. cbn [fst]. split; [done|].
      unfold added, with_index_chunks, new_chunks, ntotal, shape0 in *.
      cbn [index chunks xb]. rewrite !length_app, length_fmap, length_imap. lia.
    + destruct (add_chunks_invalid s dsk flt now fid fn texts emb) as [msg ->];
        [|done].
      destruct (decide (shape0 emb = length texts)),
               (decide (shape1 emb = dimension s)); tauto.
  - destruct (delete_document_cases s dsk flt fid) as [-> | ->]; [done|].
    cbn [fst]. split; [done|]. unfold deleted, with_index_chunks, ntotal.
    cbn [index chunks xb new_IndexHNSWFlat length]. lia.
Qed.

(** X13.  No [IndexError] in a process that has not restarted.  However
    documents were added and deleted since the start on an empty disk, and
    whichever saves failed, the store has at least as many chunks as
    vectors, and [search] never fails on looking up the chunk of a label: it
    returns for every query of dimension 1536 with a positive [top_k]. *)
Theorem running_search_returns hnsw s q top_k file_ids :
  running s -> ann_sound hnsw ->
  ntotal (index s) <= length (chunks s)
  /\ search hnsw s q top_k file_ids <> Raised IndexError
  /\ ((0 < top_k)%Z -> length q = 1536 ->
      exists rs, search hnsw s q top_k file_ids = Returned rs).
Proof.
  intros Hrun Hsound. destruct (running_inv s Hrun) as [Hd Hle].
  split_and!; [done| |].
  - destruct (decide (ntotal (index s) = 0)) as [H0|Hn0].
    { by rewrite search_no_vectors. }
    rewrite search_nonempty by done. unfold index_search.
    destruct (decide _); [|done]. destruct (_ <? _)%Z; [|done].
    edestruct search_loop_returns as [rs ->]; [|done].
    eapply Forall_impl; [by apply ann_sound_in_range|].
    intros h [?|?]; [by left|right]. unfold ntotal in Hle. lia.
  - intros Hk Hq. apply search_returns; try done.
    rewrite Hd, Hq. clear -Hrun.
    induction Hrun as [s Hs|s dsk flt now fid fn texts emb _ IH|s dsk flt fid _ IH].
    + rewrite fresh_init in Hs. by injection Hs as <-.
    + destruct (decide (shape0 emb = length texts /\ shape1 emb = dimension s))
        as [[H0 H1]|Hbad].
      * unfold add_chunks. rewrite decide_False, decide_False by tauto.
        destruct (index_add _ _); [|done].
        by destruct (_save_all _ _ _).
      * destruct (add_chunks_invalid s dsk flt now fid fn texts emb) as [msg ->];
          [|done].
        destruct (decide (shape0 emb = length texts)),
                 (decide (shape1 emb = dimension s)); tauto.
    + by destruct (delete_document_cases s dsk flt fid) as [-> | ->].
Qed.

Lemma running_search_returns_witness :
  ntotal (index without_A.1.1) <= length (chunks without_A.1.1).
Proof.
  refine (proj1 (running_search_returns knn_exact without_A.1.1 (row 1) 3 None
                   _ knn_exact_sound)).
  apply running_delete, running_add, running_add, running_start, fresh_init.
Defined.

(** The loop without a filter, over hits that all have a chunk. *)
Lemma search_loop_count cs file_ids top_k hits acc rs :
  Forall (fun h => (0 <= h.2 < Z.of_nat (length cs))%Z) hits ->
  (Z.of_nat (length acc) < top_k)%Z ->
  search_loop cs file_ids top_k hits acc = Returned rs ->
  Z.of_nat (length rs)
  = Z.min top_k
      (Z.of_nat (length acc
                 + length (filter (fun c => passes file_ids c = true)
                             (omap (fun h => cs !! Z.to_nat h.2) hits)))).
Proof.
  revert acc. induction hits as [|[dist idx] hits IH]; intros acc Hok Hacc Hrs.
  - injection Hrs as <-. simpl. lia.
  - apply Forall_cons in Hok as [Hh Hok]. cbn [search_loop snd] in *.
    rewrite decide_False in Hrs by lia.
    rewrite py_getitem_nonneg in Hrs by lia. cbn [omap list_omap snd].
    destruct (cs !! Z.to_nat idx) as [chunk|] eqn:Hc; [|done].
    assert (Hp : passes file_ids chunk
                 = negb (filtering file_ids && not_in (c_file_id chunk) file_ids))
      by done.
    destruct (filtering file_ids && not_in (c_file_id chunk) file_ids) eqn:Hf.
    + rewrite filter_cons_False by (rewrite Hp; done). by apply IH.
    + rewrite filter_cons_True by done. cbn [length].
      destruct (decide _) as [Hfull|Hmore].
      * injection Hrs as <-. rewrite length_app in *. simpl in *. lia.
      * apply IH in Hrs; [|done|rewrite length_app in *; simpl in *; lia].
        rewrite Hrs, length_app. simpl. f_equal. lia.
Qed.

(** Under an exact traversal asked for as many hits as there are vectors,
    every vector is reported once. *)
Lemma exhaustive_hits hnsw xs q :
  ann_sound hnsw -> ann_exact hnsw ->
  Forall (fun h => (0 <= h.2 < Z.of_nat (length xs))%Z) (hnsw xs q (length xs))
  /\ (hnsw xs q (length xs)).*2 ≡ₚ Z.of_nat <$> seq 0 (length xs).
Proof.
  intros Hsound Hexact.
  destruct (Hsound xs q (length xs)) as [Hlen _].
  pose proof (ann_sound_in_range hnsw xs q (length xs) Hsound) as Hrange.
  destruct (Hexact xs q (length xs)) as (Hnd & Hcount & _).
  set (hits := hnsw xs q (length xs)) in *.
  assert (Hreal : Forall (fun l => l <> (-1)%Z) (hits.*2)).
  { apply Forall_forall. intros l Hl.
    destruct (decide (l = (-1)%Z)) as [->|]; [|done]. exfalso.
    pose proof (length_filter_lt (fun l => l <> (-1)%Z) (hits.*2) (-1)%Z Hl
                  ltac:(tauto)) as Hlt.
    unfold real_labels in Hcount. rewrite Hcount, length_fmap, Hlen in Hlt. lia. }
  assert (Hall : real_labels hits = hits.*2) by (by apply filter_all_id).
  rewrite Hall in Hnd, Hcount.
  assert (Hin : Forall (fun h => (0 <= h.2 < Z.of_nat (length xs))%Z) hits).
  { apply Forall_forall. intros h Hh.
    pose proof (proj1 (Forall_forall _ _) Hrange h Hh) as [Hm|Hr]; [|done].
    exfalso. eapply Forall_forall in Hreal; [apply Hreal, Hm|].
    by apply (list_elem_of_fmap_2 snd). }
  split; [done|].
  apply submseteq_length_Permutation.
  - apply NoDup_submseteq; [done|]. intros l Hl.
    apply list_elem_of_fmap in Hl as (h & -> & Hh).
    pose proof (proj1 (Forall_forall _ _) Hin h Hh) as Hr. cbv beta in Hr.
    apply list_elem_of_fmap. exists (Z.to_nat h.2). split; [lia|].
    apply elem_of_seq. lia.
  - rewrite !length_fmap, length_seq, Hlen. done.
Qed.

Lemma omap_lookup_from {A} (pre cs : list A) :
  omap (fun l => (pre ++ cs) !! Z.to_nat l)
    (Z.of_nat <$> seq (length pre) (length cs)) = cs.
Proof.
  revert pre. induction cs as [|c cs IH]; intros pre; [done|].
  cbn [length seq fmap list_fmap omap list_omap].
  rewrite Nat2Z.id, list_lookup_middle by done. f_equal.
  specialize (IH (pre ++ [c])).
  rewrite <- app_assoc, length_app in IH. cbn [app length] in IH.
  by rewrite Nat.add_1_r in IH.
Qed.

Lemma length_filter_chunks_perm (P : Chunk -> Prop) `{!forall c, Decision (P c)}
    (cs : list Chunk) (labels : list Z) :
  labels ≡ₚ Z.of_nat <$> seq 0 (length cs) ->
  length (filter P (omap (fun l => cs !! Z.to_nat l) labels))
  = length (filter P cs).
Proof.
  intros Hperm. rewrite Hperm.
  pose proof (omap_lookup_from [] cs) as Hcs. cbn [app length] in Hcs.
  by rewrite Hcs.
Qed.

Lemma omap_labels {A} (cs : list A) (hits : list (R * Z)) :
  omap (fun h => cs !! Z.to_nat h.2) hits
  = omap (fun l => cs !! Z.to_nat l) (hits.*2).
Proof.
  induction hits as [|h hits IH]; [done|]. rewrite fmap_cons.
  change (omap (fun h => cs !! Z.to_nat h.2) (h :: hits))
    with (match cs !! Z.to_nat h.2 with
          | Some c => c :: omap (fun h => cs !! Z.to_nat h.2) hits
          | None => omap (fun h => cs !! Z.to_nat h.2) hits
          end).
  by rewrite IH.
Qed.

(** X14.  A search that looks at every chunk.  In a store with as many
    chunks as vectors, when the number of hits asked of the traversal,
    [top_k] or [top_k * 10] with a filter, is at least the number of
    vectors, a search under an exact traversal returns [top_k] results, or
    all the chunks that pass the filter when they are fewer: in a store of
    at most [top_k * 10] vectors the filter loses no chunk of the requested
    documents. *)
Theorem search_complete_in_small_store hnsw s q top_k rs file_ids :
  ann_sound hnsw -> ann_exact hnsw ->
  length (chunks s) = ntotal (index s) ->
  (Z.of_nat (ntotal (index s))
   <= if filtering file_ids then top_k * 10 else top_k)%Z ->
  search hnsw s q top_k file_ids = Returned rs ->
  length rs
  = Z.to_nat top_k
      `min` length (filter (fun c => passes file_ids c = true) (chunks s)).
Proof.
  intros Hsound Hexact Hal Hsmall Hrs.
  destruct (decide (ntotal (index s) = 0)) as [H0|Hn0].
  { rewrite search_no_vectors in Hrs by done. injection Hrs as <-.
    destruct (chunks s); [simpl; lia | simpl in Hal; lia]. }
  apply search_Returned in Hrs as (_ & Hk & Hrs); [|done].
  assert (Htop : (0 < top_k)%Z) by (destruct (filtering file_ids); lia).
  rewrite Z.min_r, Nat2Z.id in Hrs by done.
  destruct (exhaustive_hits hnsw (xb (index s)) (fvec_renorm_L2 q) Hsound Hexact)
    as [Hin Hperm].
  unfold ntotal in *.
  apply search_loop_count in Hrs; [| |simpl; lia].
  - rewrite omap_labels in Hrs. rewrite <- Hal in Hperm at 2.
    rewrite (length_filter_chunks_perm _ _ _ Hperm) in Hrs. simpl in Hrs. lia.
  - eapply Forall_impl; [exact Hin|]. intros h Hh. cbv beta in *. lia.
Qed.

Lemma search_complete_in_small_store_witness :
  exists rs,
    search knn_exact with_AB.1.1 (row 1) 3 (Some ["A"]) = Returned rs
    /\ length rs = 2.
Proof.
  destruct (search_returns knn_exact with_AB.1.1 (row 1) 3 (Some ["A"])
              knn_exact_sound ltac:(vm_compute; lia) ltac:(lia) eq_refl)
    as [rs Hrs].
  exists rs. split; [exact Hrs|].
  exact (search_complete_in_small_store knn_exact with_AB.1.1 (row 1) 3 rs
           (Some ["A"]) knn_exact_sound knn_exact_exact eq_refl
           ltac:(vm_compute; discriminate) Hrs).
Defined.

End SearchComplete.
(** ** The chunks of [chunk_text] *)

Section ChunkerMore.

Import Chunker.

Lemma append_cons (x : ascii) (a b : string) :
  String x a +:+ b = String x (a +:+ b).
Proof. reflexivity. Qed.

Lemma append_assoc (a b c : string) : (a +:+ b) +:+ c = a +:+ (b +:+ c).
Proof.
  induction a as [|x a IH]; [done|]. by rewrite !append_cons, IH.
Qed.

Lemma append_nil_r (a : string) : a +:+ "" = a.
Proof. induction a as [|x a IH]; [done|]. by rewrite append_cons, IH. Qed.

Lemma append_eq_nil (a b : string) : a +:+ b = "" -> a = "" /\ b = "".
Proof. by destruct a. Qed.

Lemma chars_append (a b : string) :
  list_ascii_of_string (a +:+ b)
  = list_ascii_of_string a ++ list_ascii_of_string b.
Proof.
  induction a as [|x a IH]; [done|]. rewrite append_cons. simpl. by rewrite IH.
Qed.

(** The words of [split] are not empty and hold no whitespace. *)
Lemma split_from_words (cur s : string) :
  Forall (fun c => Py.isspace c = false) (list_ascii_of_string cur) ->
  Forall (fun w => w <> ""
                   /\ Forall (fun c => Py.isspace c = false)
                        (list_ascii_of_string w))
    (Py.split_from cur s).
Proof.
  revert cur. induction s as [|c s IH]; intros cur Hcur; simpl.
  - destruct (decide (cur = "")); [constructor | by repeat constructor].
  - destruct (Py.isspace c) eqn:Hc.
    + destruct (decide (cur = "")).
      * apply IH. constructor.
      * constructor; [done|]. apply IH. constructor.
    + apply IH. rewrite chars_append. apply Forall_app. split; [done|].
      simpl. by repeat constructor.
Qed.

(** [split] reads a word through. *)
Lemma split_from_word (cur w rest : string) :
  Forall (fun c => Py.isspace c = false) (list_ascii_of_string w) ->
  Py.split_from cur (w +:+ rest) = Py.split_from (cur +:+ w) rest.
Proof.
  revert cur. induction w as [|c w IH]; intros cur Hw.
  - by rewrite append_nil_r.
  - rewrite append_cons. simpl in *. apply Forall_cons in Hw as [-> Hw].
    rewrite IH by done. by rewrite append_assoc.
Qed.

Lemma split_from_space (cur rest : string) :
  cur <> "" ->
  Py.split_from cur (" " +:+ rest) = cur :: Py.split_from "" rest.
Proof.
  intros Hcur. change (" " +:+ rest) with (String " " rest).
  cbn [Py.split_from]. change (Py.isspace " ") with true. cbv iota.
  by rewrite decide_False.
Qed.

(** Splitting the words joined by single spaces gives the words back. *)
Lemma split_join (ws : list string) :
  Forall (fun w => w <> ""
                   /\ Forall (fun c => Py.isspace c = false)
                        (list_ascii_of_string w)) ws ->
  Py.split (Py.join " " ws) = ws.
Proof.
  unfold Py.split. induction 1 as [|w ws [Hne Hw] Hws IH]; [done|].
  destruct ws as [|w2 ws].
  - cbn [Py.join]. rewrite <- (append_nil_r w) at 1.
    rewrite split_from_word by done.
    change ("" +:+ w) with w. cbn [Py.split_from]. by rewrite decide_False.
  - change (Py.join " " (w :: w2 :: ws))
      with (w +:+ " " +:+ Py.join " " (w2 :: ws)).
    rewrite split_from_word by done. change ("" +:+ w) with w.
    rewrite split_from_space by done. by rewrite IH.
Qed.

Lemma join_spaces (ws : list string) :
  Forall (fun w => w <> ""
                   /\ Forall (fun c => Py.isspace c = false)
                        (list_ascii_of_string w)) ws ->
  Forall (fun c => Py.isspace c = true -> c = " "%char)
    (list_ascii_of_string (Py.join " " ws)).
Proof.
  induction 1 as [|w ws [Hne Hw] Hws IH]; [constructor|].
  assert (Hword : Forall (fun c => Py.isspace c = true -> c = " "%char)
                    (list_ascii_of_string w)).
  { eapply Forall_impl; [exact Hw|]. simpl. congruence. }
  destruct ws as [|w2 ws]; [done|].
  change (Py.join " " (w :: w2 :: ws))
    with (w +:+ " " +:+ Py.join " " (w2 :: ws)).
  rewrite !chars_append. apply Forall_app. split; [done|].
  apply Forall_app. split; [by repeat constructor | done].
Qed.

(** X15.  The size of the chunks.  When the splitter keeps to the chunk
    size, every chunk of [chunk_text] has between 50 and [CHUNK_SIZE * 4 =
    3200] characters, and there are no more chunks than the splitter gave. *)
Theorem chunk_text_size_bound (split_text : splitter) (text : string) :
  respects_chunk_size split_text ->
  Forall (fun c => 50 <= Py.len c <= chunk_size_chars)
    (chunk_text split_text text)
  /\ length (chunk_text split_text text) <= length (split_text text).
Proof.
  intros Hsize. unfold chunk_text.
  destruct (negb (Py.truthy text) || negb (Py.strip_truthy text)).
  { split; [constructor | simpl; lia]. }
  rewrite post_process_filter. split.
  - apply Forall_forall. intros c [Hc Hin]%list_elem_of_filter.
    apply list_elem_of_fmap in Hin as (c0 & -> & Hc0).
    split; [done|]. pose proof (collapse_len c0) as Hle.
    pose proof (proj1 (Forall_forall _ _) (Hsize text) c0 Hc0) as Hc0'.
    simpl in Hc0'. lia.
  - etrans; [apply length_filter|]. by rewrite length_fmap.
Qed.

Lemma chunk_text_size_bound_witness :
  Forall (fun c => 50 <= Py.len c <= chunk_size_chars)
    (chunk_text (fun text => if decide (Py.len text <= chunk_size_chars)
                             then [text] else [])
       "The quick brown fox jumps over the lazy dog, twice over.").
Proof.
  apply (chunk_text_size_bound
           (fun text => if decide (Py.len text <= chunk_size_chars)
                        then [text] else [])).
  intros text. destruct (decide (Py.len text <= chunk_size_chars));
    [by apply Forall_singleton | apply Forall_nil_2].
Defined.

(** X16.  The whitespace of the chunks.  Every chunk of [chunk_text] is in
    the form the collapse of whitespace leaves: collapsing it again changes
    nothing, and its only whitespace characters are single spaces between
    words; line breaks and tabs of the document are not kept. *)
Theorem chunk_text_normalized (split_text : splitter) (text : string) :
  Forall (fun c =>
            Py.join " " (Py.split c) = c
            /\ Forall (fun ch => Py.isspace ch = true -> ch = " "%char)
                 (list_ascii_of_string c))
    (chunk_text split_text text).
Proof.
  unfold chunk_text.
  destruct (negb (Py.truthy text) || negb (Py.strip_truthy text));
    [constructor|].
  rewrite post_process_filter.
  apply Forall_forall. intros c [_ Hin]%list_elem_of_filter.
  apply list_elem_of_fmap in Hin as (c0 & -> & _).
  pose proof (split_from_words "" c0 ltac:(constructor)) as Hwords.
  fold (Py.split c0) in Hwords.
  split; [by rewrite split_join | by apply join_spaces].
Qed.

End ChunkerMore.
(** ** Processing a document *)

Section ProcessorFacts.

Import Faiss Store Chunker Processor Scenario.

Lemma slice_take_drop {A} (l : list A) (i n : nat) :
  slice l i (i + n) = take n (drop i l).
Proof. unfold slice. by replace (i + n - i) with n by lia. Qed.

(** The first [m] slices of width [n] make up the first [m * n]
    elements. *)
Lemma concat_slices {A} (l : list A) (n m : nat) :
  concat ((fun i => slice l i (i + n)) <$> ((fun j => j * n) <$> seq 0 m))
  = take (m * n) l.
Proof.
  induction m as [|m IH]; [done|].
  rewrite seq_S, !fmap_app, concat_app, IH. simpl.
  rewrite app_nil_r, slice_take_drop, take_take_drop. f_equal. lia.
Qed.

Lemma batches_length (chunks : list string) :
  length (batches chunks) = (length chunks + 15) / 16.
Proof.
  unfold batches, range_step, BATCH_SIZE.
  rewrite !length_fmap, length_seq. f_equal. lia.
Qed.

(** X17.  The batches.  The loop of [process_document] cuts the chunks into
    batches that, put end to end, are the chunks in order; no batch is empty
    and none has more than 16 chunks. *)
Theorem batches_partition (chunks : list string) :
  concat (batches chunks) = chunks
  /\ Forall (fun b => 0 < length b <= BATCH_SIZE) (batches chunks)
  /\ length (batches chunks) = (length chunks + 15) / 16.
Proof.
  split_and!; [| |apply batches_length].
  - unfold batches, range_step, BATCH_SIZE. rewrite concat_slices.
    apply take_ge.
    pose proof (Nat.div_mod (length chunks + 16 - 1) 16 ltac:(lia)) as Hdm.
    pose proof (Nat.mod_upper_bound (length chunks + 16 - 1) 16 ltac:(lia)).
    lia.
  - unfold batches, range_step, BATCH_SIZE.
    apply Forall_fmap, Forall_fmap, Forall_forall. intros j Hj%elem_of_seq.
    simpl. rewrite slice_take_drop, length_take, length_drop.
    pose proof (Nat.div_mod (length chunks + 16 - 1) 16 ltac:(lia)) as Hdm.
    pose proof (Nat.mod_upper_bound (length chunks + 16 - 1) 16 ltac:(lia)).
    lia.
Qed.

(** What the embedding of the batches relies on. *)
Lemma batches_cover (chunks : list string) :
  concat (batches chunks) = chunks
  /\ Forall (fun b => 0 < length b <= BATCH_SIZE) (batches chunks).
Proof.
  assert (Hceil : length chunks <= (length chunks + 16 - 1) / 16 * 16
                  /\ forall j, j < (length chunks + 16 - 1) / 16 ->
                               j * 16 < length chunks).
  { pose proof (Nat.div_mod (length chunks + 16 - 1) 16 ltac:(lia)).
    pose proof (Nat.mod_upper_bound (length chunks + 16 - 1) 16 ltac:(lia)).
    split; [lia|]. intros j Hj. lia. }
  destruct Hceil as [Hall Hin]. unfold batches, range_step, BATCH_SIZE. split.
  - rewrite concat_slices. by apply take_ge.
  - apply Forall_fmap, Forall_fmap, Forall_forall. intros j Hj%elem_of_seq.
    simpl. rewrite slice_take_drop, length_take, length_drop.
    specialize (Hin j ltac:(lia)). lia.
Qed.

Lemma batches_nonempty (chunks : list string) :
  chunks <> [] -> batches chunks <> [].
Proof.
  intros Hne Hb. apply (f_equal length) in Hb. rewrite batches_length in Hb.
  destruct chunks as [|c chunks]; [done|]. cbn [length] in Hb.
  apply Nat.div_small_iff in Hb; lia.
Qed.

(** A service that embeds each text by itself: a batch of one to sixteen
    texts is answered with the embedding of each, of dimension 1536. *)
Lemma embed_texts_pointwise create (embedding : string -> vec) batch :
  (forall texts, 0 < length texts <= BATCH_SIZE ->
                 create texts = Returned (embedding <$> texts)) ->
  (forall text, length (embedding text) = 1536) ->
  0 < length batch <= BATCH_SIZE ->
  embed_texts create batch
  = Returned (Array2 {| shape1 := 1536; rows := embedding <$> batch |}).
Proof.
  intros Hcreate Hdim Hb. unfold embed_texts.
  destruct batch as [|text batch]; [simpl in Hb; lia|].
  rewrite Hcreate by done. rewrite fmap_cons. unfold np_array.
  rewrite decide_True.
  - by rewrite Hdim.
  - rewrite <- fmap_cons. apply Forall_fmap, Forall_forall. intros t _.
    simpl. by rewrite !Hdim.
Qed.

Lemma embed_batches_pointwise create (embedding : string -> vec) bs :
  (forall texts, 0 < length texts <= BATCH_SIZE ->
                 create texts = Returned (embedding <$> texts)) ->
  (forall text, length (embedding text) = 1536) ->
  Forall (fun b => 0 < length b <= BATCH_SIZE) bs ->
  embed_batches (embed_texts create) bs
  = Returned ((fun b => Array2 {| shape1 := 1536; rows := embedding <$> b |})
                <$> bs).
Proof.
  intros Hcreate Hdim. induction 1 as [|b bs Hb _ IH]; [done|].
  cbn [embed_batches]. rewrite (embed_texts_pointwise _ embedding) by done.
  by rewrite IH.
Qed.

Lemma vstack_pointwise (embedding : string -> vec) bs :
  bs <> [] ->
  vstack ((fun b => Array2 {| shape1 := 1536; rows := embedding <$> b |}) <$> bs)
  = Returned {| shape1 := 1536; rows := embedding <$> concat bs |}.
Proof.
  intros Hne. destruct bs as [|b bs]; [done|]. unfold vstack.
  rewrite <- list_fmap_compose. rewrite fmap_cons. cbn [compose atleast_2d].
  rewrite decide_True.
  - cbn [shape1 rows]. do 2 f_equal. rewrite <- list_fmap_compose.
    cbn [concat]. rewrite fmap_app. f_equal.
    induction bs as [|b' bs IH]; [done|].
    rewrite fmap_cons. cbn [concat compose atleast_2d rows].
    by rewrite fmap_app, IH.
  - apply Forall_fmap, Forall_forall. by intros b' _.
Qed.

Lemma truthy_lstrip (s : string) : Py.truthy (Py.lstrip s) = Py.strip_truthy s.
Proof.
  induction s as [|c s IH]; [done|]. simpl. by destruct (Py.isspace c).
Qed.

Lemma strip_truthy_rstrip (s : string) :
  Py.strip_truthy (Py.rstrip s) = Py.strip_truthy s.
Proof.
  induction s as [|c s IH]; [done|]. simpl.
  destruct (Py.rstrip s) as [|c' r] eqn:Hr.
  - simpl in IH. rewrite <- IH. destruct (Py.isspace c) eqn:Hc; simpl; [done|].
    by rewrite Hc.
  - cbn [Py.strip_truthy]. by rewrite <- IH.
Qed.

(** [s.strip()] is not empty exactly when [s] has a character that is not
    whitespace. *)
Lemma truthy_strip (s : string) : Py.truthy (Py.strip s) = Py.strip_truthy s.
Proof. unfold Py.strip. by rewrite truthy_lstrip, strip_truthy_rstrip. Qed.

Lemma chunk_text_blank (split_text : splitter) (text : string) :
  Py.strip_truthy text = false -> chunk_text split_text text = [].
Proof. intros Hb. unfold chunk_text. rewrite Hb. by rewrite orb_true_r. Qed.

(** X18.  A document without text.  A text file of nothing but whitespace, a
    PDF whose pages give no text, a DOCX whose paragraphs are blank:
    [process_document] returns without an error and leaves the store and the
    disk as they were, so that the status of the document stays what it was. *)
Theorem process_document_without_text
    rd split_text create s dsk flt now file_path file_id :
  let ext := Py.lower (Py.splitext file_path).2 in
  (ext ∈ [".txt"; ".md"]
   /\ exists text, read_text rd file_path = Returned text
                   /\ Py.strip_truthy text = false)
  \/ (ext = ".pdf"
      /\ exists pages, PdfReader_pages rd file_path = Returned pages
                       /\ Forall (fun p => Py.strip_truthy p = false) pages)
  \/ (ext = ".docx"
      /\ exists paragraphs,
           DocxDocument_paragraphs rd file_path = Returned paragraphs
           /\ Forall (fun p => Py.strip_truthy p = false) paragraphs) ->
  process_document rd split_text create s dsk flt now file_path file_id
  = (s, dsk, Returned ())
  /\ get_document_status
       (process_document rd split_text create s dsk flt now file_path file_id).1.1
       file_id
     = get_document_status s file_id.
Proof.
  intros ext Hcases.
  assert (Hparse : exists text, parse rd file_path = Returned text
                                /\ Py.strip_truthy text = false).
  { unfold parse. fold ext.
    destruct Hcases as [(Hext & text & Hread & Hblank)
                       |[(Hext & pages & Hread & Hblank)
                        |(Hext & ps & Hread & Hblank)]].
    - rewrite bool_decide_eq_true_2 by done. by exists text.
    - rewrite Hext. rewrite bool_decide_eq_false_2
        by (intros Hin; by repeat (apply elem_of_cons in Hin as [?|Hin];
                                   [done|]); apply elem_of_nil in Hin).
      rewrite bool_decide_eq_true_2 by done.
      unfold _parse_pdf. rewrite Hread. eexists. split; [done|].
      rewrite filter_none; [done|].
      eapply Forall_impl; [exact Hblank|]. simpl. congruence.
    - rewrite Hext. rewrite bool_decide_eq_false_2
        by (intros Hin; by repeat (apply elem_of_cons in Hin as [?|Hin];
                                   [done|]); apply elem_of_nil in Hin).
      rewrite bool_decide_eq_false_2 by done.
      rewrite bool_decide_eq_true_2 by done.
      unfold _parse_docx. rewrite Hread. eexists. split; [done|].
      rewrite filter_none; [done|].
      apply Forall_fmap. eapply Forall_impl; [exact Hblank|]. simpl.
      intros p Hp. rewrite truthy_strip. congruence. }
  destruct Hparse as (text & Hparse & Hblank).
  unfold process_document. rewrite Hparse, chunk_text_blank by done. done.
Qed.

Lemma process_document_without_text_witness :
  process_document
    {| read_text := fun _ => Raised OSError;
       PdfReader_pages := fun _ => Returned [" "; ""];
       DocxDocument_paragraphs := fun _ => Raised OSError |}
    whole_text_splitter (fun _ => Raised RuntimeError) fresh ∅ NoFault "t0"
    "./uploads/scan.PDF" "scan.PDF"
  = (fresh, ∅, Returned ()).
Proof.
  apply (process_document_without_text
           {| read_text := fun _ => Raised OSError;
              PdfReader_pages := fun _ => Returned [" "; ""];
              DocxDocument_paragraphs := fun _ => Raised OSError |}).
  right. left. split; [reflexivity|].
  exists [" "; ""]. split; [reflexivity|]. by repeat constructor.
Defined.

(** X19.  Batching is invisible.  When the embedding service answers every
    batch of one to sixteen texts with the embedding of each text, of
    dimension 1536, and the document has a chunk, [process_document] is the
    call of [add_chunks] with the chunks of the text and the array of their
    embeddings, one row per chunk in the order of the chunks; in a reachable
    store the document is then reported completed with the number of its
    chunks, and the call returns when the save does not fail. *)
Theorem process_document_embeds_every_chunk
    rd split_text create (embedding : string -> vec)
    s dsk flt now file_path file_id text :
  (forall texts, 0 < length texts <= BATCH_SIZE ->
                 create texts = Returned (embedding <$> texts)) ->
  (forall t, length (embedding t) = 1536) ->
  parse rd file_path = Returned text ->
  chunk_text split_text text <> [] ->
  let chunks := chunk_text split_text text in
  let r := process_document rd split_text create s dsk flt now file_path file_id in
  r = add_chunks s dsk flt now file_id (Py.basename file_path) chunks
        {| shape1 := 1536; rows := embedding <$> chunks |}
  /\ (reachable s dsk ->
      get_document_status r.1.1 file_id
      = {| status := "completed"; chunks_count := length chunks;
           upload_date := Some now |}
      /\ (flt = NoFault -> r.2 = Returned ())).
Proof.
  intros Hcreate Hdim Hparse Hne chunks r. subst r.
  assert (Heq : process_document rd split_text create s dsk flt now file_path file_id
                = add_chunks s dsk flt now file_id (Py.basename file_path) chunks
                    {| shape1 := 1536; rows := embedding <$> chunks |}).
  { unfold process_document. rewrite Hparse. fold chunks.
    destruct chunks as [|c cs] eqn:Hchunks; [done|]. rewrite <- Hchunks.
    destruct (batches_cover chunks) as [Hconcat Hsizes].
    rewrite (embed_batches_pointwise _ embedding) by done.
    rewrite vstack_pointwise by (apply batches_nonempty; congruence).
    by rewrite Hconcat. }
  split; [exact Heq|]. rewrite Heq. intros Hreach.
  destruct (reachable_inv _ _ Hreach) as (Hsdim & [Hd _] & _ & _).
  rewrite add_chunks_valid;
    [|by unfold shape0; cbn [rows]; rewrite length_fmap
     |by cbn [shape1]; rewrite Hsdim
     |congruence].
  cbn [fst snd]. split.
  - unfold get_document_status, added, with_index_chunks. cbn [metadata].
    by rewrite lookup_insert_eq.
  - intros ->. by rewrite _save_all_NoFault.
Qed.

Lemma process_document_embeds_every_chunk_witness :
  get_document_status
    (process_document
       {| read_text := fun _ =>
            Returned "The quick brown fox jumps over the lazy dog, twice over.";
          PdfReader_pages := fun _ => Raised OSError;
          DocxDocument_paragraphs := fun _ => Raised OSError |}
       whole_text_splitter (fun texts => Returned ((fun _ => row 1) <$> texts))
       fresh ∅ NoFault "t0" "./uploads/fox.txt" "fox.txt").1.1
    "fox.txt"
  = {| status := "completed"; chunks_count := 1; upload_date := Some "t0" |}.
Proof.
  refine (proj1 (proj2 (process_document_embeds_every_chunk
           {| read_text := fun _ =>
                Returned "The quick brown fox jumps over the lazy dog, twice over.";
              PdfReader_pages := fun _ => Raised OSError;
              DocxDocument_paragraphs := fun _ => Raised OSError |}
           whole_text_splitter (fun texts => Returned ((fun _ => row 1) <$> texts))
           (fun _ => row 1) fresh ∅ NoFault "t0" "./uploads/fox.txt" "fox.txt"
           "The quick brown fox jumps over the lazy dog, twice over."
           _ _ _ _) reachable_fresh)).
  - done.
  - intros _. apply row_length.
  - reflexivity.
  - discriminate.
Defined.

(** X20.  All or nothing.  Whatever the readers, the splitter and the
    embedding service do, [process_document] in a reachable store either
    leaves the store and the disk as they were, and then returns only for a
    document without chunks, or adds every chunk of the document with one
    embedding each: the store never holds a part of a document. *)
Theorem process_document_all_or_nothing
    rd split_text create s dsk flt now file_path file_id :
  reachable s dsk ->
  let r := process_document rd split_text create s dsk flt now file_path file_id in
  (r.1.1 = s /\ r.1.2 = dsk
   /\ (r.2 = Returned () ->
       exists text, parse rd file_path = Returned text
                    /\ chunk_text split_text text = []))
  \/ (exists text embeddings,
        parse rd file_path = Returned text
        /\ chunk_text split_text text <> []
        /\ shape0 embeddings = length (chunk_text split_text text)
        /\ r.1.1 = added s now file_id (Py.basename file_path)
                     (chunk_text split_text text) embeddings
        /\ r.2 = (_save_all r.1.1 flt dsk).2).
Proof.
  intros Hreach r. subst r.
  destruct (reachable_inv _ _ Hreach) as (Hsdim & [Hd _] & _ & _).
  unfold process_document.
  destruct (parse rd file_path) as [text|e]; [|left; by split_and!].
  destruct (chunk_text split_text text) as [|c cs] eqn:Hchunks.
  { left. split_and!; [done|done|]. intros _. by exists text. }
  rewrite <- Hchunks.
  destruct (embed_batches _ _) as [all_embeddings|e]; [|left; by split_and!].
  destruct (vstack all_embeddings) as [embeddings|e]; [|left; by split_and!].
  destruct (decide (shape0 embeddings = length (chunk_text split_text text)
                    /\ shape1 embeddings = dimension s)) as [[H0 H1]|Hbad].
  - right. exists text, embeddings. rewrite add_chunks_valid by congruence.
    cbn [fst snd]. split_and!; try done. congruence.
  - left.
    destruct (add_chunks_invalid s dsk flt now file_id (Py.basename file_path)
                (chunk_text split_text text) embeddings) as [msg ->].
    { destruct (decide (shape0 embeddings = length (chunk_text split_text text))),
               (decide (shape1 embeddings = dimension s)); tauto. }
    by split_and!.
Qed.

Lemma process_document_all_or_nothing_witness :
  (process_document
     {| read_text := fun _ => Raised OSError;
        PdfReader_pages := fun _ => Raised OSError;
        DocxDocument_paragraphs := fun _ => Raised OSError |}
     whole_text_splitter (fun _ => Raised RuntimeError) fresh ∅ NoFault "t0"
     "./uploads/fox.txt" "fox.txt").1.1 = fresh.
Proof.
  destruct (process_document_all_or_nothing
              {| read_text := fun _ => Raised OSError;
                 PdfReader_pages := fun _ => Raised OSError;
                 DocxDocument_paragraphs := fun _ => Raised OSError |}
              whole_text_splitter (fun _ => Raised RuntimeError) fresh ∅ NoFault
              "t0" "./uploads/fox.txt" "fox.txt" reachable_fresh)
    as [(H & _)|(text & ? & Hp & _)]; [exact H | discriminate Hp].
Defined.

End ProcessorFacts.
(** ** From the upload to the parser *)

Section UploadFacts.

Import Store Processor Upload.

Lemma contains_append (c : ascii) (a b : string) :
  Py.contains c (a +:+ b) = Py.contains c a || Py.contains c b.
Proof.
  induction a as [|x a IH]; [done|]. rewrite append_cons. simpl.
  by rewrite IH, orb_assoc.
Qed.

Lemma rcut_None (c : ascii) (s : string) :
  Py.rcut c s = None <-> Py.contains c s = false.
Proof.
  induction s as [|a s IH]; [done|]. simpl.
  destruct (Py.rcut c s) as [[pre suf]|].
  - split; [done|]. intros [_ H]%orb_false_iff. by apply IH in H.
  - destruct (decide (a = c)) as [->|Hne].
    + rewrite bool_decide_eq_true_2 by done. done.
    + rewrite bool_decide_eq_false_2 by done. simpl. by rewrite <- IH.
Qed.

(** The cut is at the last occurrence. *)
Lemma rcut_Some (c : ascii) (s pre suf : string) :
  Py.rcut c s = Some (pre, suf) ->
  s = pre +:+ suf /\ exists t, suf = String c t /\ Py.contains c t = false.
Proof.
  revert pre. induction s as [|a s IH]; intros pre; [done|]. simpl.
  destruct (Py.rcut c s) as [[pre' suf']|] eqn:Hcut.
  - intros [= <- <-]. destruct (IH pre' eq_refl) as (-> & t & -> & Ht).
    split; [done|]. by exists t.
  - destruct (decide (a = c)) as [->|]; [|done]. intros [= <- <-].
    split; [done|]. exists s. split; [done|]. by apply rcut_None.
Qed.

Lemma rcut_append (c : ascii) (a t : string) :
  Py.contains c t = false ->
  Py.rcut c (a +:+ String c t) = Some (a, String c t).
Proof.
  intros Ht. induction a as [|x a IH].
  - change ("" +:+ String c t) with (String c t). cbn [Py.rcut].
    rewrite (proj2 (rcut_None c t) Ht). by rewrite decide_True.
  - rewrite append_cons. cbn [Py.rcut]. by rewrite IH.
Qed.

Lemma all_dots_contains (s : string) :
  s <> "" -> Py.contains "." s = false -> Py.all_dots s = false.
Proof.
  destruct s as [|c s]; [done|]. simpl. intros _ [H _]%orb_false_iff.
  by rewrite H.
Qed.

(** What [splitext] gives as an extension that is not empty: a dot, then
    neither a dot nor a slash. *)
Lemma splitext_ext (p : string) :
  (Py.splitext p).2 <> "" ->
  exists t, (Py.splitext p).2 = String "." t
            /\ Py.contains "." t = false /\ Py.contains "/" t = false.
Proof.
  unfold Py.splitext.
  set (hn := match Py.rcut "/" p with
             | Some (pre, String sep name) => (pre +:+ String sep "", name)
             | _ => ("", p)
             end).
  assert (Hname : Py.contains "/" hn.2 = false).
  { unfold hn. destruct (Py.rcut "/" p) as [[pre suf]|] eqn:Hcut.
    - apply rcut_Some in Hcut as (_ & t & -> & Ht). done.
    - by apply rcut_None. }
  destruct hn as [head name]. cbn [snd] in Hname.
  destruct (Py.rcut "." name) as [[stem ext]|] eqn:Hcut; [|done].
  destruct (Py.all_dots stem); [done|]. cbn [snd]. intros _.
  apply rcut_Some in Hcut as (-> & t & -> & Ht). exists t.
  split_and!; [done|done|].
  rewrite contains_append in Hname. apply orb_false_iff in Hname as [_ Hname].
  simpl in Hname. exact Hname.
Qed.

Lemma lower_nil (s : string) : Py.lower s = "" -> s = "".
Proof. by destruct s. Qed.

Lemma removeprefix_append (prefix s : string) :
  Py.removeprefix prefix (prefix +:+ s) = Some s.
Proof.
  induction prefix as [|a prefix IH]; [done|]. rewrite append_cons.
  cbn [Py.removeprefix]. by rewrite decide_True.
Qed.

(** [os.path.join] on a second component that is not absolute. *)
Lemma path_join_relative (dir name : string) :
  Py.truthy dir = true -> Py.endswith "/" dir = false ->
  (forall t, name <> String "/" t) ->
  path_join dir name = dir +:+ "/" +:+ name.
Proof.
  intros Hdir Hend Hrel. unfold path_join. rewrite Hdir, Hend. cbn [negb orb].
  destruct name as [|c t]; [done|].
  destruct c as [[] [] [] [] [] [] [] []]; try done. by destruct (Hrel t).
Qed.

(** The name [save_upload_file] gives an upload. *)
Lemma saved_name (uuid filename : string) :
  uuid <> "" -> Py.contains "." uuid = false -> Py.contains "/" uuid = false ->
  (Py.splitext filename).2 <> "" ->
  let name := uuid +:+ (Py.splitext filename).2 in
  let file_path := path_join UPLOAD_DIR name in
  file_path = UPLOAD_DIR +:+ "/" +:+ name
  /\ Py.basename file_path = name
  /\ Py.splitext file_path = (path_join UPLOAD_DIR uuid, (Py.splitext filename).2)
  /\ globbed file_path = true.
Proof.
  intros Hne Hdot Hslash Hext name file_path. subst name file_path.
  destruct (splitext_ext filename Hext) as (t & Het & Htdot & Htslash).
  assert (Hrel : forall ext t', uuid +:+ ext <> String "/" t').
  { intros ext t'. destruct uuid as [|c uuid]; [done|]. rewrite append_cons.
    intros [= -> _]. cbn [Py.contains] in Hslash.
    by rewrite bool_decide_eq_true_2 in Hslash. }
  assert (Hrel0 : forall t', uuid <> String "/" t').
  { intros t'. specialize (Hrel "" t'). by rewrite append_nil_r in Hrel. }
  rewrite !path_join_relative by (done || apply Hrel).
  rewrite Het.
  assert (Hnoslash : Py.contains "/" (uuid +:+ String "." t) = false).
  { rewrite contains_append, Hslash. simpl. by rewrite Htslash. }
  assert (Hcut : Py.rcut "/" (UPLOAD_DIR +:+ "/" +:+ uuid +:+ String "." t)
                 = Some (UPLOAD_DIR, String "/" (uuid +:+ String "." t))).
  { change ("/" +:+ uuid +:+ String "." t)
      with (String "/" (uuid +:+ String "." t)).
    by apply rcut_append. }
  split_and!.
  - done.
  - unfold Py.basename. by rewrite Hcut.
  - unfold Py.splitext. rewrite Hcut, rcut_append by done.
    rewrite all_dots_contains by done. by rewrite append_assoc.
  - unfold globbed. rewrite <- append_assoc, removeprefix_append.
    destruct uuid as [|c uuid]; [done|]. rewrite append_cons.
    rewrite append_cons in Hnoslash. rewrite Hnoslash.
    simpl in Hdot. apply orb_false_iff in Hdot as [Hc _].
    by rewrite Hc.
Qed.

(** What [glob] finds: the files of the map at a path it matches. *)
Lemma elem_of_glob_uploads (files : gmap string string) (path : string) :
  path ∈ glob_uploads files <-> globbed path = true /\ is_Some (files !! path).
Proof.
  unfold glob_uploads. rewrite list_elem_of_filter, list_elem_of_fmap.
  split.
  - intros [Hg ([path' c] & -> & Hin)]. apply elem_of_map_to_list in Hin.
    split; [done | by exists c].
  - intros [Hg [c Hc]]. split; [done|]. exists (path, c).
    split; [done | by apply elem_of_map_to_list].
Qed.

(** [validate_file] accepts the extensions of the parser only. *)
Lemma validate_file_ext (filename : string) (size : option Z) :
  validate_file filename size = Ok () ->
  Py.lower (Py.splitext filename).2 ∈ ALLOWED_EXTENSIONS
  /\ (Py.splitext filename).2 <> "".
Proof.
  intros Hvalid.
  assert (Hallowed : Py.lower (Py.splitext filename).2 ∈ ALLOWED_EXTENSIONS).
  { unfold validate_file in Hvalid.
    destruct (bool_decide (Py.lower (Py.splitext filename).2 ∈ ALLOWED_EXTENSIONS))
      eqn:Hb; [by apply bool_decide_eq_true in Hb | done]. }
  split; [done|]. intros Heq. rewrite Heq in Hallowed. simpl in Hallowed.
  repeat (apply elem_of_cons in Hallowed as [?|Hallowed]; [done|]).
  by apply elem_of_nil in Hallowed.
Qed.





End UploadFacts.
(** ** The TOON tables *)

Section ToonFacts.

Import Store Chat.

Lemma append_nil_l (a : string) : "" +:+ a = a.
Proof. reflexivity. Qed.

(** The string built by a loop of [toon += row]. *)
Lemma foldl_append {A} (row : A -> string) (init : string) (l : list A) :
  foldl (fun toon x => toon +:+ row x) init l
  = init +:+ foldr (fun x rest => row x +:+ rest) "" l.
Proof.
  revert init. induction l as [|x l IH]; intros init; simpl.
  - by rewrite append_nil_r.
  - by rewrite IH, append_assoc.
Qed.

(** Two strings cut at the first occurrence of a character. *)
Lemma append_cut (c : ascii) (a b s t : string) :
  Py.contains c a = false -> Py.contains c b = false ->
  a +:+ String c s = b +:+ String c t -> a = b /\ s = t.
Proof.
  revert b. induction a as [|x a IH]; intros [|y b] Ha Hb Heq.
  - by injection Heq as ->.
  - rewrite append_cons, append_nil_l in Heq. injection Heq as <- _.
    simpl in Hb. by rewrite bool_decide_eq_true_2 in Hb.
  - rewrite append_cons, append_nil_l in Heq. injection Heq as -> _.
    simpl in Ha. by rewrite bool_decide_eq_true_2 in Ha.
  - rewrite !append_cons in Heq. injection Heq as -> Heq.
    simpl in Ha, Hb. apply orb_false_iff in Ha as [_ Ha], Hb as [_ Hb].
    destruct (IH b Ha Hb Heq) as [-> ->]. done.
Qed.

(** A number in decimal holds digits only. *)
Lemma contains_pretty_N_go (c : ascii) (x : N) (s : string) :
  nat_of_ascii c < 48 \/ 57 < nat_of_ascii c ->
  Py.contains c (pretty_N_go x s) = Py.contains c s.
Proof.
  intros Hc. revert s. induction (N.lt_wf_0 x) as [x _ IH]; intros s.
  assert (x = 0 \/ 0 < x)%N as [->|Hx] by lia; [by rewrite pretty_N_go_0|].
  rewrite pretty_N_go_step by done. rewrite IH by (by apply N.div_lt).
  simpl. rewrite bool_decide_eq_false_2; [done|].
  intros <-. unfold pretty_N_char in Hc.
  repeat case_match; vm_compute in Hc; lia.
Qed.

Lemma contains_pretty (c : ascii) (n : nat) :
  nat_of_ascii c < 48 \/ 57 < nat_of_ascii c ->
  Py.contains c (pretty n) = false.
Proof.
  intros Hc. unfold pretty, pretty_nat, pretty, pretty_N.
  destruct (decide _).
  - simpl. rewrite bool_decide_eq_false_2; [done|]. intros <-.
    vm_compute in Hc. lia.
  - by rewrite contains_pretty_N_go.
Qed.

(** The header of a table is read back: the count, then the rows. *)
Lemma toon_header_inj (fields : string) (n1 n2 : nat) (rows1 rows2 : string) :
  ((fields +:+ NL) +:+ ("[" +:+ pretty n1 +:+ "]" +:+ NL)) +:+ rows1
  = ((fields +:+ NL) +:+ ("[" +:+ pretty n2 +:+ "]" +:+ NL)) +:+ rows2 ->
  rows1 = rows2.
Proof.
  unfold NL. rewrite !append_assoc, !append_cons, !append_nil_l.
  intros Heq%(inj (String.append fields)). injection Heq as Heq.
  apply append_cut in Heq as [_ Heq];
    [|apply contains_pretty; vm_compute; lia..].
  by injection Heq.
Qed.

Lemma history_row_shape (m : Message) (rest : string) :
  (m_role m +:+ TAB +:+ m_content m +:+ NL) +:+ rest
  = m_role m
    +:+ String (ascii_of_nat 9) (m_content m +:+ String (ascii_of_nat 10) rest).
Proof.
  unfold TAB, NL.
  by rewrite !append_assoc, !append_cons, !append_nil_l.
Qed.

(** X25.  The history table is read back.  Two histories in which no role
    holds a tab and no content a line feed, and whose tables, as
    [format_history] writes them, are the same text, are the same history.
    Without the condition on the roles the table is ambiguous: a role
    holding a tab reads as the start of the content. *)
Theorem format_history_injective (history1 history2 : list Message) :
  Forall (fun m => Py.contains (ascii_of_nat 9) (m_role m) = false
                   /\ Py.contains Py.LF (m_content m) = false) history1 ->
  Forall (fun m => Py.contains (ascii_of_nat 9) (m_role m) = false
                   /\ Py.contains Py.LF (m_content m) = false) history2 ->
  (format_history history1 = format_history history2 -> history1 = history2)
  /\ format_history [ {| m_role := "user" +:+ TAB +:+ "x"; m_content := "y" |} ]
     = format_history [ {| m_role := "user"; m_content := "x" +:+ TAB +:+ "y" |} ].
Proof.
  intros H1 H2. split; [|reflexivity].
  unfold format_history. cbv zeta. rewrite !foldl_append.
  intros Heq%toon_header_inj. revert history2 H2 Heq.
  induction H1 as [|m1 h1 [Hr1 Hm1] _ IH]; intros history2 H2 Heq;
    destruct H2 as [|m2 h2 [Hr2 Hm2] H2]; cbn [foldr] in Heq.
  - done.
  - rewrite history_row_shape in Heq.
    destruct (m_role m2); [|done]. by rewrite append_nil_l in Heq.
  - rewrite history_row_shape in Heq.
    destruct (m_role m1); [|done]. by rewrite append_nil_l in Heq.
  - rewrite !history_row_shape in Heq.
    apply append_cut in Heq as [Hrole Heq]; [|done..].
    apply append_cut in Heq as [Hcontent Heq]; [|done..].
    f_equal; [|by apply IH].
    destruct m1 as [r1 c1], m2 as [r2 c2]; simpl in *. by subst.
Qed.

Lemma format_history_injective_witness :
  format_history [ {| m_role := "user"; m_content := "hello" |};
                   {| m_role := "assistant"; m_content := "hi there" |} ]
  <> format_history [ {| m_role := "user"; m_content := "hello" |};
                      {| m_role := "assistant hi"; m_content := "there" |} ].
Proof.
  intros Heq.
  apply (format_history_injective
           [ {| m_role := "user"; m_content := "hello" |};
             {| m_role := "assistant"; m_content := "hi there" |} ]
           [ {| m_role := "user"; m_content := "hello" |};
             {| m_role := "assistant hi"; m_content := "there" |} ]) in Heq;
    [discriminate | by repeat constructor | by repeat constructor].
Defined.

Lemma context_row_shape (c : SearchResult) (rest : string) :
  (r_file_id c +:+ TAB +:+ pretty (r_chunk_index c) +:+ TAB
   +:+ r_content c +:+ NL) +:+ rest
  = r_file_id c
    +:+ String (ascii_of_nat 9)
          (pretty (r_chunk_index c)
           +:+ String (ascii_of_nat 9)
                 (r_content c +:+ String (ascii_of_nat 10) rest)).
Proof.
  unfold TAB, NL.
  by rewrite !append_assoc, !append_cons, !append_nil_l.
Qed.

(** X26.  The context table is read back, up to the scores, which it does
    not hold.  Two lists of results in which no document identifier holds a
    tab and no content a line feed, and whose tables, as [format_context]
    writes them, are the same text, have the same documents, chunk numbers
    and contents, row by row. *)
Theorem format_context_injective (chunks1 chunks2 : list SearchResult) :
  Forall (fun c => Py.contains (ascii_of_nat 9) (r_file_id c) = false
                   /\ Py.contains Py.LF (r_content c) = false) chunks1 ->
  Forall (fun c => Py.contains (ascii_of_nat 9) (r_file_id c) = false
                   /\ Py.contains Py.LF (r_content c) = false) chunks2 ->
  format_context chunks1 = format_context chunks2 ->
  (fun c => (r_file_id c, r_chunk_index c, r_content c)) <$> chunks1
  = (fun c => (r_file_id c, r_chunk_index c, r_content c)) <$> chunks2.
Proof.
  intros H1 H2. unfold format_context. cbv zeta. rewrite !foldl_append.
  intros Heq%toon_header_inj. revert chunks2 H2 Heq.
  induction H1 as [|c1 cs1 [Hf1 Hc1] _ IH]; intros chunks2 H2 Heq;
    destruct H2 as [|c2 cs2 [Hf2 Hc2] H2]; cbn [foldr] in Heq.
  - done.
  - rewrite context_row_shape in Heq.
    destruct (r_file_id c2); [|done]. by rewrite append_nil_l in Heq.
  - rewrite context_row_shape in Heq.
    destruct (r_file_id c1); [|done]. by rewrite append_nil_l in Heq.
  - rewrite !context_row_shape in Heq.
    apply append_cut in Heq as [Hfile Heq]; [|done..].
    apply append_cut in Heq as [Hidx Heq];
      [|apply contains_pretty; vm_compute; lia..].
    apply append_cut in Heq as [Hcontent Heq]; [|done..].
    apply (inj pretty) in Hidx.
    rewrite !fmap_cons. f_equal; [by rewrite Hfile, Hidx, Hcontent|].
    by apply IH.
Qed.

Lemma format_context_injective_witness :
  [("A", 0, "a0")] = [("A", 0, "a0")].
Proof.
  apply (format_context_injective
           [ {| r_content := "a0"; r_score := 1; r_file_id := "A";
                r_chunk_index := 0 |} ]
           [ {| r_content := "a0"; r_score := 0; r_file_id := "A";
                r_chunk_index := 0 |} ]);
    [by repeat constructor | by repeat constructor | reflexivity].
Defined.

End ToonFacts.
(** ** Reading the stream of a response *)

Section StreamFacts.

Import ApiClient.

Lemma split_lines_nonempty (s : string) : split_lines s <> [].
Proof.
  induction s as [|c s IH]; [done|]. simpl.
  destruct (decide (c = Py.LF)); [done|]. by destruct (split_lines s).
Qed.

(** The lines of a text cut at a line feed. *)
Lemma split_lines_app (a b : string) :
  split_lines (a +:+ String Py.LF b) = split_lines a ++ split_lines b.
Proof.
  induction a as [|c a IH]; [by rewrite append_nil_l|].
  rewrite append_cons. cbn [split_lines].
  destruct (decide (c = Py.LF)); [by rewrite IH|]. rewrite IH.
  pose proof (split_lines_nonempty a). by destruct (split_lines a).
Qed.

Lemma streamMessage_cons (chunk : string) (chunks : list string) :
  streamMessage (chunk :: chunks)
  = flat_map yielded (split_lines chunk) ++ streamMessage chunks.
Proof. reflexivity. Qed.



End StreamFacts.
